(** * SVG import of chili3d: [chili-builder/src/svgConverter.ts]

    A shallow embedding of [SVGConverter] (the variant with the debug log and
    the basic shapes) and the properties of its path interpreter, of its
    shape-to-path reductions and of its per-document loop.

    Conventions of the embedding.
    - A JavaScript number is an exact rational ([Q]), the value of the
      double, and the arithmetic on coordinates (opposite, reflection,
      elevation) is exact: its rounding is not modelled.  The one test whose
      outcome depends on the rounding of doubles, the comparison of
      [CLOSE_PATH], is computed in binary64 ([Double], [distance]).  The only
      non-finite value that the attribute readers need, [NaN], is added
      where [parseFloat] can return it ([jsnum]).
    - A JavaScript string is the [string] of the bytes of its UTF-8
      encoding, and a byte outside any UTF-8 sequence is the character of
      that code; [trim] and [split] read its characters ([characters]) and
      know the white space of ECMAScript in full.
    - [Result<T>] of chili-core is the two-constructor type [Result].
    - Everything the converter receives from outside is a field of an
      interface: the geometry kernel ([IShapeFactory]) and the host
      ([Platform]: the DOM parser, the path grammar of svg-pathdata,
      [parseFloat], number printing and the clock of the log).  Calls of
      these return; none throws, so the [catch] of [convertFromSVG] is not
      reached.

    The first part holds the embedding and the definitions the statements
    use, among them two descriptions that the code is compared with: the
    primitives of a path command by command ([Drawing]) and the messages of
    the log ([pathMessages], [elementMessages], [documentMessages]).  The
    second part, from [Properties] on, holds the lemmas and theorems. *)

From Stdlib Require Import List String Ascii Bool Arith ZArith NArith QArith.
From Stdlib Require Import Lia Lqa DecimalString Permutation SpecFloat.
Import ListNotations.

Local Open Scope string_scope.
Local Open Scope list_scope.
Local Open Scope Q_scope.

Infix "+++" := String.append (right associativity, at level 60).

(** ** Values shared with chili-core *)

Inductive Result (A : Type) : Type :=
| Ok (value : A)
| Err (error : string).

Arguments Ok {A} value.
Arguments Err {A} error.

Definition isOk {A : Type} (r : Result A) : bool :=
  match r with
  | Ok _ => true
  | Err _ => false
  end.

Module XYZ.
Record t : Type := new { x : Q; y : Q; z : Q }.

(** Equality of points up to the representation of each rational. *)
Definition eq (p q : t) : Prop :=
  x p == x q /\ y p == y q /\ z p == z q.

(** The points the converter builds all lie in the plane [z = 0]. *)
Definition planar (p : t) : Prop := z p = 0.
End XYZ.

Abbreviation XYZ := XYZ.t.

(** The geometry kernel, [document.application.shapeFactory]. *)
Class IShapeFactory (IEdge IWire : Type) : Type := {
  line : XYZ -> XYZ -> Result IEdge;
  bezier : list XYZ -> Result IEdge;
  wire : list IEdge -> Result IWire
}.

(** ** Path commands

    The commands of [new SVGPathData(d).toAbs().commands]: every coordinate is
    absolute.  [UNSUPPORTED] stands for a command whose [type] is none of the
    ten constants the [switch] of [convertPathToEdges] names. *)
Inductive SVGCommand : Type :=
| MOVE_TO (x y : Q)
| LINE_TO (x y : Q)
| HORIZ_LINE_TO (x : Q)
| VERT_LINE_TO (y : Q)
| CURVE_TO (x1 y1 x2 y2 x y : Q)
| SMOOTH_CURVE_TO (x2 y2 x y : Q)
| QUAD_TO (x1 y1 x y : Q)
| SMOOTH_QUAD_TO (x y : Q)
| ARC (rX rY xRot : Q) (lArcFlag sweepFlag : bool) (x y : Q)
| CLOSE_PATH
| UNSUPPORTED (type : nat).

(** Printing of a non-negative integer, as a template literal does. *)
Definition natToString (n : nat) : string :=
  NilEmpty.string_of_uint (Nat.to_uint n).

(** Numbers an attribute can hold: a rational or [NaN]. *)
Inductive jsnum : Type :=
| Num (q : Q)
| NaN.

(** An element of the parsed document: its tag, its attributes and its text
    content. *)
Record Element : Type := {
  tagName : string;
  attributes : list (string * string);
  textContent : string
}.

(** The host: what the converter calls and the repository does not define. *)
Class Platform : Type := {
  (** [new DOMParser().parseFromString(svgContent, "image/svg+xml")]: the
      elements of the parsed document, in document order.  A document that
      is not well-formed holds a [parsererror] element. *)
  parseFromString : string -> list Element;
  (** [new SVGPathData(d).toAbs().commands]; a thrown error is [Err]
      carrying the printed exception. *)
  svgPathAbs : string -> Result (list SVGCommand);
  (** [parseFloat] *)
  parseFloat : string -> jsnum;
  (** printing of a number in a template literal, and [toString] *)
  numberToString : jsnum -> string;
  (** [new Date().toISOString().split("T")[1].split(".")[0]] at the moment
      the [n]-th line of the log is written *)
  clock : nat -> string
}.

(** ** The debug log *)

Definition addLog `{Platform} (logs : list string) (message : string)
  : list string :=
  logs ++ ["[" +++ clock (List.length logs) +++ "] " +++ message].

Definition newline : string := String (ascii_of_nat 10) EmptyString.

Definition getErrorWithLogs (logs : list string) (errorMessage : string)
  : string :=
  errorMessage +++ newline +++ newline +++ "--- Debug Log ---" +++ newline
    +++ String.concat newline logs.

(** ** Quadratic to cubic *)

(** [quadraticToCubic]: returns [[P0, CP1, CP2, P2]]. *)
Definition quadraticToCubic (p0 p1 p2 : XYZ) : list XYZ :=
  let cp1 :=
    XYZ.new (XYZ.x p0 + (2 / 3) * (XYZ.x p1 - XYZ.x p0))
            (XYZ.y p0 + (2 / 3) * (XYZ.y p1 - XYZ.y p0)) 0 in
  let cp2 :=
    XYZ.new (XYZ.x p2 + (2 / 3) * (XYZ.x p1 - XYZ.x p2))
            (XYZ.y p2 + (2 / 3) * (XYZ.y p1 - XYZ.y p2)) 0 in
  [p0; cp1; cp2; p2].

(** ** Doubles

    One test of the converter has an outcome that depends on the rounding of
    the doubles: the comparison of a computed distance with [0.001] in
    [CLOSE_PATH].  It is computed here as the code computes it, in binary64
    and with every operation rounded to the nearest double, ties to even. *)
Module Double.

Definition prec : Z := 53.
Definition emax : Z := 1024.

(** The double of a number: the double nearest to it, and the number itself
    when it is a double. *)
Definition ofQ (q : Q) : spec_float :=
  let denominator := S754_finite false (Qden q) 0 in
  match Qnum q with
  | Z0 => S754_zero false
  | Zpos n => SFdiv prec emax (S754_finite false n 0) denominator
  | Zneg n => SFdiv prec emax (S754_finite true n 0) denominator
  end.

(** [a - b] *)
Definition sub : spec_float -> spec_float -> spec_float := SFsub prec emax.

(** [a + b] *)
Definition add : spec_float -> spec_float -> spec_float := SFadd prec emax.

(** [Math.pow(a, 2)]: the rounded product of [a] and [a]. *)
Definition square (a : spec_float) : spec_float := SFmul prec emax a a.

(** [Math.sqrt(a)] *)
Definition sqrt : spec_float -> spec_float := SFsqrt prec emax.

(** [a > b] *)
Definition gtb (a b : spec_float) : bool := SFltb b a.

(** [a * b] *)
Definition mul : spec_float -> spec_float -> spec_float := SFmul prec emax.

(** [a / b] *)
Definition div : spec_float -> spec_float -> spec_float := SFdiv prec emax.

(** The number that a double is. *)
Definition toQ (a : spec_float) : Q :=
  match a with
  | S754_finite negative m e =>
      let n := if negative then Zneg m else Zpos m in
      Qred (if (0 <=? e)%Z then inject_Z (n * 2 ^ e)
            else n # Z.to_pos (2 ^ (- e)))
  | _ => 0
  end.

End Double.

(** The distance of [CLOSE_PATH]: [Math.sqrt(Math.pow(a.x - b.x, 2)
    + Math.pow(a.y - b.y, 2) + Math.pow(a.z - b.z, 2))]. *)
Definition distance (a b : XYZ) : spec_float :=
  let difference (p q : Q) := Double.sub (Double.ofQ p) (Double.ofQ q) in
  Double.sqrt
    (Double.add
       (Double.add (Double.square (difference (XYZ.x a) (XYZ.x b)))
                   (Double.square (difference (XYZ.y a) (XYZ.y b))))
       (Double.square (difference (XYZ.z a) (XYZ.z b)))).

Arguments distance : simpl never.
Arguments Double.gtb : simpl never.
Arguments Double.ofQ : simpl never.

(** The coordinates of the primitives are exact in this development: the
    elevation above is the one of the code with its arithmetic not rounded.
    The control points that the code computes are the doubles of
    [p0.x + (2 / 3) * (p1.x - p0.x)] and of the three like expressions, every
    operation rounded; [Rounded.quadraticToCubic] gives the numbers that these
    doubles are. *)
Module Rounded.

Definition control (a b : Q) : Q :=
  Double.toQ
    (Double.add (Double.ofQ a)
       (Double.mul (Double.div (Double.ofQ 2) (Double.ofQ 3))
                   (Double.sub (Double.ofQ b) (Double.ofQ a)))).

Definition quadraticToCubic (p0 p1 p2 : XYZ) : list XYZ :=
  let cp1 :=
    XYZ.new (control (XYZ.x p0) (XYZ.x p1))
            (control (XYZ.y p0) (XYZ.y p1)) 0 in
  let cp2 :=
    XYZ.new (control (XYZ.x p2) (XYZ.x p1))
            (control (XYZ.y p2) (XYZ.y p1)) 0 in
  [p0; cp1; cp2; p2].

End Rounded.

(** ** The interpreter of one path *)

Record PathState : Type := {
  currentPoint : XYZ;
  pathStartPoint : XYZ;
  lastControlPoint : option XYZ
}.

(** The reflection of the last control point in the current point, or the
    current point when there is none: the value of [scp1] and of [sqcp]. *)
Definition reflectedControlPoint (st : PathState) : XYZ :=
  match lastControlPoint st with
  | Some lcp =>
      XYZ.new (2 * XYZ.x (currentPoint st) - XYZ.x lcp)
              (2 * XYZ.y (currentPoint st) - XYZ.y lcp) 0
  | None => currentPoint st
  end.

Section Interpreter.
Context {IEdge IWire : Type} `{F : IShapeFactory IEdge IWire} `{P : Platform}.

(** The local variables of the loop of [convertPathToEdges], with the log. *)
Record Loop : Type := {
  state : PathState;
  edges : list IEdge;
  logs : list string
}.

(** [if (r.isOk) edges.push(r.value)] *)
Definition pushIfOk (r : Result IEdge) (es : list IEdge) : list IEdge :=
  match r with
  | Ok value => es ++ [value]
  | Err _ => es
  end.

(** One turn of [for (const cmd of commands) switch (cmd.type)]. *)
Definition step (l : Loop) (cmd : SVGCommand) : Loop :=
  let st := state l in
  let cur := currentPoint st in
  match cmd with
  | MOVE_TO cx cy =>
      let p := XYZ.new cx (- cy) 0 in
      {| state := {| currentPoint := p; pathStartPoint := p;
                     lastControlPoint := None |};
         edges := edges l; logs := logs l |}
  | LINE_TO cx cy =>
      let lineEnd := XYZ.new cx (- cy) 0 in
      {| state := {| currentPoint := lineEnd;
                     pathStartPoint := pathStartPoint st;
                     lastControlPoint := None |};
         edges := pushIfOk (line cur lineEnd) (edges l); logs := logs l |}
  | HORIZ_LINE_TO cx =>
      let hLineEnd := XYZ.new cx (XYZ.y cur) 0 in
      {| state := {| currentPoint := hLineEnd;
                     pathStartPoint := pathStartPoint st;
                     lastControlPoint := None |};
         edges := pushIfOk (line cur hLineEnd) (edges l); logs := logs l |}
  | VERT_LINE_TO cy =>
      let vLineEnd := XYZ.new (XYZ.x cur) (- cy) 0 in
      {| state := {| currentPoint := vLineEnd;
                     pathStartPoint := pathStartPoint st;
                     lastControlPoint := None |};
         edges := pushIfOk (line cur vLineEnd) (edges l); logs := logs l |}
  | CURVE_TO x1 y1 x2 y2 cx cy =>
      let cp1 := XYZ.new x1 (- y1) 0 in
      let cp2 := XYZ.new x2 (- y2) 0 in
      let curveEnd := XYZ.new cx (- cy) 0 in
      {| state := {| currentPoint := curveEnd;
                     pathStartPoint := pathStartPoint st;
                     lastControlPoint := Some cp2 |};
         edges := pushIfOk (bezier [cur; cp1; cp2; curveEnd]) (edges l);
         logs := logs l |}
  | SMOOTH_CURVE_TO x2 y2 cx cy =>
      let scp1 := reflectedControlPoint st in
      let scp2 := XYZ.new x2 (- y2) 0 in
      let sCurveEnd := XYZ.new cx (- cy) 0 in
      {| state := {| currentPoint := sCurveEnd;
                     pathStartPoint := pathStartPoint st;
                     lastControlPoint := Some scp2 |};
         edges := pushIfOk (bezier [cur; scp1; scp2; sCurveEnd]) (edges l);
         logs := logs l |}
  | QUAD_TO x1 y1 cx cy =>
      let qcp := XYZ.new x1 (- y1) 0 in
      let qEnd := XYZ.new cx (- cy) 0 in
      {| state := {| currentPoint := qEnd;
                     pathStartPoint := pathStartPoint st;
                     lastControlPoint := Some qcp |};
         edges := pushIfOk (bezier (quadraticToCubic cur qcp qEnd)) (edges l);
         logs := logs l |}
  | SMOOTH_QUAD_TO cx cy =>
      let sqcp := reflectedControlPoint st in
      let sqEnd := XYZ.new cx (- cy) 0 in
      {| state := {| currentPoint := sqEnd;
                     pathStartPoint := pathStartPoint st;
                     lastControlPoint := Some sqcp |};
         edges := pushIfOk (bezier (quadraticToCubic cur sqcp sqEnd))
                           (edges l);
         logs := logs l |}
  | ARC _ _ _ _ _ cx cy =>
      let logs1 :=
        addLog (logs l)
          ("Elliptical arc (A) command not fully supported yet, "
             +++ "using line approximation") in
      let arcEnd := XYZ.new cx (- cy) 0 in
      {| state := {| currentPoint := arcEnd;
                     pathStartPoint := pathStartPoint st;
                     lastControlPoint := None |};
         edges := pushIfOk (line cur arcEnd) (edges l); logs := logs1 |}
  | CLOSE_PATH =>
      let distToStart := distance cur (pathStartPoint st) in
      {| state := {| currentPoint := pathStartPoint st;
                     pathStartPoint := pathStartPoint st;
                     lastControlPoint := None |};
         edges := if Double.gtb distToStart (Double.ofQ (1 / 1000))
                  then pushIfOk (line cur (pathStartPoint st)) (edges l)
                  else edges l;
         logs := logs l |}
  | UNSUPPORTED type =>
      {| state := st; edges := edges l;
         logs := addLog (logs l)
                   ("Unsupported SVG path command: " +++ natToString type) |}
  end.

Definition origin : XYZ := XYZ.new 0 0 0.

Definition initialState : PathState :=
  {| currentPoint := origin; pathStartPoint := origin;
     lastControlPoint := None |}.

(** The whole [for] loop, from the locals as declared before it. *)
Definition runCommands (logs0 : list string) (commands : list SVGCommand)
  : Loop :=
  fold_left step commands
    {| state := initialState; edges := []; logs := logs0 |}.

(** [convertPathToEdges]: the result and the log it leaves. *)
Definition convertPathToEdges (logs0 : list string) (pathData : string)
  : Result (list IEdge) * list string :=
  match svgPathAbs pathData with
  | Err error =>
      (Err ("Path conversion error: " +++ error),
       addLog logs0 ("Path conversion exception: " +++ error))
  | Ok commands =>
      let logs1 :=
        addLog logs0
          ("Parsed " +++ natToString (List.length commands)
             +++ " path commands") in
      let l := runCommands logs1 commands in
      (Ok (edges l),
       addLog (logs l)
         ("Total edges generated: "
            +++ natToString (List.length (edges l))))
  end.

End Interpreter.

(** ** Strings of the DOM and of JavaScript *)

(** A JavaScript string is written here as the [string] of the bytes of its
    UTF-8 encoding; a byte that belongs to no UTF-8 sequence stands for the
    character of that code.  Only [trim] and the [\s] of [split] look at the
    characters of a text; everything else copies and joins texts. *)

(** The white space of ECMAScript, by code point: the characters that
    [\s] and [trim] share ([WhiteSpace] and [LineTerminator]). *)
Definition isWhiteSpaceCode (code : N) : bool :=
  ((9 <=? code) && (code <=? 13) || (code =? 32) || (code =? 160)
   || (code =? 5760) || (8192 <=? code) && (code <=? 8202)
   || (code =? 8232) || (code =? 8233) || (code =? 8239) || (code =? 8287)
   || (code =? 12288) || (code =? 65279))%N%bool.

(** The bits that a continuation byte of UTF-8 carries. *)
Definition continuation (c : ascii) : option N :=
  let n := N_of_ascii c in
  if ((128 <=? n) && (n <? 192))%N%bool then Some (n - 128)%N else None.

(** A code point that a sequence of [bytes] bytes may write: not one that a
    shorter sequence writes, no surrogate, none beyond U+10FFFF. *)
Definition isScalar (code : N) (bytes : nat) : bool :=
  match bytes with
  | 2%nat => (128 <=? code)%N
  | 3%nat =>
      ((2048 <=? code)
       && negb ((55296 <=? code) && (code <=? 57343)))%N%bool
  | 4%nat => ((65536 <=? code) && (code <=? 1114111))%N%bool
  | _ => true
  end.

(** The character at the head of the text [String c0 rest]: its code point
    and the number of bytes that write it. *)
Definition headCharacter (c0 : ascii) (rest : string) : N * nat :=
  let n0 := N_of_ascii c0 in
  let alone := (n0, 1%nat) in
  let sequence (code : N) (bytes : nat) :=
    if isScalar code bytes then (code, bytes) else alone in
  if (n0 <? 192)%N then alone
  else if (n0 <? 224)%N then
    match rest with
    | String c1 _ =>
        match continuation c1 with
        | Some b1 => sequence ((n0 - 192) * 64 + b1)%N 2%nat
        | None => alone
        end
    | EmptyString => alone
    end
  else if (n0 <? 240)%N then
    match rest with
    | String c1 (String c2 _) =>
        match continuation c1, continuation c2 with
        | Some b1, Some b2 =>
            sequence (((n0 - 224) * 64 + b1) * 64 + b2)%N 3%nat
        | _, _ => alone
        end
    | _ => alone
    end
  else if (n0 <? 248)%N then
    match rest with
    | String c1 (String c2 (String c3 _)) =>
        match continuation c1, continuation c2, continuation c3 with
        | Some b1, Some b2, Some b3 =>
            sequence ((((n0 - 240) * 64 + b1) * 64 + b2) * 64 + b3)%N 4%nat
        | _, _, _ => alone
        end
    | _ => alone
    end
  else alone.

(** The characters of a text from [s] on, each as the text of its bytes.
    [pending] holds the bytes read of the character being read and
    [missing] counts its bytes still to come. *)
Fixpoint readCharacters (s : string) (pending : string) (missing : nat)
  : list string :=
  match s with
  | EmptyString => []
  | String c rest =>
      match missing with
      | S (S more) =>
          readCharacters rest (pending +++ String c EmptyString) (S more)
      | S O => (pending +++ String c EmptyString)
                 :: readCharacters rest EmptyString 0
      | O =>
          match snd (headCharacter c rest) with
          | S (S more) => readCharacters rest (String c EmptyString) (S more)
          | _ => String c EmptyString :: readCharacters rest EmptyString 0
          end
      end
  end.

(** The characters of a text. *)
Definition characters (s : string) : list string :=
  readCharacters s EmptyString 0.

(** The code point of a character. *)
Definition codeOf (character : string) : N :=
  match character with
  | String c0 rest => fst (headCharacter c0 rest)
  | EmptyString => 0
  end.

(** The text of a list of characters. *)
Fixpoint textOf (text : list string) : string :=
  match text with
  | [] => EmptyString
  | character :: rest => character +++ textOf rest
  end.

(** A character of the class [\s]. *)
Definition isWhiteSpace (character : string) : bool :=
  isWhiteSpaceCode (codeOf character).

(** A character of the class [[\s,]]. *)
Definition isDelimiter (character : string) : bool :=
  (isWhiteSpace character || String.eqb character ",")%bool.

Fixpoint trimStart (text : list string) : list string :=
  match text with
  | character :: rest =>
      if isWhiteSpace character then trimStart rest else text
  | [] => []
  end.

(** Removal of the white space at the end: a character is kept when it is
    not white space or something is kept after it. *)
Fixpoint trimEnd (text : list string) : list string :=
  match text with
  | character :: rest =>
      match trimEnd rest with
      | [] => if isWhiteSpace character then [] else [character]
      | kept => character :: kept
      end
  | [] => []
  end.

(** [String.prototype.trim], on the characters of the text. *)
Definition trim (text : list string) : list string :=
  trimEnd (trimStart text).

(** [s.split(/[\s,]+/)], on the characters of [s]: the pieces between the
    maximal runs of delimiters.  [piece] is the piece being read and
    [inRun] tells that the previous character belonged to a run. *)
Fixpoint splitRuns (text : list string) (piece : string) (inRun : bool)
  : list string :=
  match text with
  | [] => [piece]
  | character :: rest =>
      if isDelimiter character
      then if inRun then splitRuns rest EmptyString true
           else piece :: splitRuns rest EmptyString true
      else splitRuns rest (piece +++ character) false
  end.

Definition splitDelimiters (text : list string) : list string :=
  splitRuns text EmptyString false.

(** [s === E] for a text given by its characters, [E] the empty string. *)
Definition isEmptyText (text : list string) : bool :=
  match text with
  | [] => true
  | _ :: _ => false
  end.

Definition isEmptyString (s : string) : bool :=
  match s with
  | EmptyString => true
  | String _ _ => false
  end.

(** [a || b] where [a] is a string or [null]: [null] and the empty string
    are falsy. *)
Definition orElse (a : option string) (b : string) : string :=
  match a with
  | Some s => if isEmptyString s then b else s
  | None => b
  end.

Definition getAttribute (element : Element) (name : string) : option string :=
  match find (fun kv => String.eqb (fst kv) name) (attributes element) with
  | Some kv => Some (snd kv)
  | None => None
  end.

(** ** Arithmetic of attribute values *)

Definition jsLift2 (f : Q -> Q -> Q) (a b : jsnum) : jsnum :=
  match a, b with
  | Num p, Num q => Num (f p q)
  | _, _ => NaN
  end.

Definition jsAdd : jsnum -> jsnum -> jsnum := jsLift2 Qplus.
Definition jsSub : jsnum -> jsnum -> jsnum := jsLift2 Qminus.
Definition jsMul : jsnum -> jsnum -> jsnum := jsLift2 Qmult.
Definition jsDiv : jsnum -> jsnum -> jsnum := jsLift2 Qdiv.

(** [Math.min] of two numbers: [NaN] when one of them is. *)
Definition jsMin : jsnum -> jsnum -> jsnum :=
  jsLift2 (fun p q => if Qle_bool p q then p else q).

Definition jsNeg (a : jsnum) : jsnum :=
  match a with
  | Num p => Num (- p)
  | NaN => NaN
  end.

(** [a === 0] *)
Definition jsIsZero (a : jsnum) : bool :=
  match a with
  | Num p => Qeq_bool p 0
  | NaN => false
  end.

(** [a || b] on numbers: [0] and [NaN] are falsy. *)
Definition jsOr (a b : jsnum) : jsnum :=
  match a with
  | Num p => if Qeq_bool p 0 then b else a
  | NaN => b
  end.

(** ** Basic shapes to path data *)

(** The line break and the indentation inside the template literals. *)
Definition indent (n : nat) : string :=
  newline +++ String.concat EmptyString (repeat " " n).

(** The coordinate tokens of a [points] attribute, as [polylineToPath] reads
    them. *)
Definition pointTokens (element : Element) : list string :=
  let points := orElse (getAttribute element "points") EmptyString in
  filter (fun p => Nat.ltb 0 (String.length p))
         (splitDelimiters (trim (characters points))).

(** The [for (let i = 2; i < pairs.length; i += 2)] loop of
    [polylineToPath], on the tokens from index [i] on: with two tokens left
    it appends a segment, with one ([i + 1 < pairs.length] fails) or none it
    ends. *)
Fixpoint polylineSegments (rest : list string) (path : string) : string :=
  match rest with
  | px :: py :: rest' =>
      polylineSegments rest' (path +++ " L " +++ px +++ "," +++ py)
  | _ => path
  end.

Definition polylineToPath (element : Element) : string :=
  match pointTokens element with
  | p0 :: p1 :: rest => polylineSegments rest ("M " +++ p0 +++ "," +++ p1)
  | _ => EmptyString
  end.

Definition polygonToPath (element : Element) : string :=
  let polylinePath := polylineToPath element in
  if isEmptyString polylinePath then EmptyString else polylinePath +++ " Z".

Section Shapes.
Context `{P : Platform}.

(** [parseFloat(element.getAttribute(name) || "0")] *)
Definition numericAttribute (element : Element) (name : string) : jsnum :=
  parseFloat (orElse (getAttribute element name) "0").

Definition str : jsnum -> string := numberToString.

Definition rectToPath (element : Element) : string :=
  let x := numericAttribute element "x" in
  let y := numericAttribute element "y" in
  let width := numericAttribute element "width" in
  let height := numericAttribute element "height" in
  let rx := numericAttribute element "rx" in
  let ry :=
    jsOr (parseFloat (orElse (getAttribute element "ry") (str rx))) rx in
  let two := Num 2 in
  if (jsIsZero rx && jsIsZero ry)%bool
  then "M " +++ str x +++ "," +++ str y +++ " h " +++ str width
         +++ " v " +++ str height +++ " h " +++ str (jsNeg width) +++ " Z"
  else
    let actualRx := jsMin rx (jsDiv width two) in
    let actualRy := jsMin ry (jsDiv height two) in
    let radii := str actualRx +++ "," +++ str actualRy in
    "M " +++ str (jsAdd x actualRx) +++ "," +++ str y
      +++ indent 20 +++ "h " +++ str (jsSub width (jsMul two actualRx))
      +++ indent 20 +++ "a " +++ radii +++ " 0 0 1 "
        +++ str actualRx +++ "," +++ str actualRy
      +++ indent 20 +++ "v " +++ str (jsSub height (jsMul two actualRy))
      +++ indent 20 +++ "a " +++ radii +++ " 0 0 1 "
        +++ str (jsNeg actualRx) +++ "," +++ str actualRy
      +++ indent 20 +++ "h "
        +++ str (jsNeg (jsSub width (jsMul two actualRx)))
      +++ indent 20 +++ "a " +++ radii +++ " 0 0 1 "
        +++ str (jsNeg actualRx) +++ "," +++ str (jsNeg actualRy)
      +++ indent 20 +++ "v "
        +++ str (jsNeg (jsSub height (jsMul two actualRy)))
      +++ indent 20 +++ "a " +++ radii +++ " 0 0 1 "
        +++ str actualRx +++ "," +++ str (jsNeg actualRy) +++ " Z".

(** The four arcs of [circleToPath] and [ellipseToPath], for the centre
    and the two radii with their control offsets. *)
Definition fourArcs (cx cy rx ry krx kry : jsnum) : string :=
  let pt (a b : jsnum) := str a +++ "," +++ str b in
  "M " +++ pt (jsSub cx rx) cy
    +++ indent 16 +++ "C " +++ pt (jsSub cx rx) (jsSub cy kry) +++ " "
      +++ pt (jsSub cx krx) (jsSub cy ry) +++ " " +++ pt cx (jsSub cy ry)
    +++ indent 16 +++ "C " +++ pt (jsAdd cx krx) (jsSub cy ry) +++ " "
      +++ pt (jsAdd cx rx) (jsSub cy kry) +++ " " +++ pt (jsAdd cx rx) cy
    +++ indent 16 +++ "C " +++ pt (jsAdd cx rx) (jsAdd cy kry) +++ " "
      +++ pt (jsAdd cx krx) (jsAdd cy ry) +++ " " +++ pt cx (jsAdd cy ry)
    +++ indent 16 +++ "C " +++ pt (jsSub cx krx) (jsAdd cy ry) +++ " "
      +++ pt (jsSub cx rx) (jsAdd cy kry) +++ " " +++ pt (jsSub cx rx) cy
    +++ " Z".

(** The constant [k = 0.5522847498]. *)
Definition k : jsnum := Num (5522847498 # 10000000000).

Definition circleToPath (element : Element) : string :=
  let cx := numericAttribute element "cx" in
  let cy := numericAttribute element "cy" in
  let r := numericAttribute element "r" in
  let kr := jsMul k r in
  fourArcs cx cy r r kr kr.

Definition ellipseToPath (element : Element) : string :=
  let cx := numericAttribute element "cx" in
  let cy := numericAttribute element "cy" in
  let rx := numericAttribute element "rx" in
  let ry := numericAttribute element "ry" in
  let krx := jsMul k rx in
  let kry := jsMul k ry in
  fourArcs cx cy rx ry krx kry.

Definition lineToPath (element : Element) : string :=
  let x1 := numericAttribute element "x1" in
  let y1 := numericAttribute element "y1" in
  let x2 := numericAttribute element "x2" in
  let y2 := numericAttribute element "y2" in
  "M " +++ str x1 +++ "," +++ str y1 +++ " L " +++ str x2 +++ "," +++ str y2.

(** [convertBasicShapeToPath]; [None] is [null]. *)
Definition convertBasicShapeToPath (element : Element) (type : string)
  : option string :=
  if String.eqb type "rect" then Some (rectToPath element)
  else if String.eqb type "circle" then Some (circleToPath element)
  else if String.eqb type "ellipse" then Some (ellipseToPath element)
  else if String.eqb type "line" then Some (lineToPath element)
  else if String.eqb type "polyline" then Some (polylineToPath element)
  else if String.eqb type "polygon" then Some (polygonToPath element)
  else None.

End Shapes.

(** ** The document loop *)

Definition dquote : string := String (ascii_of_nat 34) EmptyString.

(** [svgDoc.querySelectorAll(tag)], in document order. *)
Definition querySelectorAll (svgDoc : list Element) (tag : string)
  : list Element :=
  filter (fun e => String.eqb (tagName e) tag) svgDoc.

(** [svgDoc.querySelector(tag)] *)
Definition querySelector (svgDoc : list Element) (tag : string)
  : option Element :=
  find (fun e => String.eqb (tagName e) tag) svgDoc.

(** [elements.map((e) => ({ element: e, type }))] *)
Definition withType (type : string) (elements : list Element)
  : list (Element * string) :=
  map (fun e => (e, type)) elements.

(** The array [allElements] of [convertFromSVG]. *)
Definition allElements (svgDoc : list Element) : list (Element * string) :=
  withType "path" (querySelectorAll svgDoc "path")
    ++ withType "rect" (querySelectorAll svgDoc "rect")
    ++ withType "circle" (querySelectorAll svgDoc "circle")
    ++ withType "ellipse" (querySelectorAll svgDoc "ellipse")
    ++ withType "line" (querySelectorAll svgDoc "line")
    ++ withType "polyline" (querySelectorAll svgDoc "polyline")
    ++ withType "polygon" (querySelectorAll svgDoc "polygon").

Section Document.
Context {IEdge IWire : Type} `{F : IShapeFactory IEdge IWire} `{P : Platform}.

(** [new EditableShapeNode(document, name, shape)] *)
Record EditableShapeNode : Type := {
  nodeName : string;
  shape : IWire
}.

(** [new GroupNode(document, name)] and the nodes added to it. *)
Record GroupNode : Type := {
  groupName : string;
  children : list EditableShapeNode
}.

(** [folder.count] *)
Definition count (g : GroupNode) : nat := List.length (children g).

(** [folder.add(node)] *)
Definition add (g : GroupNode) (node : EditableShapeNode) : GroupNode :=
  {| groupName := groupName g; children := children g ++ [node] |}.

(** What the callback of [allElements.forEach] reads and writes. *)
Record Import : Type := {
  folder : GroupNode;
  successCount : nat;
  failCount : nat;
  elementIndex : nat;
  importLogs : list string
}.

(** The path data of an element: [d] of a path, the reduction of a shape. *)
Definition pathDataOf (element : Element) (type : string) : option string :=
  if String.eqb type "path" then getAttribute element "d"
  else convertBasicShapeToPath element type.

(** [!pathData || pathData.trim() === E] where [E] is the empty string. *)
Definition isBlank (pathData : option string) : bool :=
  match pathData with
  | None => true
  | Some d => (isEmptyString d || isEmptyText (trim (characters d)))%bool
  end.

(** The name of the node of the element numbered [index]. *)
Definition elementNameOf (element : Element) (index : nat) : string :=
  orElse (getAttribute element "id")
    (orElse (getAttribute element "data-name")
       ("Element " +++ natToString index)).

(** The callback of [allElements.forEach]. *)
Definition processElement (acc : Import) (item : Element * string) : Import :=
  let (element, type) := item in
  let index := S (elementIndex acc) in
  let elementName := elementNameOf element index in
  let label := type +++ " " +++ natToString index in
  let logs1 :=
    addLog (importLogs acc)
      ("Processing " +++ label +++ ": " +++ dquote +++ elementName
         +++ dquote) in
  let pathData := pathDataOf element type in
  if isBlank pathData
  then {| folder := folder acc; successCount := successCount acc;
          failCount := failCount acc; elementIndex := index;
          importLogs := addLog logs1 (label +++ ": empty path data, skipping")
       |}
  else
    match convertPathToEdges logs1 (orElse pathData EmptyString) with
    | (Err error, logs2) =>
        {| folder := folder acc; successCount := successCount acc;
           failCount := S (failCount acc); elementIndex := index;
           importLogs :=
             addLog logs2 (label +++ " conversion failed: " +++ error) |}
    | (Ok edges, logs2) =>
        let logs3 :=
          addLog logs2
            (label +++ ": generated " +++ natToString (List.length edges)
               +++ " edges") in
        match edges with
        | [] =>
            {| folder := folder acc; successCount := successCount acc;
               failCount := failCount acc; elementIndex := index;
               importLogs :=
                 addLog logs3 (label +++ ": no edges generated, skipping") |}
        | _ :: _ =>
            match wire edges with
            | Err error =>
                {| folder := folder acc; successCount := successCount acc;
                   failCount := S (failCount acc); elementIndex := index;
                   importLogs :=
                     addLog logs3
                       (label +++ " wire creation failed: " +++ error) |}
            | Ok value =>
                let shapeNode :=
                  {| nodeName := elementName; shape := value |} in
                {| folder := add (folder acc) shapeNode;
                   successCount := S (successCount acc);
                   failCount := failCount acc; elementIndex := index;
                   importLogs :=
                     addLog logs3
                       (label +++ ": successfully created as " +++ dquote
                          +++ elementName +++ dquote) |}
            end
        end
    end.

(** The state of the loop before its first turn. *)
Definition importStart (logs0 : list string) : Import :=
  {| folder := {| groupName := "SVG Import"; children := [] |};
     successCount := 0; failCount := 0; elementIndex := 0;
     importLogs := logs0 |}.

(** [allElements.forEach(...)] *)
Definition importElements (logs0 : list string)
  (items : list (Element * string)) : Import :=
  fold_left processElement items (importStart logs0).

(** [totalElements]: the sum of the lengths of the seven arrays. *)
Definition totalElementsOf (svgDoc : list Element) : nat :=
  let n (tag : string) := List.length (querySelectorAll svgDoc tag) in
  (n "path" + n "rect" + n "circle" + n "ellipse" + n "line" + n "polyline"
   + n "polygon")%nat.

(** The line of the log that counts the elements found. *)
Definition foundMessage (svgDoc : list Element) : string :=
  let n (tag : string) :=
    natToString (List.length (querySelectorAll svgDoc tag)) in
  "Found " +++ natToString (totalElementsOf svgDoc)
    +++ " SVG elements (" +++ n "path" +++ " path, " +++ n "rect"
    +++ " rect, " +++ n "circle" +++ " circle, " +++ n "ellipse"
    +++ " ellipse, " +++ n "line" +++ " line, " +++ n "polyline"
    +++ " polyline, " +++ n "polygon" +++ " polygon)".

(** [convertFromSVG]: the result and the log it leaves.  The [catch] of the
    method is not reached: nothing in this model throws. *)
Definition convertFromSVG (svgContent : string)
  : Result GroupNode * list string :=
  let logs0 := addLog [] "SVG import started" in
  let svgDoc := parseFromString svgContent in
  let logs1 := addLog logs0 "SVG content parsed by DOMParser" in
  match querySelector svgDoc "parsererror" with
  | Some parserError =>
      let logs2 :=
        addLog logs1
          ("Parser error detected: " +++ textContent parserError) in
      (Err (getErrorWithLogs logs2 "Invalid SVG file"), logs2)
  | None =>
      let totalElements := totalElementsOf svgDoc in
      let logs2 := addLog logs1 (foundMessage svgDoc) in
      if Nat.eqb totalElements 0
      then (Err (getErrorWithLogs logs2 "No supported SVG elements found"),
            logs2)
      else
        let done := importElements logs2 (allElements svgDoc) in
        let logs3 :=
          addLog (importLogs done)
            ("Import completed: " +++ natToString (successCount done)
               +++ " success, " +++ natToString (failCount done)
               +++ " failed") in
        if Nat.eqb (count (folder done)) 0
        then (Err (getErrorWithLogs logs3 "No valid paths could be imported"),
              logs3)
        else (Ok (folder done), logs3)
  end.

End Document.

(** ** A reference reading of path data

    svg-pathdata is not part of the repository; the converter reaches it
    through [svgPathAbs].  [PathGrammar] is a reference implementation of
    the path grammar of SVG (commands [M L H V C S Q T A Z] in both cases,
    numbers with sign, fraction and exponent, implicit repetition of a
    command, conversion of relative coordinates to absolute ones).  It
    instantiates [svgPathAbs] in the examples. *)
Module PathGrammar.

Definition isDigit (c : ascii) : bool :=
  let n := nat_of_ascii c in (Nat.leb 48 n && Nat.leb n 57)%bool.

Definition digitValue (c : ascii) : Z := Z.of_nat (nat_of_ascii c - 48).

Definition isSign (c : ascii) : bool :=
  (Ascii.eqb c "+" || Ascii.eqb c "-")%bool.

Definition isExponentMark (c : ascii) : bool :=
  (Ascii.eqb c "e" || Ascii.eqb c "E")%bool.

(** What separates the tokens of a path: white space and the comma. *)
Definition isSeparator (c : ascii) : bool :=
  let n := nat_of_ascii c in
  (Nat.eqb n 32 || (Nat.leb 9 n && Nat.leb n 13) || Ascii.eqb c ",")%bool.

(** *** Numbers *)

(** [m * 10 ^ e] *)
Definition scale10 (m e : Z) : Q :=
  if (0 <=? e)%Z then inject_Z (m * 10 ^ e)
  else m # Z.to_pos (10 ^ (- e)).

(** Reads a run of digits: its value after [acc], its length, the rest. *)
Fixpoint readDigits (s : string) (acc : Z) (n : nat) : Z * nat * string :=
  match s with
  | String c rest =>
      if isDigit c then readDigits rest (acc * 10 + digitValue c)%Z (S n)
      else (acc, n, s)
  | EmptyString => (acc, n, s)
  end.

(** Reads an optional sign: [true] for a minus. *)
Definition readSign (s : string) : bool * string :=
  match s with
  | String c rest =>
      if Ascii.eqb c "-" then (true, rest)
      else if Ascii.eqb c "+" then (false, rest)
      else (false, s)
  | EmptyString => (false, s)
  end.

Definition signed (negative : bool) (v : Z) : Z :=
  if negative then (- v)%Z else v.

(** The value of a number written in full: sign, digits, fraction,
    exponent; [None] when the text is not a number. *)
Definition numberValue (s : string) : option Q :=
  let '(negative, s1) := readSign s in
  let '(whole, nWhole, s2) := readDigits s1 0%Z 0%nat in
  let '(mantissa, nFraction, s3) :=
    match s2 with
    | String "." rest => readDigits rest whole 0%nat
    | _ => (whole, 0%nat, s2)
    end in
  if Nat.eqb (nWhole + nFraction) 0 then None
  else
    match s3 with
    | EmptyString =>
        Some (scale10 (signed negative mantissa) (- Z.of_nat nFraction))
    | String c rest =>
        if isExponentMark c
        then
          let '(negativeExp, s4) := readSign rest in
          let '(exponent, nExp, s5) := readDigits s4 0%Z 0%nat in
          match nExp, s5 with
          | S _, EmptyString =>
              Some (scale10 (signed negative mantissa)
                      (signed negativeExp exponent - Z.of_nat nFraction))
          | _, _ => None
          end
        else None
    end.

(** *** Tokens *)

Inductive Token : Type :=
| TNumber (text : string)
| TLetter (c : ascii).

(** The number being read: its text and what it holds already. *)
Record Pending : Type := {
  text : string;
  hasExp : bool;
  hasExpDigits : bool;
  hasDecimal : bool
}.

Definition noPending : Pending :=
  {| text := EmptyString; hasExp := false; hasExpDigits := false;
     hasDecimal := false |}.

Definition extend (p : Pending) (c : ascii) : string :=
  text p +++ String c EmptyString.

(** The pending number with one more character, when the character can
    continue it. *)
Definition continueNumber (p : Pending) (c : ascii) : option Pending :=
  if isDigit c
  then Some {| text := extend p c; hasExp := hasExp p;
               hasExpDigits := hasExp p; hasDecimal := hasDecimal p |}
  else if (isExponentMark c && negb (isEmptyString (text p))
           && negb (hasExp p))%bool
  then Some {| text := extend p c; hasExp := true;
               hasExpDigits := false; hasDecimal := hasDecimal p |}
  else if (isSign c && hasExp p && negb (hasExpDigits p))%bool
  then Some {| text := extend p c; hasExp := hasExp p;
               hasExpDigits := hasExpDigits p; hasDecimal := hasDecimal p |}
  else if (Ascii.eqb c "." && negb (hasExp p) && negb (hasDecimal p))%bool
  then Some {| text := extend p c; hasExp := hasExp p;
               hasExpDigits := hasExpDigits p; hasDecimal := true |}
  else None.

(** The number that a sign or a point starts. *)
Definition startWith (c : ascii) : Pending :=
  {| text := String c EmptyString; hasExp := false; hasExpDigits := false;
     hasDecimal := Ascii.eqb c "." |}.

(** The tokens read so far, with the pending number closed. *)
Definition flush (p : Pending) (out : list Token) : list Token :=
  if isEmptyString (text p) then out else out ++ [TNumber (text p)].

(** The tokens of a path: numbers are the longest runs that read as one
    number, white space and commas separate, any other character is a
    letter. *)
Fixpoint tokens (s : string) (p : Pending) (out : list Token)
  : list Token :=
  match s with
  | EmptyString => flush p out
  | String c rest =>
      match continueNumber p c with
      | Some p' => tokens rest p' out
      | None =>
          let out' := flush p out in
          if isSeparator c then tokens rest noPending out'
          else if (isSign c || Ascii.eqb c ".")%bool
          then tokens rest (startWith c) out'
          else tokens rest noPending (out' ++ [TLetter c])
      end
  end.

(** The pending number after all the characters of a text, when each of
    them continues it. *)
Fixpoint continues (p : Pending) (t : string) : option Pending :=
  match t with
  | EmptyString => Some p
  | String c rest =>
      match continueNumber p c with
      | Some p' => continues p' rest
      | None => None
      end
  end.

(** The pending number after a text read from its first character on as
    one number. *)
Definition startNumber (t : string) : option Pending :=
  match t with
  | EmptyString => None
  | String c rest =>
      if isSign c then continues (startWith c) rest
      else continues noPending t
  end.

(** The text [t] is one number, of value [v]. *)
Definition isNumber (t : string) (v : Q) : Prop :=
  startNumber t <> None /\ numberValue t = Some v.

(** *** Commands *)

Inductive Kind : Type :=
| KMove | KLine | KHoriz | KVert | KCurve | KSmoothCurve | KQuad
| KSmoothQuad | KArc.

Definition arity (kd : Kind) : nat :=
  match kd with
  | KHoriz | KVert => 1
  | KMove | KLine | KSmoothQuad => 2
  | KSmoothCurve | KQuad => 4
  | KCurve => 6
  | KArc => 7
  end.

(** A command as written: relative when its letter is lower case. *)
Inductive Written : Type :=
| WArgs (kd : Kind) (relative : bool) (args : list Q)
| WClose.

(** The kind a letter starts and whether it is relative. *)
Definition letterKind (c : ascii) : option (Kind * bool) :=
  if Ascii.eqb c "M" then Some (KMove, false)
  else if Ascii.eqb c "m" then Some (KMove, true)
  else if Ascii.eqb c "L" then Some (KLine, false)
  else if Ascii.eqb c "l" then Some (KLine, true)
  else if Ascii.eqb c "H" then Some (KHoriz, false)
  else if Ascii.eqb c "h" then Some (KHoriz, true)
  else if Ascii.eqb c "V" then Some (KVert, false)
  else if Ascii.eqb c "v" then Some (KVert, true)
  else if Ascii.eqb c "C" then Some (KCurve, false)
  else if Ascii.eqb c "c" then Some (KCurve, true)
  else if Ascii.eqb c "S" then Some (KSmoothCurve, false)
  else if Ascii.eqb c "s" then Some (KSmoothCurve, true)
  else if Ascii.eqb c "Q" then Some (KQuad, false)
  else if Ascii.eqb c "q" then Some (KQuad, true)
  else if Ascii.eqb c "T" then Some (KSmoothQuad, false)
  else if Ascii.eqb c "t" then Some (KSmoothQuad, true)
  else if Ascii.eqb c "A" then Some (KArc, false)
  else if Ascii.eqb c "a" then Some (KArc, true)
  else None.

(** The command in force, and the arguments read for its next instance. *)
Record Group : Type := {
  current : option (Kind * bool);
  args : list Q;
  (** a letter was read and no instance of its command yet *)
  expecting : bool
}.

Definition noGroup : Group :=
  {| current := None; args := []; expecting := false |}.

(** Groups the tokens into commands.  After [M], further pairs are [L]. *)
Fixpoint group (ts : list Token) (g : Group) (out : list Written)
  : Result (list Written) :=
  match ts with
  | [] =>
      match args g, expecting g with
      | [], false => Ok out
      | _, _ => Err "SyntaxError: Unterminated command at the path end."
      end
  | TNumber t :: rest =>
      match numberValue t, current g with
      | None, _ => Err ("SyntaxError: Invalid number " +++ t)
      | Some _, None => Err ("SyntaxError: Unexpected number " +++ t)
      | Some v, Some (kd, rel) =>
          let args' := args g ++ [v] in
          if Nat.eqb (List.length args') (arity kd)
          then group rest
                 {| current :=
                      Some (match kd with KMove => KLine | _ => kd end, rel);
                    args := []; expecting := false |}
                 (out ++ [WArgs kd rel args'])
          else group rest
                 {| current := current g; args := args';
                    expecting := expecting g |} out
      end
  | TLetter c :: rest =>
      match args g, expecting g with
      | [], false =>
          if (Ascii.eqb c "Z" || Ascii.eqb c "z")%bool
          then group rest noGroup (out ++ [WClose])
          else
            match letterKind c with
            | Some kr =>
                group rest
                  {| current := Some kr; args := []; expecting := true |} out
            | None =>
                Err ("SyntaxError: Unexpected character "
                       +++ String c EmptyString)
            end
      | _, _ => Err "SyntaxError: Unterminated command."
      end
  end.

(** *** Absolute coordinates *)

(** The pen: the current point and the start of the current sub-path. *)
Record Pen : Type := { penX : Q; penY : Q; startX : Q; startY : Q }.

Definition rx (rel : bool) (pen : Pen) (v : Q) : Q :=
  if rel then v + penX pen else v.

Definition ry (rel : bool) (pen : Pen) (v : Q) : Q :=
  if rel then v + penY pen else v.

Definition moved (pen : Pen) (px py : Q) : Pen :=
  {| penX := px; penY := py; startX := startX pen; startY := startY pen |}.

Definition isNonZero (v : Q) : bool := negb (Qeq_bool v 0).

(** One command made absolute, and the pen after it. *)
Definition absolute (pen : Pen) (w : Written) : option (SVGCommand * Pen) :=
  match w with
  | WClose =>
      Some (CLOSE_PATH, moved pen (startX pen) (startY pen))
  | WArgs KMove rel [ax; ay] =>
      let px := rx rel pen ax in
      let py := ry rel pen ay in
      Some (MOVE_TO px py,
            {| penX := px; penY := py; startX := px; startY := py |})
  | WArgs KLine rel [ax; ay] =>
      let px := rx rel pen ax in
      let py := ry rel pen ay in
      Some (LINE_TO px py, moved pen px py)
  | WArgs KHoriz rel [ax] =>
      let px := rx rel pen ax in
      Some (HORIZ_LINE_TO px, moved pen px (penY pen))
  | WArgs KVert rel [ay] =>
      let py := ry rel pen ay in
      Some (VERT_LINE_TO py, moved pen (penX pen) py)
  | WArgs KCurve rel [a1; b1; a2; b2; ax; ay] =>
      let px := rx rel pen ax in
      let py := ry rel pen ay in
      Some (CURVE_TO (rx rel pen a1) (ry rel pen b1) (rx rel pen a2)
              (ry rel pen b2) px py, moved pen px py)
  | WArgs KSmoothCurve rel [a2; b2; ax; ay] =>
      let px := rx rel pen ax in
      let py := ry rel pen ay in
      Some (SMOOTH_CURVE_TO (rx rel pen a2) (ry rel pen b2) px py,
            moved pen px py)
  | WArgs KQuad rel [a1; b1; ax; ay] =>
      let px := rx rel pen ax in
      let py := ry rel pen ay in
      Some (QUAD_TO (rx rel pen a1) (ry rel pen b1) px py, moved pen px py)
  | WArgs KSmoothQuad rel [ax; ay] =>
      let px := rx rel pen ax in
      let py := ry rel pen ay in
      Some (SMOOTH_QUAD_TO px py, moved pen px py)
  | WArgs KArc rel [r1; r2; rot; large; sweep; ax; ay] =>
      let px := rx rel pen ax in
      let py := ry rel pen ay in
      Some (ARC r1 r2 rot (isNonZero large) (isNonZero sweep) px py,
            moved pen px py)
  | WArgs _ _ _ => None
  end.

Fixpoint toAbs (ws : list Written) (pen : Pen) : Result (list SVGCommand) :=
  match ws with
  | [] => Ok []
  | w :: rest =>
      match absolute pen w with
      | None => Err "SyntaxError: wrong number of arguments"
      | Some (cmd, pen') =>
          match toAbs rest pen' with
          | Ok cmds => Ok (cmd :: cmds)
          | Err e => Err e
          end
      end
  end.

Definition penStart : Pen :=
  {| penX := 0; penY := 0; startX := 0; startY := 0 |}.

(** The commands of a path, absolute. *)
Definition read (d : string) : Result (list SVGCommand) :=
  match group (tokens d noPending []) noGroup [] with
  | Ok ws => toAbs ws penStart
  | Err e => Err e
  end.

(** *** The path of a polyline, token by token *)

(** The tokens of the path of a polyline after its first pair. *)
Fixpoint segmentTokens (ts : list string) : list Token :=
  match ts with
  | a :: b :: rest =>
      TLetter "L" :: TNumber a :: TNumber b :: segmentTokens rest
  | _ => []
  end.

(** The written commands of the values taken in pairs. *)
Fixpoint writtenLines (vs : list Q) : list Written :=
  match vs with
  | vx :: vy :: rest => WArgs KLine false [vx; vy] :: writtenLines rest
  | _ => []
  end.

Definition lineGroup : Group :=
  {| current := Some (KLine, false); args := []; expecting := false |}.

End PathGrammar.

(** ** What the interpreter asks of the kernel *)

(** A curve primitive as the interpreter describes it to the kernel. *)
Inductive CurvePrimitive : Type :=
| Line (start finish : XYZ)
| Bezier (points : list XYZ).

(** The kernel that builds every primitive and returns its description. *)
#[export] Instance recorder
  : IShapeFactory CurvePrimitive (list CurvePrimitive) := {
  line := fun a b => Ok (Line a b);
  bezier := fun ps => Ok (Bezier ps);
  wire := fun es => Ok es
}.

Section Attempts.
Context {IEdge IWire : Type} `{F : IShapeFactory IEdge IWire} `{P : Platform}.

(** The call of the kernel that builds a primitive. *)
Definition construct (p : CurvePrimitive) : Result IEdge :=
  match p with
  | Line a b => line a b
  | Bezier ps => bezier ps
  end.

(** The edges of the primitives the kernel could build, in order. *)
Definition successes (ps : list CurvePrimitive) : list IEdge :=
  flat_map (fun p => match construct p with
                     | Ok value => [value]
                     | Err _ => []
                     end) ps.

(** The primitives one command asks for, from a state. *)
Definition stepAttempts (st : PathState) (cmd : SVGCommand)
  : list CurvePrimitive :=
  edges (step (F := recorder) {| state := st; edges := []; logs := [] |} cmd).

(** The primitives a sequence of commands asks for. *)
Definition attempted (commands : list SVGCommand) : list CurvePrimitive :=
  edges (runCommands (F := recorder) [] commands).

(** The primitives a sequence of commands asks for, from a state. *)
Fixpoint attemptsFrom (st : PathState) (commands : list SVGCommand)
  : list CurvePrimitive :=
  match commands with
  | [] => []
  | cmd :: rest =>
      stepAttempts st cmd
        ++ attemptsFrom
             (state (step (F := recorder)
                       {| state := st; edges := []; logs := [] |} cmd))
             rest
  end.

End Attempts.

(** ** Points *)

Module Vec.
Definition add (p q : XYZ) : XYZ :=
  XYZ.new (XYZ.x p + XYZ.x q) (XYZ.y p + XYZ.y q) (XYZ.z p + XYZ.z q).
Definition sub (p q : XYZ) : XYZ :=
  XYZ.new (XYZ.x p - XYZ.x q) (XYZ.y p - XYZ.y q) (XYZ.z p - XYZ.z q).
Definition scale (a : Q) (p : XYZ) : XYZ :=
  XYZ.new (a * XYZ.x p) (a * XYZ.y p) (a * XYZ.z p).

(** The value at [t] of the quadratic Bezier curve of three points. *)
Definition quadraticAt (p0 p1 p2 : XYZ) (t : Q) : XYZ :=
  add (scale ((1 - t) ^ 2) p0)
      (add (scale (2 * (1 - t) * t) p1) (scale (t ^ 2) p2)).

(** The value at [t] of the cubic Bezier curve of four points. *)
Definition cubicAt (p0 p1 p2 p3 : XYZ) (t : Q) : XYZ :=
  add (scale ((1 - t) ^ 3) p0)
      (add (scale (3 * (1 - t) ^ 2 * t) p1)
           (add (scale (3 * (1 - t) * t ^ 2) p2) (scale (t ^ 3) p3))).


End Vec.

(** The mapping of a coordinate pair of the path to the working plane. *)
Definition mapPoint (px py : Q) : XYZ := XYZ.new px (- py) 0.

(** ** The primitives of a path, command by command

    A description of the interpreter without its loop, its edge list and
    its kernel, after the table of the specification (section 4.3): for
    each command the state it leaves and the primitive it draws, written
    with the operations on points.  As in the code the third coordinate of
    every new point is [0], an arc is drawn as a line, and [CLOSE_PATH]
    compares the distance computed in doubles.  The interpreter is
    compared with this description. *)
Module Drawing.

(** The control point of a smooth command: twice the current point less
    the last control point, or the current point when there is none. *)
Definition reflection (st : PathState) : XYZ :=
  match lastControlPoint st with
  | Some lcp => Vec.sub (Vec.scale 2 (currentPoint st)) lcp
  | None => currentPoint st
  end.

(** The point a command leads to, when it leads to one. *)
Definition target (st : PathState) (cmd : SVGCommand) : option XYZ :=
  match cmd with
  | MOVE_TO x y | LINE_TO x y | SMOOTH_QUAD_TO x y
  | CURVE_TO _ _ _ _ x y | SMOOTH_CURVE_TO _ _ x y | QUAD_TO _ _ x y
  | ARC _ _ _ _ _ x y => Some (mapPoint x y)
  | HORIZ_LINE_TO x => Some (XYZ.new x (XYZ.y (currentPoint st)) 0)
  | VERT_LINE_TO y => Some (XYZ.new (XYZ.x (currentPoint st)) (- y) 0)
  | CLOSE_PATH => Some (pathStartPoint st)
  | UNSUPPORTED _ => None
  end.

(** The control point a command leaves for a smooth command after it. *)
Definition control (st : PathState) (cmd : SVGCommand) : option XYZ :=
  match cmd with
  | CURVE_TO _ _ x2 y2 _ _ | SMOOTH_CURVE_TO x2 y2 _ _ =>
      Some (mapPoint x2 y2)
  | QUAD_TO x1 y1 _ _ => Some (mapPoint x1 y1)
  | SMOOTH_QUAD_TO _ _ => Some (reflection st)
  | UNSUPPORTED _ => lastControlPoint st
  | _ => None
  end.

(** The state after a command. *)
Definition next (st : PathState) (cmd : SVGCommand) : PathState :=
  {| currentPoint := match target st cmd with
                     | Some p => p
                     | None => currentPoint st
                     end;
     pathStartPoint := match cmd with
                       | MOVE_TO x y => mapPoint x y
                       | _ => pathStartPoint st
                       end;
     lastControlPoint := control st cmd |}.

(** What a command draws: nothing, a line or a cubic curve. *)
Definition drawn (st : PathState) (cmd : SVGCommand)
  : list CurvePrimitive :=
  let cur := currentPoint st in
  match cmd with
  | MOVE_TO _ _ | UNSUPPORTED _ => []
  | LINE_TO x y | ARC _ _ _ _ _ x y => [Line cur (mapPoint x y)]
  | HORIZ_LINE_TO x => [Line cur (XYZ.new x (XYZ.y cur) 0)]
  | VERT_LINE_TO y => [Line cur (XYZ.new (XYZ.x cur) (- y) 0)]
  | CURVE_TO x1 y1 x2 y2 x y =>
      [Bezier [cur; mapPoint x1 y1; mapPoint x2 y2; mapPoint x y]]
  | SMOOTH_CURVE_TO x2 y2 x y =>
      [Bezier [cur; reflection st; mapPoint x2 y2; mapPoint x y]]
  | QUAD_TO x1 y1 x y =>
      [Bezier (quadraticToCubic cur (mapPoint x1 y1) (mapPoint x y))]
  | SMOOTH_QUAD_TO x y =>
      [Bezier (quadraticToCubic cur (reflection st) (mapPoint x y))]
  | CLOSE_PATH =>
      if Double.gtb (distance cur (pathStartPoint st)) (Double.ofQ (1 / 1000))
      then [Line cur (pathStartPoint st)]
      else []
  end.

(** What a command writes in the log: a note for an arc, which is drawn as
    a line, and for a command with an unknown tag. *)
Definition note (cmd : SVGCommand) : list string :=
  match cmd with
  | ARC _ _ _ _ _ _ _ =>
      ["Elliptical arc (A) command not fully supported yet, "
         +++ "using line approximation"]
  | UNSUPPORTED type => ["Unsupported SVG path command: " +++ natToString type]
  | _ => []
  end.

(** The notes of the commands, in order. *)
Definition notes (commands : list SVGCommand) : list string :=
  flat_map note commands.

(** The primitives of the commands, from a state. *)
Fixpoint primitivesFrom (st : PathState) (commands : list SVGCommand)
  : list CurvePrimitive :=
  match commands with
  | [] => []
  | cmd :: rest => drawn st cmd ++ primitivesFrom (next st cmd) rest
  end.

(** The primitives of a path: those of its commands from the origin. *)
Definition primitives (commands : list SVGCommand) : list CurvePrimitive :=
  primitivesFrom
    {| currentPoint := XYZ.new 0 0 0; pathStartPoint := XYZ.new 0 0 0;
       lastControlPoint := None |}
    commands.

End Drawing.

(** ** Distances and planar states *)


(** The points of a state lie in the plane [z = 0]. *)
Definition planarState (st : PathState) : Prop :=
  XYZ.planar (currentPoint st)
  /\ XYZ.planar (pathStartPoint st)
  /\ match lastControlPoint st with
     | Some lcp => XYZ.planar lcp
     | None => True
     end.

(** ** The document loop, element by element *)

Section OutcomeOfElement.
Context {IEdge IWire : Type} `{F : IShapeFactory IEdge IWire} `{P : Platform}.

(** What becomes of one element. *)
Inductive Outcome : Type :=
| Imported (node : EditableShapeNode (IWire := IWire))
| SkippedEmpty
| ConversionFailed (error : string)
| SkippedNoEdges
| WireFailed (error : string).

(** What becomes of the element numbered [index], from the element and its
    number alone. *)
Definition outcomeOf (index : nat) (item : Element * string) : Outcome :=
  let (element, type) := item in
  let pathData := pathDataOf element type in
  if isBlank pathData then SkippedEmpty
  else
    match svgPathAbs (orElse pathData EmptyString) with
    | Err error => ConversionFailed ("Path conversion error: " +++ error)
    | Ok commands =>
        match successes (attempted commands) with
        | [] => SkippedNoEdges
        | es =>
            match wire es with
            | Err error => WireFailed error
            | Ok value =>
                Imported {| nodeName := elementNameOf element index;
                            shape := value |}
            end
        end
    end.

(** The outcomes of the elements numbered from [k + 1] on. *)
Fixpoint outcomesFrom (k : nat) (items : list (Element * string))
  : list Outcome :=
  match items with
  | [] => []
  | item :: rest => outcomeOf (S k) item :: outcomesFrom (S k) rest
  end.

Definition outcomes (items : list (Element * string)) : list Outcome :=
  outcomesFrom 0 items.

Definition nodeOf (o : Outcome)
  : list (EditableShapeNode (IWire := IWire)) :=
  match o with
  | Imported node => [node]
  | _ => []
  end.

(** The nodes of the imported elements, in order. *)
Definition nodesOf (os : list Outcome)
  : list (EditableShapeNode (IWire := IWire)) :=
  flat_map nodeOf os.

Definition isFailure (o : Outcome) : bool :=
  match o with
  | ConversionFailed _ | WireFailed _ => true
  | _ => false
  end.

(** The number of failed elements. *)
Definition failuresOf (os : list Outcome) : nat :=
  List.length (filter isFailure os).

(** The last line the log receives for an element. *)
Definition outcomeLine (label : string) (o : Outcome) : string :=
  match o with
  | Imported node =>
      label +++ ": successfully created as " +++ dquote +++ nodeName node
        +++ dquote
  | SkippedEmpty => label +++ ": empty path data, skipping"
  | ConversionFailed error => label +++ " conversion failed: " +++ error
  | SkippedNoEdges => label +++ ": no edges generated, skipping"
  | WireFailed error => label +++ " wire creation failed: " +++ error
  end.

(** A line of the log as it reads: the time at which it is written, as the
    [n]-th line, between brackets, a space and the message. *)
Definition logLine (n : nat) (message : string) : string :=
  "[" +++ clock n +++ "] " +++ message.

(** The lines of the log that the messages give when they are written one
    after the other from the [n]-th line on. *)
Fixpoint logLines (n : nat) (messages : list string) : list string :=
  match messages with
  | [] => []
  | message :: rest => logLine n message :: logLines (S n) rest
  end.

(** The messages that the interpretation of a path writes. *)
Definition pathMessages (pathData : string) : list string :=
  match svgPathAbs pathData with
  | Err error => ["Path conversion exception: " +++ error]
  | Ok commands =>
      ("Parsed " +++ natToString (List.length commands) +++ " path commands")
        :: Drawing.notes commands
        ++ ["Total edges generated: "
              +++ natToString
                    (List.length (successes (Drawing.primitives commands)))]
  end.

(** The messages that the element numbered [index] writes: that it is
    processed, what the interpretation of its path writes when it has one,
    the number of its edges when it has some, and what becomes of it. *)
Definition elementMessages (index : nat) (item : Element * string)
  : list string :=
  let (element, type) := item in
  let label := type +++ " " +++ natToString index in
  let pathData := pathDataOf element type in
  ("Processing " +++ label +++ ": " +++ dquote
     +++ elementNameOf element index +++ dquote)
    :: (if isBlank pathData then []
        else
          pathMessages (orElse pathData EmptyString)
            ++ match svgPathAbs (orElse pathData EmptyString) with
               | Err _ => []
               | Ok commands =>
                   [label +++ ": generated "
                      +++ natToString
                            (List.length
                               (successes (Drawing.primitives commands)))
                      +++ " edges"]
               end)
    ++ [outcomeLine label (outcomeOf index item)].

(** The messages of the elements numbered from [k + 1] on. *)
Fixpoint loopMessages (k : nat) (items : list (Element * string))
  : list string :=
  match items with
  | [] => []
  | item :: rest => elementMessages (S k) item ++ loopMessages (S k) rest
  end.

(** The messages of a conversion, from its start to its end. *)
Definition documentMessages (svgContent : string) : list string :=
  let svgDoc := parseFromString svgContent in
  let items := allElements svgDoc in
  "SVG import started"
    :: "SVG content parsed by DOMParser"
    :: match querySelector svgDoc "parsererror" with
       | Some parserError =>
           ["Parser error detected: " +++ textContent parserError]
       | None =>
           foundMessage svgDoc
             :: match items with
                | [] => []
                | _ :: _ =>
                    loopMessages 0 items
                      ++ ["Import completed: "
                            +++ natToString
                                  (List.length (nodesOf (outcomes items)))
                            +++ " success, "
                            +++ natToString (failuresOf (outcomes items))
                            +++ " failed"]
                end
       end.

End OutcomeOfElement.

(** ** The supported elements *)

(** The seven element types, in the order of the loop. *)
Definition supportedTypes : list string :=
  ["path"; "rect"; "circle"; "ellipse"; "line"; "polyline"; "polygon"].

Definition isSupported (e : Element) : bool :=
  existsb (String.eqb (tagName e)) supportedTypes.

(** ** The path through the tokens of a polyline *)

(** The segments [" L x,y"] of the tokens taken in pairs. *)
Fixpoint lineSegments (tokens : list string) : string :=
  match tokens with
  | px :: py :: rest => " L " +++ px +++ "," +++ py +++ lineSegments rest
  | _ => EmptyString
  end.

(** The path that moves to the first pair of tokens and draws a line to
    each following pair. *)
Definition moveLinePath (tokens : list string) : string :=
  match tokens with
  | p0 :: p1 :: rest => "M " +++ p0 +++ "," +++ p1 +++ lineSegments rest
  | _ => EmptyString
  end.

(** The commands [LINE_TO] of the values taken in pairs. *)
Fixpoint lineCommands (values : list Q) : list SVGCommand :=
  match values with
  | vx :: vy :: rest => LINE_TO vx vy :: lineCommands rest
  | _ => []
  end.

(** The commands of [moveLinePath] when the tokens hold these values. *)
Definition moveLineCommands (values : list Q) : list SVGCommand :=
  match values with
  | vx :: vy :: rest => MOVE_TO vx vy :: lineCommands rest
  | _ => []
  end.

(** The points of the values taken in pairs. *)
Fixpoint pointsOf (values : list Q) : list XYZ :=
  match values with
  | vx :: vy :: rest => mapPoint vx vy :: pointsOf rest
  | _ => []
  end.

(** The lines from a point through the following ones. *)
Fixpoint linesFrom (p : XYZ) (points : list XYZ) : list CurvePrimitive :=
  match points with
  | [] => []
  | q :: rest => Line p q :: linesFrom q rest
  end.

(** The lines through the points, from each to the next. *)
Definition linesThrough (points : list XYZ) : list CurvePrimitive :=
  match points with
  | [] => []
  | p :: rest => linesFrom p rest
  end.

(** ** A host for the examples *)

Module Demo.

(** The digits of the fraction [r / d], at most [n] of them, until it is
    exhausted. *)
Fixpoint fractionDigits (n : nat) (r d : Z) : string :=
  match n with
  | O => EmptyString
  | S n' =>
      if (r =? 0)%Z then EmptyString
      else NilEmpty.string_of_uint (N.to_uint (Z.to_N (r * 10 / d)))
             +++ fractionDigits n' ((r * 10) mod d) d
  end.

(** A rational in decimal notation: integers in full, fractions with at most
    seventeen digits. *)
Definition printQ (q : Q) : string :=
  let n := Qnum q in
  let d := Zpos (Qden q) in
  let whole := Z.quot n d in
  let r := Z.abs (Z.rem n d) in
  (if ((n <? 0) && (whole =? 0))%Z%bool then "-" else EmptyString)
    +++ NilEmpty.string_of_int (Z.to_int whole)
    +++ (if (r =? 0)%Z then EmptyString else "." +++ fractionDigits 17 r d).

Definition printNumber (a : jsnum) : string :=
  match a with
  | Num q => printQ q
  | NaN => "NaN"
  end.

(** The number a text holds in full, surrounding white space aside. *)
Definition readNumber (s : string) : jsnum :=
  match PathGrammar.numberValue (textOf (trim (characters s))) with
  | Some q => Num q
  | None => NaN
  end.

(** The host whose documents all parse to [svgDoc] and whose clock stands
    still. *)
Definition platform (svgDoc : list Element) : Platform := {|
  parseFromString := fun _ => svgDoc;
  svgPathAbs := PathGrammar.read;
  parseFloat := readNumber;
  numberToString := printNumber;
  clock := fun _ => "00:00:00"
|}.

(** An element with its attributes and no text. *)
Definition element (tag : string) (attrs : list (string * string))
  : Element :=
  {| tagName := tag; attributes := attrs; textContent := EmptyString |}.

(** A kernel that builds nothing. *)
Definition failing : IShapeFactory CurvePrimitive (list CurvePrimitive) := {|
  line := fun _ _ => Err "line failed";
  bezier := fun _ => Err "bezier failed";
  wire := fun _ => Err "wire failed"
|}.

(** A kernel that builds the lines and refuses the curves. *)
Definition linesOnly : IShapeFactory CurvePrimitive (list CurvePrimitive) := {|
  line := fun a b => Ok (Line a b);
  bezier := fun _ => Err "bezier failed";
  wire := fun es => Ok es
|}.

(** The host whose path grammar reads every path as the given commands. *)
Definition reading (commands : list SVGCommand) : Platform := {|
  parseFromString := fun _ => [];
  svgPathAbs := fun _ => Ok commands;
  parseFloat := readNumber;
  numberToString := printNumber;
  clock := fun _ => "00:00:00"
|}.

End Demo.

(** ** The first version of the converter

    The file holds a second [SVGConverter], the version before the basic
    shapes and the debug log: it converts [path] elements only, names a
    node by its [id] or its position, and writes its warnings to the
    console.  [console] is the list of the lines written by
    [console.warn], its arguments joined by a space. *)
Module Legacy.

Section LegacyConverter.
Context {IEdge IWire : Type} `{F : IShapeFactory IEdge IWire} `{P : Platform}.

(** The local variables of the loop of [convertPathToEdges], with the
    console. *)
Record Loop : Type := {
  state : PathState;
  edges : list IEdge;
  console : list string
}.

(** One turn of [for (const cmd of commands) switch (cmd.type)]. *)
Definition step (l : Loop) (cmd : SVGCommand) : Loop :=
  let st := state l in
  let cur := currentPoint st in
  match cmd with
  | MOVE_TO cx cy =>
      let p := XYZ.new cx (- cy) 0 in
      {| state := {| currentPoint := p; pathStartPoint := p;
                     lastControlPoint := None |};
         edges := edges l; console := console l |}
  | LINE_TO cx cy =>
      let lineEnd := XYZ.new cx (- cy) 0 in
      {| state := {| currentPoint := lineEnd;
                     pathStartPoint := pathStartPoint st;
                     lastControlPoint := None |};
         edges := pushIfOk (line cur lineEnd) (edges l);
         console := console l |}
  | HORIZ_LINE_TO cx =>
      let hLineEnd := XYZ.new cx (XYZ.y cur) 0 in
      {| state := {| currentPoint := hLineEnd;
                     pathStartPoint := pathStartPoint st;
                     lastControlPoint := None |};
         edges := pushIfOk (line cur hLineEnd) (edges l);
         console := console l |}
  | VERT_LINE_TO cy =>
      let vLineEnd := XYZ.new (XYZ.x cur) (- cy) 0 in
      {| state := {| currentPoint := vLineEnd;
                     pathStartPoint := pathStartPoint st;
                     lastControlPoint := None |};
         edges := pushIfOk (line cur vLineEnd) (edges l);
         console := console l |}
  | CURVE_TO x1 y1 x2 y2 cx cy =>
      let cp1 := XYZ.new x1 (- y1) 0 in
      let cp2 := XYZ.new x2 (- y2) 0 in
      let curveEnd := XYZ.new cx (- cy) 0 in
      {| state := {| currentPoint := curveEnd;
                     pathStartPoint := pathStartPoint st;
                     lastControlPoint := Some cp2 |};
         edges := pushIfOk (bezier [cur; cp1; cp2; curveEnd]) (edges l);
         console := console l |}
  | SMOOTH_CURVE_TO x2 y2 cx cy =>
      let scp1 := reflectedControlPoint st in
      let scp2 := XYZ.new x2 (- y2) 0 in
      let sCurveEnd := XYZ.new cx (- cy) 0 in
      {| state := {| currentPoint := sCurveEnd;
                     pathStartPoint := pathStartPoint st;
                     lastControlPoint := Some scp2 |};
         edges := pushIfOk (bezier [cur; scp1; scp2; sCurveEnd]) (edges l);
         console := console l |}
  | QUAD_TO x1 y1 cx cy =>
      let qcp := XYZ.new x1 (- y1) 0 in
      let qEnd := XYZ.new cx (- cy) 0 in
      {| state := {| currentPoint := qEnd;
                     pathStartPoint := pathStartPoint st;
                     lastControlPoint := Some qcp |};
         edges := pushIfOk (bezier (quadraticToCubic cur qcp qEnd)) (edges l);
         console := console l |}
  | SMOOTH_QUAD_TO cx cy =>
      let sqcp := reflectedControlPoint st in
      let sqEnd := XYZ.new cx (- cy) 0 in
      {| state := {| currentPoint := sqEnd;
                     pathStartPoint := pathStartPoint st;
                     lastControlPoint := Some sqcp |};
         edges := pushIfOk (bezier (quadraticToCubic cur sqcp sqEnd))
                           (edges l);
         console := console l |}
  | ARC _ _ _ _ _ cx cy =>
      let arcEnd := XYZ.new cx (- cy) 0 in
      {| state := {| currentPoint := arcEnd;
                     pathStartPoint := pathStartPoint st;
                     lastControlPoint := None |};
         edges := pushIfOk (line cur arcEnd) (edges l);
         console :=
           console l
             ++ ["Elliptical arc (A) command not fully supported yet, "
                   +++ "using line approximation"] |}
  | CLOSE_PATH =>
      let distToStart := distance cur (pathStartPoint st) in
      {| state := {| currentPoint := pathStartPoint st;
                     pathStartPoint := pathStartPoint st;
                     lastControlPoint := None |};
         edges := if Double.gtb distToStart (Double.ofQ (1 / 1000))
                  then pushIfOk (line cur (pathStartPoint st)) (edges l)
                  else edges l;
         console := console l |}
  | UNSUPPORTED type =>
      {| state := st; edges := edges l;
         console :=
           console l
             ++ ["Unsupported SVG path command: " +++ natToString type] |}
  end.

(** [convertPathToEdges]: the result and the console it leaves. *)
Definition convertPathToEdges (console0 : list string) (pathData : string)
  : Result (list IEdge) * list string :=
  match svgPathAbs pathData with
  | Err error => (Err ("Path conversion error: " +++ error), console0)
  | Ok commands =>
      let l :=
        fold_left step commands
          {| state := initialState; edges := []; console := console0 |} in
      (Ok (edges l), console l)
  end.

(** What the callback of [pathElements.forEach] reads and writes: the
    folder, the console and the index of the element. *)
Record Import : Type := {
  folder : GroupNode (IWire := IWire);
  index : nat;
  warnings : list string
}.

(** The callback of [pathElements.forEach]. *)
Definition processPath (acc : Import) (pathElement : Element) : Import :=
  let i := index acc in
  let skip (w : list string) :=
    {| folder := folder acc; index := S i; warnings := w |} in
  let d := getAttribute pathElement "d" in
  if isBlank d then skip (warnings acc)
  else
    match convertPathToEdges (warnings acc) (orElse d EmptyString) with
    | (Err error, w) =>
        skip (w ++ ["Path " +++ natToString i +++ " conversion failed: "
                      +++ error])
    | (Ok es, w) =>
        match es with
        | [] => skip w
        | _ :: _ =>
            match wire es with
            | Err error =>
                skip (w ++ ["Wire creation failed for path "
                              +++ natToString i +++ ": " +++ error])
            | Ok value =>
                let pathName :=
                  orElse (getAttribute pathElement "id")
                    ("Path " +++ natToString (i + 1)) in
                {| folder :=
                     add (folder acc)
                       {| nodeName := pathName; shape := value |};
                   index := S i; warnings := w |}
            end
        end
    end.

(** [convertFromSVG]: the result and the console it leaves. *)
Definition convertFromSVG (svgContent : string)
  : Result (GroupNode (IWire := IWire)) * list string :=
  let svgDoc := parseFromString svgContent in
  match querySelector svgDoc "parsererror" with
  | Some _ => (Err "Invalid SVG file", [])
  | None =>
      let pathElements := querySelectorAll svgDoc "path" in
      if Nat.eqb (List.length pathElements) 0
      then (Err "No path elements found in SVG", [])
      else
        let done :=
          fold_left processPath pathElements
            {| folder := {| groupName := "SVG Import"; children := [] |};
               index := 0; warnings := [] |} in
        if Nat.eqb (List.length (children (folder done))) 0
        then (Err "No valid paths could be imported", warnings done)
        else (Ok (folder done), warnings done)
  end.

End LegacyConverter.

End Legacy.

(** ** Shapes of primitives and of commands *)

(** The first point of a primitive. *)
Definition primitiveStart (p : CurvePrimitive) : option XYZ :=
  match p with
  | Line a _ => Some a
  | Bezier ps => hd_error ps
  end.

(** The last point of a primitive. *)
Definition primitiveFinish (p : CurvePrimitive) : option XYZ :=
  match p with
  | Line _ b => Some b
  | Bezier ps => hd_error (rev ps)
  end.

(** The primitives follow one another from [from]: each starts where the
    one before it ends. *)
Fixpoint chained (from : XYZ) (ps : list CurvePrimitive) : Prop :=
  match ps with
  | [] => True
  | p :: rest =>
      primitiveStart p = Some from
      /\ exists finish,
           primitiveFinish p = Some finish /\ chained finish rest
  end.

(** Where a chain from [from] ends. *)
Fixpoint chainEnd (from : XYZ) (ps : list CurvePrimitive) : XYZ :=
  match ps with
  | [] => from
  | p :: rest =>
      chainEnd match primitiveFinish p with
               | Some finish => finish
               | None => from
               end rest
  end.

Definition isMove (cmd : SVGCommand) : bool :=
  match cmd with
  | MOVE_TO _ _ => true
  | _ => false
  end.

Definition isClose (cmd : SVGCommand) : bool :=
  match cmd with
  | CLOSE_PATH => true
  | _ => false
  end.

(** The commands that ask for a primitive: all but the moves and the
    commands with an unknown tag. *)
Definition draws (cmd : SVGCommand) : bool :=
  match cmd with
  | MOVE_TO _ _ | UNSUPPORTED _ => false
  | _ => true
  end.

(** A line between points of the plane, or a curve of four points of the
    plane. *)
Definition planarPrimitive (p : CurvePrimitive) : Prop :=
  match p with
  | Line a b => XYZ.planar a /\ XYZ.planar b
  | Bezier ps => List.length ps = 4%nat /\ Forall XYZ.planar ps
  end.

(** ** Texts without delimiters *)

(** A coordinate token, by its characters: at least one, and neither
    white space nor a comma among them. *)
Definition isToken (t : list string) : bool :=
  (negb (isEmptyText t) && forallb (fun c => negb (isDelimiter c)) t)%bool.

(** A separator, by its characters: at least one, white space and commas
    only. *)
Definition isSeparator (s : list string) : bool :=
  (negb (isEmptyText s) && forallb isDelimiter s)%bool.

(** The characters of the tokens [t0 t1 ...] separated by [sep1 sep2 ...],
    where [rest] holds the pairs [(sep1, t1), (sep2, t2), ...]. *)
Fixpoint joinTokens (t0 : list string)
  (rest : list (list string * list string)) : list string :=
  match rest with
  | [] => t0
  | (sep, t) :: rest' => t0 ++ sep ++ joinTokens t rest'
  end.

(** A command that neither moves nor closes. *)
Definition drawsWithoutMoveOrClose (cmd : SVGCommand) : bool :=
  negb (isMove cmd || isClose cmd).

(** The pairs of a separator and a token. *)
Definition separated (rest : list (list string * list string)) : Prop :=
  Forall (fun st => isSeparator (fst st) = true /\ isToken (snd st) = true)
    rest.

(** The characters of the text are not empty. *)
Definition solid (text : list string) : Prop :=
  Forall (fun c => isEmptyString c = false) text.

(** The pieces of a split that are not empty. *)
Definition keepTokens (pieces : list string) : list string :=
  filter (fun p => Nat.ltb 0 (String.length p)) pieces.

(** The element has an [id] that is not empty. *)
Definition hasId (element : Element) : bool :=
  negb (isEmptyString (orElse (getAttribute element "id") EmptyString)).

Section LegacyNodes.
Context {IEdge IWire : Type} `{F : IShapeFactory IEdge IWire} `{P : Platform}.

(** The node that the first version gives the path numbered [k] from
    zero: the wire of the outcome of the path, under the name of the first
    version. *)
Definition legacyNode (k : nat) (pathElement : Element)
  : list (EditableShapeNode (IWire := IWire)) :=
  match outcomeOf (S k) (pathElement, "path") with
  | Imported node =>
      [{| nodeName :=
            orElse (getAttribute pathElement "id")
              ("Path " +++ natToString (k + 1));
          shape := shape node |}]
  | _ => []
  end.

(** The nodes of the paths numbered from [k] on. *)
Fixpoint legacyNodesFrom (k : nat) (pathElements : list Element)
  : list (EditableShapeNode (IWire := IWire)) :=
  match pathElements with
  | [] => []
  | e :: rest => legacyNode k e ++ legacyNodesFrom (S k) rest
  end.

End LegacyNodes.

(** ** Shifted paths *)

(** A command with its coordinates shifted by [(dx, dy)]. *)
Definition shiftCommand (dx dy : Q) (cmd : SVGCommand) : SVGCommand :=
  match cmd with
  | MOVE_TO x y => MOVE_TO (x + dx) (y + dy)
  | LINE_TO x y => LINE_TO (x + dx) (y + dy)
  | HORIZ_LINE_TO x => HORIZ_LINE_TO (x + dx)
  | VERT_LINE_TO y => VERT_LINE_TO (y + dy)
  | CURVE_TO x1 y1 x2 y2 x y =>
      CURVE_TO (x1 + dx) (y1 + dy) (x2 + dx) (y2 + dy) (x + dx) (y + dy)
  | SMOOTH_CURVE_TO x2 y2 x y =>
      SMOOTH_CURVE_TO (x2 + dx) (y2 + dy) (x + dx) (y + dy)
  | QUAD_TO x1 y1 x y => QUAD_TO (x1 + dx) (y1 + dy) (x + dx) (y + dy)
  | SMOOTH_QUAD_TO x y => SMOOTH_QUAD_TO (x + dx) (y + dy)
  | ARC rX rY xRot lArcFlag sweepFlag x y =>
      ARC rX rY xRot lArcFlag sweepFlag (x + dx) (y + dy)
  | CLOSE_PATH => CLOSE_PATH
  | UNSUPPORTED type => UNSUPPORTED type
  end.

(** A primitive moved by a vector. *)
Definition movedPrimitive (v : XYZ) (p : CurvePrimitive) : CurvePrimitive :=
  match p with
  | Line a b => Line (Vec.add a v) (Vec.add b v)
  | Bezier ps => Bezier (map (fun a => Vec.add a v) ps)
  end.

(** Two primitives of the same kind through equal points. *)
Definition samePrimitive (p q : CurvePrimitive) : Prop :=
  match p, q with
  | Line a b, Line c d => XYZ.eq a c /\ XYZ.eq b d
  | Bezier ps, Bezier qs => Forall2 XYZ.eq ps qs
  | _, _ => False
  end.

(** The second state is the first one moved by a vector. *)
Definition movedState (v : XYZ) (st st' : PathState) : Prop :=
  XYZ.eq (currentPoint st') (Vec.add (currentPoint st) v)
  /\ XYZ.eq (pathStartPoint st') (Vec.add (pathStartPoint st) v)
  /\ match lastControlPoint st, lastControlPoint st' with
     | Some a, Some b => XYZ.eq b (Vec.add a v)
     | None, None => True
     | _, _ => False
     end.

(** * Properties *)

(** ** Lemmas on the loop of the interpreter *)

Section LoopFacts.
Context {IEdge IWire : Type} `{F : IShapeFactory IEdge IWire} `{P : Platform}.

Lemma pushIfOk_successes (p : CurvePrimitive) (es : list IEdge) :
  pushIfOk (construct p) es = es ++ successes [p].
Proof.
  unfold successes, pushIfOk; simpl.
  destruct (construct p); simpl; now rewrite ?app_nil_r.
Qed.

(** The state after a command depends on the state before it only. *)
Lemma step_state (l : Loop) (cmd : SVGCommand) :
  state (step l cmd)
  = state (step (F := recorder) {| state := state l; edges := []; logs := [] |}
             cmd).
Proof. destruct cmd; reflexivity. Qed.

(** The edges after a command: those before it, and those of the primitives
    the command asks for that the kernel builds. *)
Lemma step_edges (l : Loop) (cmd : SVGCommand) :
  edges (step l cmd) = edges l ++ successes (stepAttempts (state l) cmd).
Proof.
  unfold stepAttempts, successes, pushIfOk.
  destruct cmd; cbn -[quadraticToCubic distance Double.gtb Double.ofQ];
    repeat match goal with
           | |- context [if ?b then _ else _] => destruct b
           | |- context [match ?r with Ok _ => _ | Err _ => _ end] =>
               destruct r
           end;
    cbn -[quadraticToCubic]; rewrite ?app_nil_r; try reflexivity.
  unfold pushIfOk. destruct (line _ _); cbn; now rewrite ?app_nil_r.
Qed.

Lemma successes_app (ps qs : list CurvePrimitive) :
  successes (ps ++ qs) = successes ps ++ successes qs.
Proof. unfold successes. apply flat_map_app. Qed.

End LoopFacts.

(** Two loops in the same state stay in the same state, whatever their
    kernels, edges and logs. *)
Lemma fold_step_same_state {E1 W1 E2 W2 : Type} (F1 : IShapeFactory E1 W1)
  (F2 : IShapeFactory E2 W2) `{P : Platform} (commands : list SVGCommand) :
  forall (l1 : Loop (IEdge := E1)) (l2 : Loop (IEdge := E2)),
    state l1 = state l2 ->
    state (fold_left (step (F := F1)) commands l1)
    = state (fold_left (step (F := F2)) commands l2).
Proof.
  induction commands as [|cmd rest IH]; intros l1 l2 Hst; simpl.
  - exact Hst.
  - apply IH. rewrite (step_state l1), (step_state l2). now rewrite Hst.
Qed.

Section FoldFacts.
Context {IEdge IWire : Type} `{F : IShapeFactory IEdge IWire} `{P : Platform}.

Lemma fold_step_state (commands : list SVGCommand) (l : Loop) :
  state (fold_left step commands l)
  = state (fold_left (step (F := recorder)) commands
             {| state := state l; edges := []; logs := [] |}).
Proof. now apply fold_step_same_state. Qed.

Lemma fold_step_edges (commands : list SVGCommand) (l : Loop) :
  edges (fold_left step commands l)
  = edges l ++ successes (attemptsFrom (state l) commands).
Proof.
  revert l. induction commands as [|cmd rest IH]; intros l; simpl.
  - now rewrite app_nil_r.
  - rewrite IH, step_edges, successes_app, <- app_assoc.
    now rewrite <- step_state.
Qed.

End FoldFacts.

Lemma successes_recorder (ps : list CurvePrimitive) :
  successes (F := recorder) ps = ps.
Proof.
  induction ps as [|p ps IH]; [reflexivity|].
  unfold successes in *. simpl. rewrite IH. now destruct p.
Qed.

Lemma attempted_from_initial `{P : Platform} (commands : list SVGCommand) :
  attempted commands = attemptsFrom initialState commands.
Proof.
  unfold attempted, runCommands.
  now rewrite fold_step_edges, successes_recorder.
Qed.

(** The edges of a run are the attempted primitives the kernel builds. *)
Lemma runCommands_edges {IEdge IWire : Type} `{F : IShapeFactory IEdge IWire}
  `{P : Platform} (logs0 : list string) (commands : list SVGCommand) :
  edges (runCommands logs0 commands) = successes (attempted commands).
Proof.
  unfold runCommands. now rewrite fold_step_edges, attempted_from_initial.
Qed.

(** The state of a run is the one the recording kernel reaches. *)
Lemma runCommands_state {IEdge IWire : Type} `{F : IShapeFactory IEdge IWire}
  `{P : Platform} (logs0 : list string) (commands : list SVGCommand) :
  state (runCommands logs0 commands)
  = state (runCommands (F := recorder) [] commands).
Proof. unfold runCommands. now rewrite fold_step_state. Qed.

(** *** The interpreter and the outcomes of the kernel *)

(** C10.  The current point, the start of the sub-path and the last control
    point after any prefix of a command sequence are the same whatever the
    kernel answers: two runs on the same commands with two kernels reach
    the same state after every prefix, and the edges of each run are the
    primitives of one and the same list, the one the commands ask for,
    that its kernel built. *)
Theorem interpreter_state_independent_of_kernel :
  forall (E1 W1 E2 W2 : Type) (F1 : IShapeFactory E1 W1)
         (F2 : IShapeFactory E2 W2) (P : Platform)
         (logs1 logs2 : list string) (commands : list SVGCommand),
    (forall n : nat,
        state (runCommands (F := F1) logs1 (firstn n commands))
        = state (runCommands (F := F2) logs2 (firstn n commands)))
    /\ edges (runCommands (F := F1) logs1 commands)
       = successes (F := F1) (attempted commands)
    /\ edges (runCommands (F := F2) logs2 commands)
       = successes (F := F2) (attempted commands).
Proof.
  intros. split; [|split].
  - intros n.
    rewrite (runCommands_state (F := F1)).
    now rewrite (runCommands_state (F := F2)).
  - apply runCommands_edges.
  - apply runCommands_edges.
Qed.

(** *** Distances *)

(** The difference of a double and itself is zero, or is not a number when
    the double is infinite. *)
Lemma sub_self (a : spec_float) :
  Double.sub a a = S754_zero false \/ Double.sub a a = S754_nan.
Proof.
  destruct a as [s|s| |s m e]; cbn.
  - left. now destruct s.
  - right. now destruct s.
  - now right.
  - left. unfold Double.sub, SFsub. now rewrite Z.sub_diag.
Qed.

(** The distance from a point to itself is not greater than [0.001]. *)
Lemma distance_self (p : XYZ) :
  Double.gtb (distance p p) (Double.ofQ (1 / 1000)) = false.
Proof.
  unfold distance.
  destruct (sub_self (Double.ofQ (XYZ.x p))) as [-> | ->],
           (sub_self (Double.ofQ (XYZ.y p))) as [-> | ->],
           (sub_self (Double.ofQ (XYZ.z p))) as [-> | ->]; reflexivity.
Qed.

(** The doubles of [0.3], [0.301] and [0.001], with their mantissas and
    exponents, and the distance from [(0.3, 0, 0)] to [(0.301, 0, 0)]. *)
Example doubles_of_decimals :
  Double.ofQ (3 # 10) = S754_finite false 5404319552844595 (-54)
  /\ Double.ofQ (301 # 1000) = S754_finite false 5422333951354077 (-54)
  /\ Double.ofQ (1 / 1000) = S754_finite false 4611686018427388 (-62)
  /\ distance (XYZ.new (301 # 1000) 0 0) (XYZ.new (3 # 10) 0 0)
     = S754_finite false 4611686018427392 (-62).
Proof. repeat split. Qed.

(** *** Planar states *)

Lemma step_planar {IEdge IWire : Type} `{F : IShapeFactory IEdge IWire}
  `{P : Platform} (l : Loop) (cmd : SVGCommand) :
  planarState (state l) -> planarState (state (step l cmd)).
Proof.
  unfold planarState, XYZ.planar. intros (Hc & Hs & Hl).
  destruct cmd; simpl; repeat split; auto.
  all: unfold reflectedControlPoint; destruct (lastControlPoint (state l));
    simpl; auto.
Qed.



(** On the states of the plane the control point of the smooth commands is
    twice the current point less the last control point. *)
Lemma reflection_of_planar (st : PathState) :
  planarState st -> reflectedControlPoint st = Drawing.reflection st.
Proof.
  intros (Hc & _ & Hl). unfold reflectedControlPoint, Drawing.reflection.
  destruct (lastControlPoint st) as [lcp|]; [|reflexivity].
  unfold Vec.sub, Vec.scale, XYZ.planar in *. simpl.
  rewrite Hc, Hl. reflexivity.
Qed.

(** *** The interpreter and the primitives of a path *)

Section DrawingFacts.
Context {IEdge IWire : Type} `{F : IShapeFactory IEdge IWire} `{P : Platform}.

(** One turn of the loop leaves the state that the command leads to. *)
Lemma step_next (l : Loop) (cmd : SVGCommand) :
  planarState (state l) -> state (step l cmd) = Drawing.next (state l) cmd.
Proof.
  intros Hp. pose proof (reflection_of_planar _ Hp) as Hr.
  destruct l as [[cur start lcp] es lg]. cbn [state] in *.
  destruct cmd; cbn [step state]; unfold Drawing.next;
    cbn [Drawing.target Drawing.control currentPoint pathStartPoint
         lastControlPoint]; rewrite ?Hr; reflexivity.
Qed.

(** One turn of the loop adds the edges of what the command draws. *)
Lemma step_drawn (l : Loop) (cmd : SVGCommand) :
  planarState (state l) ->
  edges (step l cmd) = edges l ++ successes (Drawing.drawn (state l) cmd).
Proof.
  intros Hp. pose proof (reflection_of_planar _ Hp) as Hr.
  unfold successes.
  destruct cmd;
    cbn [step edges Drawing.drawn flat_map construct app];
    rewrite ?Hr, ?app_nil_r; unfold pushIfOk, mapPoint;
    try match goal with
        | |- context [if ?b then _ else _] => destruct b
        end;
    cbn [flat_map construct app]; rewrite ?app_nil_r;
    try match goal with
        | |- context [match ?r with Ok _ => _ | Err _ => _ end] =>
            destruct r
        end;
    rewrite ?app_nil_r; reflexivity.
Qed.

Lemma fold_step_drawn (commands : list SVGCommand) :
  forall l : Loop,
    planarState (state l) ->
    edges (fold_left step commands l)
    = edges l ++ successes (Drawing.primitivesFrom (state l) commands).
Proof.
  induction commands as [|cmd rest IH]; intros l Hp;
    cbn [fold_left Drawing.primitivesFrom].
  - unfold successes. cbn. now rewrite app_nil_r.
  - rewrite IH by now apply step_planar.
    rewrite step_drawn, successes_app, <- app_assoc by exact Hp.
    now rewrite step_next.
Qed.

(** The edges of a run are those of the primitives of the commands that
    the kernel builds, in order. *)
Lemma runCommands_primitives (logs0 : list string)
  (commands : list SVGCommand) :
  edges (runCommands logs0 commands)
  = successes (Drawing.primitives commands).
Proof.
  unfold runCommands. rewrite fold_step_drawn.
  - reflexivity.
  - unfold planarState, XYZ.planar. cbn. auto.
Qed.

End DrawingFacts.

(** What the commands ask of the kernel is what they draw. *)
Lemma attempted_primitives `{P : Platform} (commands : list SVGCommand) :
  attempted commands = Drawing.primitives commands.
Proof.
  unfold attempted.
  now rewrite (runCommands_primitives (F := recorder)), successes_recorder.
Qed.

Lemma primitivesFrom_app (cs ds : list SVGCommand) :
  forall st,
    Drawing.primitivesFrom st (cs ++ ds)
    = Drawing.primitivesFrom st cs
        ++ Drawing.primitivesFrom (fold_left Drawing.next cs st) ds.
Proof.
  induction cs as [|c cs IH]; intros st; cbn [app Drawing.primitivesFrom
    fold_left]; [reflexivity|].
  now rewrite IH, app_assoc.
Qed.

Lemma next_unsupported (st : PathState) (type : nat) :
  Drawing.next st (UNSUPPORTED type) = st.
Proof. now destruct st. Qed.

(** *** The lines of the log *)

Section LogFacts.
Context {IEdge IWire : Type} `{F : IShapeFactory IEdge IWire} `{P : Platform}.

Lemma logLines_app (messages more : list string) :
  forall n,
    logLines n (messages ++ more)
    = logLines n messages ++ logLines (n + List.length messages) more.
Proof.
  induction messages as [|m ms IH]; intros n; cbn [app logLines List.length].
  - now rewrite Nat.add_0_r.
  - rewrite IH. do 3 f_equal. lia.
Qed.

Lemma logLines_length (messages : list string) :
  forall n, List.length (logLines n messages) = List.length messages.
Proof.
  induction messages as [|m ms IH]; intros n; cbn; [reflexivity|].
  now rewrite IH.
Qed.

(** Writing a message after others. *)
Lemma addLog_logLines (base written : list string) (message : string) :
  addLog (base ++ logLines (List.length base) written) message
  = base ++ logLines (List.length base) (written ++ [message]).
Proof.
  unfold addLog. rewrite logLines_app, length_app, logLines_length.
  now rewrite <- app_assoc.
Qed.

Lemma addLog_first (base : list string) (message : string) :
  addLog base message = base ++ logLines (List.length base) [message].
Proof. reflexivity. Qed.

(** Messages written after others. *)
Lemma logLines_after (base written more : list string) :
  (base ++ logLines (List.length base) written)
    ++ logLines (List.length (base ++ logLines (List.length base) written))
         more
  = base ++ logLines (List.length base) (written ++ more).
Proof.
  rewrite logLines_app, length_app, logLines_length.
  now rewrite <- app_assoc.
Qed.

Lemma step_logs (l : Loop) (cmd : SVGCommand) :
  logs (step l cmd)
  = logs l ++ logLines (List.length (logs l)) (Drawing.note cmd).
Proof.
  destruct cmd; cbn [step logs Drawing.note logLines];
    rewrite ?app_nil_r; reflexivity.
Qed.

Lemma fold_step_logs (commands : list SVGCommand) :
  forall l : Loop,
    logs (fold_left step commands l)
    = logs l ++ logLines (List.length (logs l)) (Drawing.notes commands).
Proof.
  unfold Drawing.notes.
  induction commands as [|cmd rest IH]; intros l;
    cbn [fold_left flat_map logLines].
  - now rewrite app_nil_r.
  - rewrite IH, step_logs. apply logLines_after.
Qed.

(** The log that the interpretation of a path leaves. *)
Lemma convertPathToEdges_logs (logs0 : list string) (pathData : string) :
  snd (convertPathToEdges logs0 pathData)
  = logs0 ++ logLines (List.length logs0) (pathMessages pathData).
Proof.
  unfold convertPathToEdges, pathMessages.
  destruct (svgPathAbs pathData) as [commands|error]; cbn [snd];
    [|reflexivity].
  rewrite runCommands_primitives. unfold runCommands.
  rewrite fold_step_logs. cbn [logs].
  rewrite (addLog_first logs0), logLines_after, addLog_logLines.
  reflexivity.
Qed.

(** The result of the interpretation of a path. *)
Lemma convertPathToEdges_primitives (logs0 : list string)
  (pathData : string) :
  fst (convertPathToEdges logs0 pathData)
  = match svgPathAbs pathData with
    | Ok commands => Ok (successes (Drawing.primitives commands))
    | Err error => Err ("Path conversion error: " +++ error)
    end.
Proof.
  unfold convertPathToEdges. destruct (svgPathAbs pathData); cbn [fst].
  - now rewrite runCommands_primitives.
  - reflexivity.
Qed.

End LogFacts.

(** C3.  The interpretation of a path fails exactly when the grammar fails,
    with its message, and then writes one line in the log.  Otherwise it
    returns the edges of the primitives of the commands that the kernel
    built, in order: a primitive that the kernel fails to build is left out
    and the others stay.  The log receives the number of commands, the
    notes of the commands and the number of edges.  A command with an
    unknown tag draws nothing, leaves the state as it is and writes its
    note; the commands after it are interpreted as if it were not there. *)
Theorem interpretation_fails_only_with_the_grammar :
  forall (IEdge IWire : Type) (F : IShapeFactory IEdge IWire) (P : Platform)
         (logs0 : list string) (pathData : string),
    fst (convertPathToEdges logs0 pathData)
    = match svgPathAbs pathData with
      | Ok commands => Ok (successes (Drawing.primitives commands))
      | Err error => Err ("Path conversion error: " +++ error)
      end
    /\ snd (convertPathToEdges logs0 pathData)
       = logs0
           ++ logLines (List.length logs0)
                match svgPathAbs pathData with
                | Ok commands =>
                    ("Parsed " +++ natToString (List.length commands)
                       +++ " path commands")
                      :: Drawing.notes commands
                      ++ ["Total edges generated: "
                            +++ natToString
                                  (List.length
                                     (successes
                                        (Drawing.primitives commands)))]
                | Err error => ["Path conversion exception: " +++ error]
                end
    /\ (forall (ps qs : list CurvePrimitive) (p : CurvePrimitive),
           successes (ps ++ p :: qs)
           = successes ps
               ++ match construct p with
                  | Ok value => [value]
                  | Err _ => []
                  end ++ successes qs)
    /\ (forall (before after : list SVGCommand) (type : nat),
           Drawing.primitives (before ++ UNSUPPORTED type :: after)
           = Drawing.primitives (before ++ after)
           /\ Drawing.notes (before ++ UNSUPPORTED type :: after)
              = Drawing.notes before
                  ++ ("Unsupported SVG path command: " +++ natToString type)
                  :: Drawing.notes after
           /\ state (runCommands logs0 (before ++ UNSUPPORTED type :: after))
              = state (runCommands logs0 (before ++ after))).
Proof.
  intros. split; [|split; [|split]].
  - apply convertPathToEdges_primitives.
  - rewrite convertPathToEdges_logs. unfold pathMessages.
    now destruct (svgPathAbs pathData).
  - intros. rewrite successes_app. f_equal.
  - intros. split; [|split].
    + unfold Drawing.primitives. rewrite !primitivesFrom_app.
      cbn [Drawing.primitivesFrom Drawing.drawn app].
      now rewrite next_unsupported.
    + unfold Drawing.notes. rewrite flat_map_app. reflexivity.
    + unfold runCommands. rewrite !fold_left_app. simpl.
      now apply fold_step_same_state.
Qed.

(** A path whose third command has a tag that the interpreter does not
    know, with a kernel that refuses the curves: the lines stay, and the
    log has the note of the unknown command. *)
Example unknown_command_and_refused_curve :
  let commands :=
    [MOVE_TO 0 0; LINE_TO 4 0; UNSUPPORTED 99; QUAD_TO 4 4 0 4; CLOSE_PATH] in
  let host := Demo.reading commands in
  convertPathToEdges (F := Demo.linesOnly) (P := host) [] "any"
  = (Ok [Line origin (XYZ.new 4 (- 0) 0);
         Line (XYZ.new 0 (- 4) 0) origin],
     ["[00:00:00] Parsed 5 path commands";
      "[00:00:00] Unsupported SVG path command: 99";
      "[00:00:00] Total edges generated: 2"]).
Proof. vm_compute. reflexivity. Qed.

(** *** Closing a sub-path *)



(** Closing a sub-path of three millimetres draws the line back; closing
    the sub-path of [M 0.3,0 L 0.301,0] draws it too: the two doubles are
    farther apart than [0.001]. *)
Example close_path_examples :
  edges (runCommands (F := recorder) (P := Demo.platform []) []
           [MOVE_TO 0 0; LINE_TO 3 0; CLOSE_PATH])
  = [Line origin (XYZ.new 3 (- 0) 0); Line (XYZ.new 3 (- 0) 0) origin]
  /\ edges (runCommands (F := recorder) (P := Demo.platform []) []
              [MOVE_TO (3 # 10) 0; LINE_TO (301 # 1000) 0; CLOSE_PATH])
     = [Line (XYZ.new (3 # 10) (- 0) 0) (XYZ.new (301 # 1000) (- 0) 0);
        Line (XYZ.new (301 # 1000) (- 0) 0) (XYZ.new (3 # 10) (- 0) 0)].
Proof. split; vm_compute; reflexivity. Qed.

(** *** Reflection of the control point *)


(** *** The last control point *)



(** After [M 0,0 C 1,1 2,0 2,0] a last control point is present and it is
    the current point: the smooth commands then use the current point. *)
Example control_point_at_the_current_point :
  let st :=
    state (runCommands (F := recorder) (P := Demo.platform []) []
             [MOVE_TO 0 0; CURVE_TO 1 1 2 0 2 0]) in
  lastControlPoint st = Some (currentPoint st)
  /\ XYZ.eq (reflectedControlPoint st) (currentPoint st).
Proof. split; [reflexivity|]. repeat split. Qed.

(** *** Elevation of a quadratic curve *)



(** The quadratic curve from [(0, 0, 0)] over [(3, -3, 0)] to [(6, 0, 0)]
    becomes the cubic curve with the control points [(2, -2, 0)] and
    [(4, -2, 0)]. *)
Example elevation_of_an_arch :
  exists cp1 cp2 : XYZ,
    quadraticToCubic origin (XYZ.new 3 (-3) 0) (XYZ.new 6 0 0)
    = [origin; cp1; cp2; XYZ.new 6 0 0]
    /\ XYZ.eq cp1 (XYZ.new 2 (-2) 0)
    /\ XYZ.eq cp2 (XYZ.new 4 (-2) 0).
Proof.
  eexists. eexists. split; [reflexivity|]. split; repeat split.
Qed.

(** In doubles the control points are rounded.  For small coordinates the
    rounding may leave no trace: the arch above has the same control points.
    At coordinates of [10^9] the control points are off by some [10^-8], and
    the cubic curve through them is [2^-25], more than [10^-9], away from
    the quadratic curve at [1/2]. *)
Example elevation_in_doubles :
  let p0 := XYZ.new 1000000000 0 0 in
  let p1 := XYZ.new 1000000001 0 0 in
  let p2 := XYZ.new 1000000003 0 0 in
  Rounded.quadraticToCubic origin (XYZ.new 3 (-3) 0) (XYZ.new 6 0 0)
  = [origin; XYZ.new 2 (-2) 0; XYZ.new 4 (-2) 0; XYZ.new 6 0 0]
  /\ exists cp1 cp2 : XYZ,
       Rounded.quadraticToCubic p0 p1 p2 = [p0; cp1; cp2; p2]
       /\ XYZ.x cp1 = 8388608005592405 # 8388608
       /\ XYZ.x cp2 = 8388608013981013 # 8388608
       /\ XYZ.x (Vec.quadraticAt p0 p1 p2 (1 / 2))
          - XYZ.x (Vec.cubicAt p0 cp1 cp2 p2 (1 / 2)) == 1 # 33554432
       /\ 1 # 1000000000 < 1 # 33554432.
Proof.
  cbv zeta. split; [vm_compute; reflexivity|].
  eexists. eexists. split; [reflexivity|].
  split; [vm_compute; reflexivity|]. split; [vm_compute; reflexivity|].
  split; [vm_compute; reflexivity|]. reflexivity.
Qed.

(** ** The outcomes of the elements *)

Section Outcomes.
Context {IEdge IWire : Type} `{F : IShapeFactory IEdge IWire} `{P : Platform}.

Lemma convertPathToEdges_result (logs0 : list string) (pathData : string) :
  fst (convertPathToEdges logs0 pathData)
  = match svgPathAbs pathData with
    | Ok commands => Ok (successes (attempted commands))
    | Err error => Err ("Path conversion error: " +++ error)
    end.
Proof.
  unfold convertPathToEdges. destruct (svgPathAbs pathData); simpl.
  - now rewrite runCommands_edges.
  - reflexivity.
Qed.

(** One turn of the loop: the folder and the counters follow the outcome of
    the element, and the log receives the messages of the element. *)
Lemma processElement_outcome (acc : Import) (item : Element * string) :
  let index := S (elementIndex acc) in
  let o := outcomeOf index item in
  let acc' := processElement acc item in
  folder acc'
  = match o with
    | Imported node => add (folder acc) node
    | _ => folder acc
    end
  /\ successCount acc'
     = match o with
       | Imported _ => S (successCount acc)
       | _ => successCount acc
       end
  /\ failCount acc'
     = (if isFailure o then S (failCount acc) else failCount acc)
  /\ elementIndex acc' = index
  /\ importLogs acc'
     = importLogs acc
         ++ logLines (List.length (importLogs acc))
              (elementMessages index item).
Proof.
  destruct item as [element type]. cbv zeta.
  unfold processElement, elementMessages, outcomeOf.
  set (label := type +++ " " +++ natToString (S (elementIndex acc))).
  set (processing := "Processing " +++ _).
  rewrite (addLog_first (importLogs acc)).
  destruct (isBlank (pathDataOf element type)).
  { repeat split; try reflexivity.
    cbn [importLogs outcomeLine]. now rewrite addLog_logLines. }
  pose proof (convertPathToEdges_primitives
                (importLogs acc
                   ++ logLines (List.length (importLogs acc)) [processing])
                (orElse (pathDataOf element type) EmptyString)) as Hres.
  pose proof (convertPathToEdges_logs
                (importLogs acc
                   ++ logLines (List.length (importLogs acc)) [processing])
                (orElse (pathDataOf element type) EmptyString)) as Hlog.
  destruct (convertPathToEdges _ _) as [res logs2]. cbn [fst snd] in *.
  subst res. rewrite logLines_after in Hlog. subst logs2.
  destruct (svgPathAbs (orElse (pathDataOf element type) EmptyString))
    as [commands|error].
  - rewrite attempted_primitives.
    destruct (successes (Drawing.primitives commands)) as [|e es] eqn:Hes.
    + repeat split; try reflexivity.
      cbn [importLogs outcomeLine]. rewrite !addLog_logLines.
      now rewrite <- !app_assoc.
    + destruct (wire (e :: es)) as [value|error].
      * repeat split; try reflexivity.
        cbn [importLogs outcomeLine nodeName]. rewrite !addLog_logLines.
        now rewrite <- !app_assoc.
      * repeat split; try reflexivity.
        cbn [importLogs outcomeLine]. rewrite !addLog_logLines.
        now rewrite <- !app_assoc.
  - repeat split; try reflexivity.
    cbn [importLogs outcomeLine]. rewrite !addLog_logLines.
    now rewrite app_nil_r, <- !app_assoc.
Qed.

End Outcomes.

Section DocumentFacts.
Context {IEdge IWire : Type} `{F : IShapeFactory IEdge IWire} `{P : Platform}.

(** The loop from any turn on: each element adds its own outcome and its
    own messages. *)
Lemma fold_processElement (items : list (Element * string)) (acc : Import) :
  let done := fold_left processElement items acc in
  let os := outcomesFrom (elementIndex acc) items in
  folder done
  = {| groupName := groupName (folder acc);
       children := children (folder acc) ++ nodesOf os |}
  /\ successCount done = (successCount acc + List.length (nodesOf os))%nat
  /\ failCount done = (failCount acc + failuresOf os)%nat
  /\ elementIndex done = (elementIndex acc + List.length items)%nat
  /\ importLogs done
     = importLogs acc
         ++ logLines (List.length (importLogs acc))
              (loopMessages (elementIndex acc) items).
Proof.
  revert acc. induction items as [|item rest IH]; intros acc; cbv zeta.
  - simpl. unfold nodesOf, failuresOf. simpl.
    rewrite !app_nil_r, !Nat.add_0_r.
    destruct (folder acc). auto.
  - simpl fold_left.
    destruct (processElement_outcome acc item)
      as (Hf & Hs & Hfail & Hi & Hlog).
    destruct (IH (processElement acc item)) as (IHf & IHs & IHfail & IHi & IHl).
    rewrite Hi in IHf, IHs, IHfail, IHl.
    rewrite IHf, IHs, IHfail, IHi, IHl, Hf, Hs, Hfail, Hi, Hlog.
    cbn [outcomesFrom loopMessages]. unfold nodesOf, failuresOf.
    cbn [flat_map filter].
    repeat split.
    + destruct (outcomeOf (S (elementIndex acc)) item);
        cbn [add groupName children nodeOf];
        now rewrite <- ?app_assoc.
    + rewrite length_app.
      destruct (outcomeOf (S (elementIndex acc)) item); cbn; lia.
    + destruct (outcomeOf (S (elementIndex acc)) item); cbn; lia.
    + cbn. lia.
    + apply logLines_after.
Qed.

(** The whole loop. *)
Lemma importElements_outcomes (logs0 : list string)
  (items : list (Element * string)) :
  let done := importElements logs0 items in
  folder done
  = {| groupName := "SVG Import"; children := nodesOf (outcomes items) |}
  /\ successCount done = List.length (nodesOf (outcomes items))
  /\ failCount done = failuresOf (outcomes items)
  /\ elementIndex done = List.length items.
Proof.
  destruct (fold_processElement items (importStart logs0))
    as (Hf & Hs & Hfail & Hi & _).
  unfold importElements, outcomes. cbv zeta. rewrite Hf, Hs, Hfail, Hi.
  now cbn.
Qed.

(** The log of the whole loop. *)
Lemma importElements_logs (logs0 : list string)
  (items : list (Element * string)) :
  importLogs (importElements logs0 items)
  = logs0 ++ logLines (List.length logs0) (loopMessages 0 items).
Proof.
  now destruct (fold_processElement items (importStart logs0))
    as (_ & _ & _ & _ & H).
Qed.

End DocumentFacts.

Lemma totalElementsOf_length (svgDoc : list Element) :
  totalElementsOf svgDoc = List.length (allElements svgDoc).
Proof.
  unfold totalElementsOf, allElements, withType.
  rewrite !length_app, !length_map. lia.
Qed.

Lemma filter_withType (type t : string) (elements : list Element) :
  filter (fun item => String.eqb (snd item) t) (withType type elements)
  = if String.eqb type t then withType type elements else [].
Proof.
  unfold withType. induction elements as [|e es IH]; simpl.
  - now destruct (String.eqb type t).
  - rewrite IH. now destruct (String.eqb type t).
Qed.

Lemma map_fst_withType (type : string) (elements : list Element) :
  map fst (withType type elements) = elements.
Proof.
  unfold withType. rewrite map_map. simpl. apply map_id.
Qed.

(** The log of a conversion is the lines of its messages, each written at
    its own time. *)
Lemma convertFromSVG_logs {IEdge IWire : Type}
  `{F : IShapeFactory IEdge IWire} `{P : Platform} (svgContent : string) :
  snd (convertFromSVG svgContent) = logLines 0 (documentMessages svgContent).
Proof.
  unfold convertFromSVG, documentMessages.
  destruct (querySelector (parseFromString svgContent) "parsererror")
    as [parserError|]; [reflexivity|].
  rewrite totalElementsOf_length.
  destruct (allElements (parseFromString svgContent)) as [|item items] eqn:Hit;
    [reflexivity|].
  cbn [List.length Nat.eqb].
  match goal with
  | |- context [importElements ?l ?its] =>
      pose proof (importElements_logs l its) as Hlog;
      destruct (importElements_outcomes l its) as (_ & Hs & Hfail & _);
      cbv zeta in Hs, Hfail; rewrite Hs, Hfail, Hlog
  end.
  change (addLog (addLog (addLog [] "SVG import started")
                    "SVG content parsed by DOMParser")
            (foundMessage (parseFromString svgContent)))
    with ([] ++ logLines (List.length (@nil string))
                  ["SVG import started"; "SVG content parsed by DOMParser";
                   foundMessage (parseFromString svgContent)]).
  rewrite logLines_after, addLog_logLines.
  now destruct (Nat.eqb _ 0).
Qed.

(** *** The order of the elements *)

(** C9.  The elements are processed type by type, in the order path, rect,
    circle, ellipse, line, polyline, polygon; the elements of one type keep
    the order of the document; the nodes of the folder follow that order;
    and there is a document whose elements are not processed in document
    order. *)
Theorem elements_are_grouped_by_type :
  (forall svgDoc : list Element,
      allElements svgDoc
      = flat_map (fun type => withType type (querySelectorAll svgDoc type))
          supportedTypes
      /\ Forall (fun type =>
                   map fst (filter (fun item => String.eqb (snd item) type)
                              (allElements svgDoc))
                   = filter (fun e => String.eqb (tagName e) type) svgDoc)
           supportedTypes)
  /\ (forall (IEdge IWire : Type) (F : IShapeFactory IEdge IWire)
             (P : Platform) (logs0 : list string) (svgDoc : list Element),
         importElements logs0 (allElements svgDoc)
         = fold_left processElement (allElements svgDoc) (importStart logs0)
         /\ children (folder (importElements logs0 (allElements svgDoc)))
            = nodesOf (outcomes (allElements svgDoc)))
  /\ exists svgDoc : list Element,
       map fst (allElements svgDoc) <> filter isSupported svgDoc.
Proof.
  split; [|split].
  - intros svgDoc. split.
    + unfold allElements, supportedTypes. simpl. now rewrite app_nil_r.
    + unfold allElements, supportedTypes.
      repeat constructor;
        rewrite !filter_app, !filter_withType; cbn [String.eqb Ascii.eqb];
        cbn; rewrite ?app_nil_r; apply map_fst_withType.
  - intros. split; [reflexivity|].
    destruct (importElements_outcomes logs0 (allElements svgDoc)) as (-> & _).
    reflexivity.
  - exists [Demo.element "rect" []; Demo.element "path" []].
    cbv. discriminate.
Qed.

(** *** Failures of the document and failures of an element *)

Lemma outcomesFrom_app {IEdge IWire : Type} `{F : IShapeFactory IEdge IWire}
  `{P : Platform} (before after : list (Element * string)) (k : nat) :
  outcomesFrom k (before ++ after)
  = outcomesFrom k before
      ++ outcomesFrom (k + List.length before) after.
Proof.
  revert k. induction before as [|item rest IH]; intros k; simpl.
  - now rewrite Nat.add_0_r.
  - rewrite IH. do 3 f_equal. lia.
Qed.

(** The three ways [convertFromSVG] ends. *)
Lemma convertFromSVG_cases {IEdge IWire : Type}
  `{F : IShapeFactory IEdge IWire} `{P : Platform} (svgContent : string) :
  let svgDoc := parseFromString svgContent in
  let nodes := nodesOf (outcomes (allElements svgDoc)) in
  (querySelector svgDoc "parsererror" <> None
   \/ allElements svgDoc = [] \/ nodes = [])
  /\ isOk (fst (convertFromSVG svgContent)) = false
  \/ (querySelector svgDoc "parsererror" = None
      /\ allElements svgDoc <> [] /\ nodes <> [])
     /\ fst (convertFromSVG svgContent)
        = Ok {| groupName := "SVG Import"; children := nodes |}.
Proof.
  cbv zeta. unfold convertFromSVG.
  destruct (querySelector (parseFromString svgContent) "parsererror")
    as [parserError|].
  { left. split; [left; discriminate | reflexivity]. }
  rewrite totalElementsOf_length.
  destruct (allElements (parseFromString svgContent)) as [|item items] eqn:Hit.
  { left. split; [right; now left | reflexivity]. }
  cbn [List.length Nat.eqb].
  match goal with
  | |- context [importElements ?l ?its] =>
      destruct (importElements_outcomes l its) as (Hf & _)
  end.
  cbv zeta in Hf. rewrite Hf. unfold count. cbn [children groupName].
  destruct (nodesOf (outcomes (item :: items))) as [|node nodes] eqn:Hn.
  - left. split; [right; now right | reflexivity].
  - right. cbn [List.length Nat.eqb fst]. repeat split; discriminate.
Qed.

(** C8.  The conversion fails exactly when the document holds a
    [parsererror], holds none of the supported elements, or no element gave
    a node; when it succeeds the folder holds the nodes of the imported
    elements.  What becomes of an element depends on the element and its
    number only: an element that is skipped or fails adds no node, a failed
    conversion or wire adds one to the count of failures, and the elements
    after it are processed all the same.  Every element writes its lines
    in the log, each stamped with the time of its writing: the line that
    it is processed first, the line of what became of it last; the log of
    the loop is the lines of its elements, one element after the other. *)
Theorem conversion_fails_only_for_the_document :
  forall (IEdge IWire : Type) (F : IShapeFactory IEdge IWire) (P : Platform)
         (svgContent : string),
    let svgDoc := parseFromString svgContent in
    let items := allElements svgDoc in
    (isOk (fst (convertFromSVG svgContent)) = false
     <-> (querySelector svgDoc "parsererror" <> None
          \/ items = [] \/ nodesOf (outcomes items) = []))
    /\ (forall g : GroupNode,
           fst (convertFromSVG svgContent) = Ok g ->
           g = {| groupName := "SVG Import";
                  children := nodesOf (outcomes items) |})
    /\ (forall (logs0 : list string) (elements : list (Element * string)),
           let done := importElements logs0 elements in
           children (folder done) = nodesOf (outcomes elements)
           /\ successCount done = List.length (nodesOf (outcomes elements))
           /\ failCount done = failuresOf (outcomes elements)
           /\ elementIndex done = List.length elements)
    /\ (forall (before after : list (Element * string))
               (item : Element * string),
           outcomes (before ++ item :: after)
           = outcomes before
               ++ outcomeOf (S (List.length before)) item
               :: outcomesFrom (S (List.length before)) after)
    /\ (forall (acc : Import) (item : Element * string),
           let index := S (elementIndex acc) in
           let label := snd item +++ " " +++ natToString index in
           importLogs (processElement acc item)
           = importLogs acc
               ++ logLines (List.length (importLogs acc))
                    (elementMessages index item)
           /\ exists between : list string,
                elementMessages index item
                = ("Processing " +++ label +++ ": " +++ dquote
                     +++ elementNameOf (fst item) index +++ dquote)
                    :: between
                    ++ [outcomeLine label (outcomeOf index item)])
    /\ (forall (logs0 : list string) (elements : list (Element * string)),
           importLogs (importElements logs0 elements)
           = logs0
               ++ logLines (List.length logs0) (loopMessages 0 elements)).
Proof.
  intros. split; [|split; [|split; [|split; [|split]]]].
  - destruct (convertFromSVG_cases svgContent) as [(Hdoc & Herr)|(Hok & Hres)].
    + fold svgDoc items in Hdoc. tauto.
    + fold svgDoc items in Hok. rewrite Hres. cbn [isOk].
      split; [discriminate|]. tauto.
  - intros g Hg.
    destruct (convertFromSVG_cases svgContent) as [(_ & Herr)|(_ & Hres)].
    + rewrite Hg in Herr. discriminate.
    + rewrite Hres in Hg. now injection Hg as <-.
  - intros. destruct (importElements_outcomes logs0 elements)
      as (Hf & Hs & Hfail & Hi).
    fold done in Hf, Hs, Hfail, Hi. now rewrite Hf.
  - intros. unfold outcomes. rewrite outcomesFrom_app. reflexivity.
  - intros. split.
    + now destruct (processElement_outcome acc item) as (_ & _ & _ & _ & H).
    + destruct item as [element type]. unfold elementMessages.
      eexists. reflexivity.
  - intros. apply importElements_logs.
Qed.

(** Witness of C8: a polyline of one point, a triangle and a path that the
    grammar refuses give a folder with the triangle alone and one failure. *)
Lemma conversion_fails_only_for_the_document_witness :
  let svgDoc :=
    [Demo.element "polyline" [("points", "0,0")];
     Demo.element "path" [("id", "tri"); ("d", "M0,0 L10,0 L10,10 Z")];
     Demo.element "path" [("d", "M 1 L")]] in
  let triangle :=
    {| nodeName := "tri";
       shape := [Line origin (XYZ.new 10 0 0);
                 Line (XYZ.new 10 0 0) (XYZ.new 10 (-10) 0);
                 Line (XYZ.new 10 (-10) 0) origin] |} in
  {| groupName := "SVG Import"; children := [triangle] |}
  = {| groupName := "SVG Import";
       children :=
         nodesOf (outcomes (F := recorder) (P := Demo.platform svgDoc)
                    (allElements svgDoc)) |}
  /\ failCount (importElements (F := recorder) (P := Demo.platform svgDoc) []
                  (allElements svgDoc)) = 1%nat.
Proof.
  intros svgDoc triangle.
  destruct (conversion_fails_only_for_the_document _ _ recorder
              (Demo.platform svgDoc) EmptyString) as (_ & Hok & Hloop & _).
  split.
  - apply Hok. vm_compute. reflexivity.
  - destruct (Hloop [] (allElements svgDoc)) as (_ & _ & -> & _).
    vm_compute. reflexivity.
Defined.

(** ** Polylines and polygons *)

Lemma append_assoc (a b c : string) : (a +++ b) +++ c = a +++ b +++ c.
Proof. induction a as [|ch a IH]; simpl; [reflexivity | now rewrite IH]. Qed.

Lemma append_nil_r (a : string) : a +++ EmptyString = a.
Proof. induction a as [|ch a IH]; simpl; [reflexivity | now rewrite IH]. Qed.

(** Induction on a list two elements at a time. *)
Lemma pair_induction {A : Type} (R : list A -> Prop) :
  R [] -> (forall a, R [a]) ->
  (forall a b l, R l -> R (a :: b :: l)) ->
  forall l, R l.
Proof.
  intros H0 H1 H2.
  fix IH 1. intros [|a [|b l]]; [exact H0 | apply H1 | apply H2, IH].
Qed.

Lemma polylineSegments_lineSegments (rest : list string) :
  forall path, polylineSegments rest path = path +++ lineSegments rest.
Proof.
  induction rest as [| a | a b l IH] using pair_induction; intros path;
    cbn [polylineSegments lineSegments]; rewrite ?append_nil_r;
    try reflexivity.
  rewrite IH, !append_assoc. reflexivity.
Qed.

(** The path of a polyline is the path through its tokens. *)
Lemma polylineToPath_moveLinePath (element : Element) :
  polylineToPath element = moveLinePath (pointTokens element).
Proof.
  unfold polylineToPath, moveLinePath.
  destruct (pointTokens element) as [|p0 [|p1 rest]]; try reflexivity.
  rewrite polylineSegments_lineSegments, !append_assoc. reflexivity.
Qed.

Lemma lineCommands_primitives (values : list Q) :
  forall st,
    Drawing.primitivesFrom st (lineCommands values)
    = linesFrom (currentPoint st) (pointsOf values).
Proof.
  induction values as [| a | a b l IH] using pair_induction; intros st;
    try reflexivity.
  cbn [lineCommands pointsOf Drawing.primitivesFrom linesFrom].
  rewrite IH. reflexivity.
Qed.

(** The primitives of [moveLineCommands]: the lines through the points. *)
Lemma moveLineCommands_primitives (values : list Q) :
  Drawing.primitives (moveLineCommands values)
  = linesThrough (pointsOf values).
Proof.
  unfold Drawing.primitives.
  destruct values as [|vx [|vy rest]]; try reflexivity.
  cbn [moveLineCommands pointsOf Drawing.primitivesFrom linesThrough].
  rewrite lineCommands_primitives. reflexivity.
Qed.

Lemma pointsOf_length (values : list Q) :
  List.length (pointsOf values) = (List.length values / 2)%nat.
Proof.
  induction values as [| a | a b l IH] using pair_induction;
    try reflexivity.
  cbn [pointsOf List.length]. rewrite IH.
  change (S (S (List.length l))) with (1 * 2 + List.length l)%nat.
  rewrite Nat.div_add_l by lia. lia.
Qed.

Lemma linesFrom_length (points : list XYZ) :
  forall p, List.length (linesFrom p points) = List.length points.
Proof.
  induction points as [|q rest IH]; intros p; [reflexivity|].
  cbn [linesFrom List.length]. now rewrite IH.
Qed.

(** When the kernel builds each of the primitives, the edges are its
    answers, one for each primitive and in order. *)
Lemma successes_all {IEdge IWire : Type} `{F : IShapeFactory IEdge IWire}
  (ps : list CurvePrimitive) :
  Forall (fun q => isOk (construct q) = true) ps ->
  Forall2 (fun e q => construct q = Ok e) (successes ps) ps.
Proof.
  induction 1 as [|q ps Hq Hps IH]; [constructor|].
  change (q :: ps) with ([q] ++ ps) at 1. rewrite successes_app.
  unfold successes at 1. cbn [flat_map app].
  destruct (construct q) as [e|] eqn:He; [|discriminate].
  cbn [app]. now constructor.
Qed.

(** The edges of the path of a polyline whose tokens the grammar reads as
    the values. *)
Lemma polyline_edges :
  forall (IEdge IWire : Type) (F : IShapeFactory IEdge IWire) (P : Platform)
         (logs0 : list string) (element : Element) (values : list Q),
    let tokens := pointTokens element in
    let lines := linesThrough (pointsOf values) in
    Nat.even (List.length tokens) = true ->
    (4 <= List.length tokens)%nat ->
    List.length values = List.length tokens ->
    svgPathAbs (moveLinePath tokens) = Ok (moveLineCommands values) ->
    Forall (fun q => isOk (construct q) = true) lines ->
    exists es : list IEdge,
      fst (convertPathToEdges logs0 (polylineToPath element)) = Ok es
      /\ List.length es = (List.length tokens / 2 - 1)%nat
      /\ List.length lines = (List.length tokens / 2 - 1)%nat
      /\ Forall2 (fun e q => construct q = Ok e) es lines.
Proof.
  intros IEdge IWire F P logs0 element values tokens lines Heven Hlen
    Hvalues Hread Hline.
  rewrite convertPathToEdges_primitives, polylineToPath_moveLinePath.
  fold tokens. rewrite Hread, moveLineCommands_primitives. fold lines.
  pose proof (pointsOf_length values) as Hpoints.
  rewrite Hvalues in Hpoints.
  assert (Hn : List.length lines = (List.length tokens / 2 - 1)%nat).
  { subst lines. destruct (pointsOf values) as [|p points];
      cbn [linesThrough List.length] in *; [lia|].
    rewrite linesFrom_length. lia. }
  pose proof (successes_all lines Hline) as Hall.
  eexists. split; [reflexivity|]. split; [|split; assumption].
  now rewrite (Forall2_length Hall).
Qed.

(** C7.  For a polyline whose [points] hold an even number, four at least,
    of coordinate tokens that the grammar reads as numbers (the path through
    the tokens is read as the move and the lines through their values), and
    a kernel that builds each of the lines through the points of the
    polyline: interpreting the path of the polyline succeeds and gives as
    many edges as half the number of tokens, less one; they are the answers
    of the kernel for the lines from each point to the next, in order. *)
Theorem polyline_gives_one_line_per_segment :
  forall (IEdge IWire : Type) (F : IShapeFactory IEdge IWire) (P : Platform)
         (logs0 : list string) (element : Element) (values : list Q),
    let tokens := pointTokens element in
    let lines := linesThrough (pointsOf values) in
    Nat.even (List.length tokens) = true ->
    (4 <= List.length tokens)%nat ->
    List.length values = List.length tokens ->
    svgPathAbs (moveLinePath tokens) = Ok (moveLineCommands values) ->
    Forall (fun q => isOk (construct q) = true) lines ->
    exists es : list IEdge,
      fst (convertPathToEdges logs0 (polylineToPath element)) = Ok es
      /\ List.length es = (List.length tokens / 2 - 1)%nat
      /\ List.length lines = (List.length tokens / 2 - 1)%nat
      /\ Forall2 (fun e q => construct q = Ok e) es lines.
Proof.
  intros IEdge IWire F P logs0 element values tokens lines.
  now apply polyline_edges.
Qed.

(** Witness of C7: the polyline [0,0 10,0 10,10], read by the reference
    grammar, gives two lines with a kernel that builds the lines and
    refuses the curves. *)
Lemma polyline_gives_one_line_per_segment_witness :
  let element := Demo.element "polyline" [("points", "0,0 10,0 10,10")] in
  exists es : list CurvePrimitive,
    fst (convertPathToEdges (F := Demo.linesOnly) (P := Demo.platform []) []
           (polylineToPath element)) = Ok es
    /\ List.length es = 2%nat.
Proof.
  intros element.
  destruct (polyline_gives_one_line_per_segment _ _ Demo.linesOnly
              (Demo.platform []) [] element [0; 0; 10; 0; 10; 10])
    as (es & Hes & Hn & _).
  - reflexivity.
  - vm_compute. lia.
  - reflexivity.
  - vm_compute. reflexivity.
  - repeat constructor.
  - exists es. split; [exact Hes | exact Hn].
Defined.

(** The characters of a text that starts with the letter [M]. *)
Lemma characters_M (s : string) :
  characters (String "M" s) = "M" :: characters s.
Proof. reflexivity. Qed.

(** A text whose first character is not white space is not blank. *)
Lemma trim_not_empty (character : string) (text : list string) :
  isWhiteSpace character = false ->
  isEmptyText (trim (character :: text)) = false.
Proof.
  intros Hc. unfold trim. cbn [trimStart]. rewrite Hc. cbn [trimEnd].
  rewrite Hc. now destruct (trimEnd text).
Qed.

(** A path that starts with the letter [M] is not blank. *)
Lemma isBlank_starts_with_M (s : string) :
  isBlank (Some (String "M" s)) = false.
Proof.
  cbn [isBlank isEmptyString orb]. rewrite characters_M.
  now apply trim_not_empty.
Qed.

Lemma moveLinePath_starts_with_M (p0 p1 : string) (rest : list string) :
  exists s, moveLinePath (p0 :: p1 :: rest) = String "M" s.
Proof. unfold moveLinePath. simpl. eauto. Qed.

(** The path data of a polyline or polygon is its reduction. *)
Lemma pathDataOf_polyline `{P : Platform} (element : Element) :
  pathDataOf element "polyline" = Some (polylineToPath element)
  /\ pathDataOf element "polygon" = Some (polygonToPath element).
Proof. split; reflexivity. Qed.

(** C1, counterexample.  The polyline with [points="0,0"] holds one
    coordinate pair; its path is ["M 0,0"], which is not blank, so the
    interpreter runs on it (the log has its lines) and the element is
    skipped for having no edge. *)
Lemma polyline_of_one_pair_is_interpreted :
  let element := Demo.element "polyline" [("points", "0,0")] in
  let item := (element, "polyline") in
  (List.length (pointTokens element) / 2 < 2)%nat
  /\ polylineToPath element = "M 0,0"
  /\ isBlank (pathDataOf (P := Demo.platform []) element "polyline") = false
  /\ outcomeOf (F := recorder) (P := Demo.platform []) 1 item
     = SkippedNoEdges
  /\ importLogs (processElement (F := recorder) (P := Demo.platform [])
                   (importStart []) item)
     = ["[00:00:00] Processing polyline 1: " +++ dquote +++ "Element 1"
          +++ dquote;
        "[00:00:00] Parsed 1 path commands";
        "[00:00:00] Total edges generated: 0";
        "[00:00:00] polyline 1: generated 0 edges";
        "[00:00:00] polyline 1: no edges generated, skipping"].
Proof.
  split; [vm_compute; lia|]. repeat split.
Qed.

(** C1, amended.  A polyline or polygon whose [points] hold fewer than two
    coordinate tokens reduces to the empty path, and the loop skips it: it
    numbers the element, writes two lines in the log, that the element is
    processed and that it is skipped for empty path data, and changes
    nothing else, whatever the grammar and the kernel.  With two tokens or
    more the path starts with the move to the first pair, is not blank,
    and the element is not skipped as empty: after the line that it is
    processed, the log has the lines of the interpretation of its path. *)
Theorem polyline_without_a_pair_of_tokens_is_skipped :
  forall (IEdge IWire : Type) (F : IShapeFactory IEdge IWire) (P : Platform)
         (acc : Import) (element : Element) (type : string),
    type = "polyline" \/ type = "polygon" ->
    let index := S (elementIndex acc) in
    let label := type +++ " " +++ natToString index in
    let n := List.length (importLogs acc) in
    let processing :=
      "Processing " +++ label +++ ": " +++ dquote
        +++ elementNameOf element index +++ dquote in
    ((List.length (pointTokens element) < 2)%nat ->
     polylineToPath element = EmptyString
     /\ polygonToPath element = EmptyString
     /\ outcomeOf index (element, type) = SkippedEmpty
     /\ processElement acc (element, type)
        = {| folder := folder acc; successCount := successCount acc;
             failCount := failCount acc; elementIndex := index;
             importLogs :=
               importLogs acc
                 ++ [logLine n processing;
                     logLine (S n) (label +++ ": empty path data, skipping")]
          |})
    /\ ((2 <= List.length (pointTokens element))%nat ->
        (exists s, polylineToPath element = String "M" s)
        /\ polygonToPath element = polylineToPath element +++ " Z"
        /\ isBlank (pathDataOf element type) = false
        /\ outcomeOf index (element, type) <> SkippedEmpty
        /\ exists pathData rest,
             pathDataOf element type = Some pathData
             /\ importLogs (processElement acc (element, type))
                = importLogs acc
                    ++ logLine n processing
                    :: logLines (S n) (pathMessages pathData ++ rest)).
Proof.
  intros IEdge IWire F P acc element type Htype index label n processing.
  split.
  - intros Hfew.
    assert (Hpoly : polylineToPath element = EmptyString).
    { unfold polylineToPath.
      destruct (pointTokens element) as [|p0 [|p1 rest]];
        try reflexivity. simpl in Hfew. lia. }
    assert (Hgon : polygonToPath element = EmptyString).
    { unfold polygonToPath. now rewrite Hpoly. }
    assert (Hblank : isBlank (pathDataOf element type) = true).
    { destruct Htype as [-> | ->].
      - rewrite (proj1 (pathDataOf_polyline element)), Hpoly. reflexivity.
      - rewrite (proj2 (pathDataOf_polyline element)), Hgon. reflexivity. }
    repeat split; try assumption.
    + unfold outcomeOf. now rewrite Hblank.
    + unfold processElement. rewrite Hblank.
      fold index label processing.
      rewrite (addLog_first (importLogs acc)), addLog_logLines.
      reflexivity.
  - intros Hmany.
    assert (Hpoly : exists s, polylineToPath element = String "M" s).
    { rewrite polylineToPath_moveLinePath.
      destruct (pointTokens element) as [|p0 [|p1 rest]];
        [simpl in Hmany; lia | simpl in Hmany; lia |].
      apply moveLinePath_starts_with_M. }
    destruct Hpoly as (s & Hs).
    assert (Hgon : polygonToPath element = polylineToPath element +++ " Z").
    { unfold polygonToPath. now rewrite Hs. }
    assert (Hdata : exists t, pathDataOf element type = Some (String "M" t)).
    { destruct Htype as [-> | ->].
      - rewrite (proj1 (pathDataOf_polyline element)), Hs. eauto.
      - rewrite (proj2 (pathDataOf_polyline element)), Hgon, Hs.
        cbn [String.append]. eauto. }
    destruct Hdata as (t & Hdata).
    assert (Hblank : isBlank (pathDataOf element type) = false)
      by (rewrite Hdata; apply isBlank_starts_with_M).
    split; [now exists s|]. split; [exact Hgon|]. split; [exact Hblank|].
    split.
    + unfold outcomeOf. rewrite Hblank.
      destruct (svgPathAbs _); [|discriminate].
      destruct (successes _); [discriminate|].
      destruct (wire _); discriminate.
    + destruct (processElement_outcome acc (element, type))
        as (_ & _ & _ & _ & Hlog).
      cbv zeta in Hlog. rewrite Hlog. unfold elementMessages.
      rewrite Hblank, Hdata. cbn [orElse isEmptyString].
      fold index label processing n. cbn [logLines app].
      eexists. eexists. split; [reflexivity|].
      rewrite <- app_assoc. reflexivity.
Qed.

(** Witness of C1 (amended): a polygon without points is skipped, and the
    polygon [0,0 4,0] is not skipped as empty. *)
Lemma polyline_without_a_pair_of_tokens_is_skipped_witness :
  let none := Demo.element "polygon" [] in
  let two := Demo.element "polygon" [("points", "0,0 4,0")] in
  outcomeOf (F := recorder) (P := Demo.platform []) 1 (none, "polygon")
  = SkippedEmpty
  /\ polygonToPath two = polylineToPath two +++ " Z".
Proof.
  intros none two. split.
  - destruct (polyline_without_a_pair_of_tokens_is_skipped _ _ recorder
                (Demo.platform []) (importStart []) none "polygon")
      as ((_ & _ & H & _) & _).
    + now right.
    + vm_compute. lia.
    + exact H.
  - destruct (polyline_without_a_pair_of_tokens_is_skipped _ _ recorder
                (Demo.platform []) (importStart []) two "polygon")
      as (_ & (_ & H & _)).
    + now right.
    + vm_compute. lia.
    + exact H.
Defined.

(** A no-break space separates coordinates as a space does, whether the
    attribute writes it in UTF-8 or as the single byte of its code: the
    polyline [0 0] written with it has two tokens and is interpreted. *)
Example no_break_space_separates :
  let nbsp8 :=
    String (ascii_of_nat 194) (String (ascii_of_nat 160) EmptyString) in
  let nbsp1 := String (ascii_of_nat 160) EmptyString in
  let polyline (space : string) :=
    Demo.element "polyline" [("points", "0" +++ space +++ "0")] in
  pointTokens (polyline nbsp8) = ["0"; "0"]
  /\ pointTokens (polyline nbsp1) = ["0"; "0"]
  /\ polylineToPath (polyline nbsp8) = "M 0,0"
  /\ outcomeOf (F := recorder) (P := Demo.platform []) 1
       (polyline nbsp8, "polyline") = SkippedNoEdges
  /\ outcomeOf (F := recorder) (P := Demo.platform []) 1
       (Demo.element "path" [("d", nbsp8)], "path") = SkippedEmpty
  /\ outcomeOf (F := recorder) (P := Demo.platform []) 1
       (Demo.element "path" [("d", nbsp1)], "path") = SkippedEmpty.
Proof. repeat split. Qed.

(** ** The reference grammar on the path of a polyline *)

Module PathGrammarFacts.
Import PathGrammar.

Lemma continueNumber_text (p q : Pending) (c : ascii) :
  continueNumber p c = Some q -> text q = text p +++ String c EmptyString.
Proof.
  unfold continueNumber, extend.
  repeat match goal with
         | |- context [if ?b then _ else _] => destruct b
         end; intros H; inversion H; reflexivity.
Qed.

Lemma continues_text (t : string) :
  forall p q, continues p t = Some q -> text q = text p +++ t.
Proof.
  induction t as [|c t IH]; intros p q; cbn [continues].
  - intros H. injection H as <-. now rewrite append_nil_r.
  - destruct (continueNumber p c) as [p'|] eqn:Hc; [|discriminate].
    intros H. rewrite (IH _ _ H), (continueNumber_text _ _ _ Hc).
    now rewrite append_assoc.
Qed.

Lemma continues_tokens (t : string) :
  forall p q s out,
    continues p t = Some q -> tokens (t +++ s) p out = tokens s q out.
Proof.
  induction t as [|c t IH]; intros p q s out; cbn [continues].
  - intros H. now injection H as <-.
  - destruct (continueNumber p c) as [p'|] eqn:Hc; [|discriminate].
    intros H. cbn [String.append tokens]. rewrite Hc. now apply IH.
Qed.

Lemma isSign_cases (c : ascii) :
  isSign c = true -> c = "+"%char \/ c = "-"%char.
Proof.
  unfold isSign. rewrite orb_true_iff, !Ascii.eqb_eq. tauto.
Qed.

(** A number at the start of a text, read with nothing pending. *)
Lemma startNumber_tokens (t : string) (q : Pending) :
  startNumber t = Some q ->
  text q = t
  /\ forall s out, tokens (t +++ s) noPending out = tokens s q out.
Proof.
  destruct t as [|c t]; [discriminate|]. cbn [startNumber].
  destruct (isSign c) eqn:Hs.
  - intros H. split.
    + rewrite (continues_text _ _ _ H). reflexivity.
    + intros s out. cbn [String.append tokens].
      destruct (isSign_cases c Hs) as [-> | ->]; cbn;
        now apply continues_tokens.
  - intros H. split.
    + rewrite (continues_text _ _ _ H). reflexivity.
    + intros s out. now apply continues_tokens.
Qed.

Lemma startNumber_not_empty (t : string) (q : Pending) :
  startNumber t = Some q -> isEmptyString (text q) = false.
Proof.
  intros H. destruct (startNumber_tokens t q H) as (-> & _).
  now destruct t.
Qed.

Lemma tokens_after_number (p : Pending) (s : string) (out : list Token) :
  isEmptyString (text p) = false ->
  tokens (String "," s) p out = tokens s noPending (out ++ [TNumber (text p)])
  /\ tokens (String " " s) p out
     = tokens s noPending (out ++ [TNumber (text p)])
  /\ tokens EmptyString p out = out ++ [TNumber (text p)].
Proof.
  intros Hp. cbn [tokens]. unfold flush. rewrite Hp.
  repeat split.
Qed.

Lemma tokens_lineSegments (ts : list string) :
  forall (vs : list Q) (p : Pending) (out : list Token),
    Forall2 isNumber ts vs ->
    isEmptyString (text p) = false ->
    tokens (lineSegments ts) p out
    = out ++ TNumber (text p) :: segmentTokens ts.
Proof.
  induction ts as [| a | a b rest IH] using pair_induction;
    intros vs p out Hnum Hp.
  - cbn [lineSegments segmentTokens].
    now destruct (tokens_after_number p EmptyString out Hp) as (_ & _ & ->).
  - cbn [lineSegments segmentTokens].
    now destruct (tokens_after_number p EmptyString out Hp) as (_ & _ & ->).
  - inversion Hnum as [|? va ? vs' (Ha & _) Hrest]; subst.
    inversion Hrest as [|? vb ? vs'' (Hb & _) Hrest']; subst.
    destruct (startNumber a) as [qa|] eqn:Hqa; [|congruence].
    destruct (startNumber b) as [qb|] eqn:Hqb; [|congruence].
    destruct (startNumber_tokens a qa Hqa) as (Hta & Htoka).
    destruct (startNumber_tokens b qb Hqb) as (Htb & Htokb).
    cbn [lineSegments segmentTokens].
    change (" L " +++ a +++ "," +++ b +++ lineSegments rest)
      with (String " " (String "L" (String " "
              (a +++ String "," (b +++ lineSegments rest))))).
    destruct (tokens_after_number p
                (String "L" (String " "
                   (a +++ String "," (b +++ lineSegments rest)))) out Hp)
      as (_ & -> & _).
    change (tokens (String "L" (String " "
                      (a +++ String "," (b +++ lineSegments rest))))
              noPending (out ++ [TNumber (text p)]))
      with (tokens (a +++ String "," (b +++ lineSegments rest)) noPending
              ((out ++ [TNumber (text p)]) ++ [TLetter "L"])).
    rewrite Htoka.
    destruct (tokens_after_number qa (b +++ lineSegments rest)
                ((out ++ [TNumber (text p)]) ++ [TLetter "L"])
                (startNumber_not_empty _ _ Hqa)) as (-> & _).
    rewrite Htokb, (IH vs'' qb _ Hrest' (startNumber_not_empty _ _ Hqb)).
    rewrite Hta, Htb, <- !app_assoc. reflexivity.
Qed.

(** The tokens of the path through the tokens of a polyline. *)
Lemma tokens_moveLinePath (p0 p1 : string) (rest : list string)
  (vs : list Q) :
  Forall2 isNumber (p0 :: p1 :: rest) vs ->
  tokens (moveLinePath (p0 :: p1 :: rest)) noPending []
  = TLetter "M" :: TNumber p0 :: TNumber p1 :: segmentTokens rest.
Proof.
  intros Hnum.
  inversion Hnum as [|? v0 ? vs' (H0 & _) Hrest]; subst.
  inversion Hrest as [|? v1 ? vs'' (H1 & _) Hrest']; subst.
  destruct (startNumber p0) as [q0|] eqn:Hq0; [|congruence].
  destruct (startNumber p1) as [q1|] eqn:Hq1; [|congruence].
  destruct (startNumber_tokens p0 q0 Hq0) as (Ht0 & Htok0).
  destruct (startNumber_tokens p1 q1 Hq1) as (Ht1 & Htok1).
  unfold moveLinePath.
  change (tokens ("M " +++ p0 +++ "," +++ p1 +++ lineSegments rest)
            noPending [])
    with (tokens (p0 +++ String "," (p1 +++ lineSegments rest)) noPending
            [TLetter "M"]).
  rewrite Htok0.
  destruct (tokens_after_number q0 (p1 +++ lineSegments rest) [TLetter "M"]
              (startNumber_not_empty _ _ Hq0)) as (-> & _).
  rewrite Htok1,
    (tokens_lineSegments rest vs'' q1 _ Hrest'
       (startNumber_not_empty _ _ Hq1)).
  now rewrite Ht0, Ht1.
Qed.

Lemma group_segmentTokens (ts : list string) :
  forall (vs : list Q) (out : list Written),
    Forall2 isNumber ts vs ->
    group (segmentTokens ts) lineGroup out = Ok (out ++ writtenLines vs).
Proof.
  induction ts as [| a | a b rest IH] using pair_induction;
    intros vs out Hnum.
  - inversion Hnum; subst. cbn. now rewrite app_nil_r.
  - inversion Hnum as [|? va ? vs' _ Hrest]; subst.
    inversion Hrest; subst. cbn. now rewrite app_nil_r.
  - inversion Hnum as [|? va ? vs' (_ & Ha) Hrest]; subst.
    inversion Hrest as [|? vb ? vs'' (_ & Hb) Hrest']; subst.
    cbn [segmentTokens group lineGroup args expecting current].
    change (Ascii.eqb "L" "Z" || Ascii.eqb "L" "z")%bool with false.
    change (letterKind "L") with (Some (KLine, false)).
    cbn [group args expecting current]. rewrite Ha.
    cbn [app List.length Nat.eqb arity]. rewrite Hb.
    cbn [app List.length Nat.eqb arity].
    fold lineGroup. rewrite (IH vs'' _ Hrest'), <- app_assoc. reflexivity.
Qed.

Lemma toAbs_writtenLines (vs : list Q) :
  forall pen, toAbs (writtenLines vs) pen = Ok (lineCommands vs).
Proof.
  induction vs as [| a | a b rest IH] using pair_induction; intros pen;
    try reflexivity.
  cbn [writtenLines toAbs absolute lineCommands rx ry]. now rewrite IH.
Qed.

(** The reference grammar reads the path through numeric tokens as the
    move and the lines through their values. *)
Lemma read_moveLinePath (ts : list string) (vs : list Q) :
  Forall2 isNumber ts vs ->
  read (moveLinePath ts) = Ok (moveLineCommands vs).
Proof.
  intros Hnum. unfold read.
  destruct ts as [|p0 [|p1 rest]].
  - inversion Hnum; subst. reflexivity.
  - inversion Hnum as [|? v0 ? vs' _ Hrest]; subst.
    inversion Hrest; subst. reflexivity.
  - rewrite (tokens_moveLinePath _ _ _ _ Hnum).
    inversion Hnum as [|? v0 ? vs' (_ & H0) Hrest]; subst.
    inversion Hrest as [|? v1 ? vs'' (_ & H1) Hrest']; subst.
    cbn [group noGroup args expecting current].
    change (Ascii.eqb "M" "Z" || Ascii.eqb "M" "z")%bool with false.
    change (letterKind "M") with (Some (KMove, false)).
    cbn [group args expecting current]. rewrite H0.
    cbn [app List.length Nat.eqb arity]. rewrite H1.
    cbn [app List.length Nat.eqb arity].
    fold lineGroup. rewrite (group_segmentTokens _ _ _ Hrest').
    cbn [app toAbs absolute writtenLines rx ry moveLineCommands].
    now rewrite toAbs_writtenLines.
Qed.

End PathGrammarFacts.

(** ** The polyline with the reference grammar *)

(** With the reference grammar for svg-pathdata, every polyline whose
    tokens are numbers, an even number of them and four at least, gives one
    line per segment when the kernel builds the lines through its
    points. *)
Corollary polyline_edges_reference_grammar :
  forall (IEdge IWire : Type) (F : IShapeFactory IEdge IWire) (P : Platform)
         (logs0 : list string) (element : Element) (values : list Q),
    (forall d, svgPathAbs d = PathGrammar.read d) ->
    Forall2 PathGrammar.isNumber (pointTokens element) values ->
    Nat.even (List.length (pointTokens element)) = true ->
    (4 <= List.length (pointTokens element))%nat ->
    Forall (fun q => isOk (construct q) = true)
      (linesThrough (pointsOf values)) ->
    exists es : list IEdge,
      fst (convertPathToEdges logs0 (polylineToPath element)) = Ok es
      /\ List.length es = (List.length (pointTokens element) / 2 - 1)%nat.
Proof.
  intros IEdge IWire F P logs0 element values Hread Hnum Heven Hlen Hline.
  destruct (polyline_edges _ _ F P logs0 element values Heven Hlen)
    as (es & Hes & Hn & _).
  - symmetry. exact (Forall2_length Hnum).
  - rewrite Hread. now apply PathGrammarFacts.read_moveLinePath.
  - exact Hline.
  - now exists es.
Qed.

(** ** Examples *)

(** A triangle: three lines, with the second coordinate reversed. *)
Example triangle_path :
  fst (convertPathToEdges (F := recorder) (P := Demo.platform []) []
         "M0,0 L10,0 L10,10 Z")
  = Ok [Line origin (XYZ.new 10 0 0);
        Line (XYZ.new 10 0 0) (XYZ.new 10 (-10) 0);
        Line (XYZ.new 10 (-10) 0) origin].
Proof. reflexivity. Qed.

(** A rectangle without radii: four lines, closed. *)
Example rectangle_element :
  let rect :=
    Demo.element "rect"
      [("x", "0"); ("y", "0"); ("width", "10"); ("height", "5")] in
  rectToPath (P := Demo.platform []) rect = "M 0,0 h 10 v 5 h -10 Z"
  /\ outcomeOf (F := recorder) (P := Demo.platform []) 1 (rect, "rect")
     = Imported
         {| nodeName := "Element 1";
            shape := [Line origin (XYZ.new 10 0 0);
                      Line (XYZ.new 10 0 0) (XYZ.new 10 (-5) 0);
                      Line (XYZ.new 10 (-5) 0) (XYZ.new 0 (-5) 0);
                      Line (XYZ.new 0 (-5) 0) origin] |}.
Proof. split; reflexivity. Qed.

(** A document without supported elements, and a document whose only
    element is a polyline of one point: both conversions fail. *)
Example documents_without_a_shape :
  let text := [Demo.element "text" []] in
  let point := [Demo.element "polyline" [("points", "0,0")]] in
  isOk (fst (convertFromSVG (F := recorder) (P := Demo.platform text)
               EmptyString)) = false
  /\ isOk (fst (convertFromSVG (F := recorder) (P := Demo.platform point)
                  EmptyString)) = false.
Proof. split; reflexivity. Qed.

(** With a kernel that builds nothing the interpretation still succeeds,
    with no edge. *)
Example kernel_that_fails :
  fst (convertPathToEdges (F := Demo.failing) (P := Demo.platform []) []
         "M0,0 L10,0 Q 10,10 0,10 Z")
  = Ok [].
Proof. reflexivity. Qed.

(** A circle of radius one: four cubic curves that end where they start. *)
Example circle_element :
  let circle := Demo.element "circle" [("r", "1")] in
  exists c1 c2 c3 c4 c5 c6 c7 c8,
    attempted (P := Demo.platform [])
      match PathGrammar.read (circleToPath (P := Demo.platform []) circle)
      with
      | Ok commands => commands
      | Err _ => []
      end
    = [Bezier [XYZ.new (-1) 0 0; c1; c2; XYZ.new 0 1 0];
       Bezier [XYZ.new 0 1 0; c3; c4; XYZ.new 1 0 0];
       Bezier [XYZ.new 1 0 0; c5; c6; XYZ.new 0 (-1) 0];
       Bezier [XYZ.new 0 (-1) 0; c7; c8; XYZ.new (-1) 0 0]].
Proof. repeat eexists. Qed.

(** ** Further properties of the interpreter *)

Section PrimitiveFacts.
Context `{P : Platform}.

(** What one command asks for: nothing and the current point stays, or
    one primitive from the current point to the new current point.  A
    move and a close are the exceptions. *)
Lemma stepAttempts_shape (st : PathState) (cmd : SVGCommand) :
  isMove cmd = false -> isClose cmd = false ->
  let st' :=
    state (step (F := recorder)
             {| state := st; edges := []; logs := [] |} cmd) in
  (stepAttempts st cmd = [] /\ draws cmd = false
   /\ currentPoint st' = currentPoint st)
  \/ exists p,
       stepAttempts st cmd = [p] /\ draws cmd = true
       /\ primitiveStart p = Some (currentPoint st)
       /\ primitiveFinish p = Some (currentPoint st').
Proof.
  intros Hm Hc. destruct cmd; try discriminate; cbv zeta;
    try (right; eexists; repeat split; reflexivity).
  left. repeat split.
Qed.

Lemma chained_app (ps qs : list CurvePrimitive) :
  forall from,
    chained from ps -> chained (chainEnd from ps) qs ->
    chained from (ps ++ qs).
Proof.
  induction ps as [|p ps IH]; intros from Hps Hqs; simpl in *.
  - exact Hqs.
  - destruct Hps as (Hs & finish & Hf & Hrest). rewrite Hf in Hqs.
    split; [exact Hs|]. exists finish. split; [exact Hf|]. now apply IH.
Qed.

Lemma chainEnd_app (ps qs : list CurvePrimitive) :
  forall from, chainEnd from (ps ++ qs) = chainEnd (chainEnd from ps) qs.
Proof.
  induction ps as [|p ps IH]; intros from; simpl; [reflexivity | apply IH].
Qed.

End PrimitiveFacts.

(** X1.  Through commands that neither move nor close, the primitives the
    interpreter asks for follow one another: the first starts at the
    current point, each next one starts where the one before it ends, and
    the current point after the commands is the end of the last one. *)
Theorem primitives_are_chained :
  forall (IEdge IWire : Type) (F : IShapeFactory IEdge IWire) (P : Platform)
         (l : Loop) (commands : list SVGCommand),
    forallb drawsWithoutMoveOrClose commands = true ->
    let asked := attemptsFrom (state l) commands in
    chained (currentPoint (state l)) asked
    /\ currentPoint (state (fold_left step commands l))
       = chainEnd (currentPoint (state l)) asked
    /\ List.length asked = List.length (filter draws commands)
    /\ edges (fold_left step commands l) = edges l ++ successes asked.
Proof.
  intros IEdge IWire F P l commands Hall asked.
  split; [|split; [|split]]; [| | |apply fold_step_edges].
  - subst asked. revert l Hall.
    induction commands as [|cmd rest IH]; intros l Hall; [exact I|].
    cbn [forallb] in Hall. apply andb_prop in Hall as (Hcmd & Hrest).
    unfold drawsWithoutMoveOrClose in Hcmd.
    apply negb_true_iff, orb_false_iff in Hcmd as (Hm & Hc).
    cbn [attemptsFrom].
    specialize (IH (step l cmd) Hrest). rewrite step_state in IH.
    destruct (stepAttempts_shape (state l) cmd Hm Hc)
      as [(-> & _ & Hcur)|(p & -> & _ & Hs & Hf)]; cbv zeta in *.
    + cbn [app]. now rewrite Hcur in IH.
    + cbn [app chained]. split; [exact Hs|].
      eexists. split; [exact Hf|]. exact IH.
  - subst asked. revert l Hall.
    induction commands as [|cmd rest IH]; intros l Hall; [reflexivity|].
    cbn [forallb] in Hall. apply andb_prop in Hall as (Hcmd & Hrest).
    unfold drawsWithoutMoveOrClose in Hcmd.
    apply negb_true_iff, orb_false_iff in Hcmd as (Hm & Hc).
    cbn [attemptsFrom fold_left]. rewrite (IH (step l cmd) Hrest).
    rewrite chainEnd_app, (step_state l cmd).
    destruct (stepAttempts_shape (state l) cmd Hm Hc)
      as [(-> & _ & Hcur)|(p & -> & _ & Hs & Hf)]; cbv zeta in *.
    + cbn [chainEnd]. now rewrite Hcur.
    + cbn [chainEnd]. now rewrite Hf.
  - subst asked. revert l Hall.
    induction commands as [|cmd rest IH]; intros l Hall; [reflexivity|].
    cbn [forallb] in Hall. apply andb_prop in Hall as (Hcmd & Hrest).
    unfold drawsWithoutMoveOrClose in Hcmd.
    apply negb_true_iff, orb_false_iff in Hcmd as (Hm & Hc).
    cbn [attemptsFrom filter]. rewrite length_app.
    specialize (IH (step l cmd) Hrest). rewrite step_state in IH.
    rewrite IH.
    destruct (stepAttempts_shape (state l) cmd Hm Hc)
      as [(-> & -> & _)|(p & -> & -> & _)]; reflexivity.
Qed.

(** Witness of X1: a line and a quadratic curve from [(1, -1, 0)]. *)
Lemma primitives_are_chained_witness :
  let l : Loop (IEdge := CurvePrimitive) :=
    {| state := {| currentPoint := XYZ.new 1 (-1) 0;
                   pathStartPoint := origin; lastControlPoint := None |};
       edges := []; logs := [] |} in
  chained (XYZ.new 1 (-1) 0)
    (attemptsFrom (P := Demo.platform []) (state l)
       [LINE_TO 4 1; QUAD_TO 6 1 6 3]).
Proof.
  intros l.
  exact (proj1 (primitives_are_chained _ _ recorder (Demo.platform []) l
                  [LINE_TO 4 1; QUAD_TO 6 1 6 3] eq_refl)).
Defined.

Lemma successes_length {IEdge IWire : Type} `{F : IShapeFactory IEdge IWire}
  (ps : list CurvePrimitive) :
  (List.length (successes ps) <= List.length ps)%nat.
Proof.
  induction ps as [|p ps IH]; [apply le_n|].
  change (p :: ps) with ([p] ++ ps). rewrite successes_app, length_app.
  unfold successes at 1. cbn. destruct (construct p); cbn; lia.
Qed.

Lemma stepAttempts_length `{P : Platform} (st : PathState)
  (cmd : SVGCommand) :
  (List.length (stepAttempts st cmd) <= if draws cmd then 1 else 0)%nat.
Proof.
  destruct cmd; cbn; try lia.
  destruct (Double.gtb _ _); cbn; lia.
Qed.

(** X2.  The interpreter asks for at most one primitive per command, and
    for none on a move or on a command with an unknown tag: the edges of a
    path are at most as many as the primitives asked for, and these at most
    as many as the commands that draw. *)
Theorem one_primitive_per_command_at_most :
  forall (IEdge IWire : Type) (F : IShapeFactory IEdge IWire) (P : Platform)
         (logs0 : list string) (commands : list SVGCommand),
    (List.length (edges (runCommands logs0 commands))
     <= List.length (attempted commands))%nat
    /\ (List.length (attempted commands)
        <= List.length (filter draws commands))%nat
    /\ (List.length (filter draws commands) <= List.length commands)%nat.
Proof.
  intros. split; [|split].
  - rewrite runCommands_edges. apply successes_length.
  - rewrite attempted_from_initial. generalize initialState.
    induction commands as [|cmd rest IH]; intros st; [apply le_n|].
    cbn [attemptsFrom filter]. rewrite length_app.
    pose proof (stepAttempts_length st cmd) as Hcmd.
    specialize (IH (state (step (F := recorder)
                             {| state := st; edges := []; logs := [] |} cmd))).
    destruct (draws cmd); cbn [List.length]; lia.
  - apply filter_length_le.
Qed.

(** Every primitive asked for from a planar state is planar, and every
    curve has four points. *)
Lemma stepAttempts_planar `{P : Platform} (st : PathState)
  (cmd : SVGCommand) :
  planarState st -> Forall planarPrimitive (stepAttempts st cmd).
Proof.
  intros (Hc & Hs & Hl).
  assert (Hr : XYZ.planar (reflectedControlPoint st)).
  { unfold reflectedControlPoint. now destruct (lastControlPoint st). }
  unfold XYZ.planar in *.
  destruct cmd; cbn;
    try destruct (Double.gtb _ _); repeat constructor; auto.
Qed.

Lemma attemptsFrom_planar `{P : Platform} (commands : list SVGCommand) :
  forall st,
    planarState st -> Forall planarPrimitive (attemptsFrom st commands).
Proof.
  induction commands as [|cmd rest IH]; intros st Hst; [constructor|].
  cbn [attemptsFrom]. apply Forall_app. split.
  - now apply stepAttempts_planar.
  - apply IH.
    exact (step_planar (F := recorder)
             {| state := st; edges := []; logs := [] |} cmd Hst).
Qed.

(** X3.  Every primitive the interpreter asks the kernel for lies in the
    plane [z = 0], and every cubic curve it asks for has exactly four
    control points. *)
Theorem primitives_are_planar_and_cubic :
  forall (P : Platform) (commands : list SVGCommand),
    Forall planarPrimitive (attempted commands).
Proof.
  intros. rewrite attempted_from_initial. apply attemptsFrom_planar.
  unfold planarState, XYZ.planar. simpl. auto.
Qed.

(** X4.  For points of the plane, the cubic curve of the four points of
    [quadraticToCubic p0 p1 p2] is the quadratic curve of [p0 p1 p2]: the
    two have the same point at every parameter. *)
Theorem elevated_cubic_is_the_quadratic :
  forall (p0 p1 p2 : XYZ) (t : Q),
    XYZ.planar p0 -> XYZ.planar p1 -> XYZ.planar p2 ->
    exists cp1 cp2 : XYZ,
      quadraticToCubic p0 p1 p2 = [p0; cp1; cp2; p2]
      /\ XYZ.eq (Vec.cubicAt p0 cp1 cp2 p2 t) (Vec.quadraticAt p0 p1 p2 t).
Proof.
  intros [x0 y0 z0] [x1 y1 z1] [x2 y2 z2] t H0 H1 H2.
  unfold XYZ.planar in *. simpl in *. subst z0 z1 z2.
  eexists. eexists. split; [reflexivity|].
  unfold XYZ.eq, Vec.cubicAt, Vec.quadraticAt, Vec.add, Vec.scale. simpl.
  repeat split; field.
Qed.

(** Witness of X4: the curve from the origin over [(3, -3, 0)] to
    [(6, 0, 0)] at the parameter [1/4]. *)
Lemma elevated_cubic_is_the_quadratic_witness :
  exists cp1 cp2 : XYZ,
    quadraticToCubic origin (XYZ.new 3 (-3) 0) (XYZ.new 6 0 0)
    = [origin; cp1; cp2; XYZ.new 6 0 0]
    /\ XYZ.eq (Vec.cubicAt origin cp1 cp2 (XYZ.new 6 0 0) (1 / 4))
              (Vec.quadraticAt origin (XYZ.new 3 (-3) 0) (XYZ.new 6 0 0)
                 (1 / 4)).
Proof.
  exact (elevated_cubic_is_the_quadratic origin (XYZ.new 3 (-3) 0)
           (XYZ.new 6 0 0) (1 / 4) eq_refl eq_refl eq_refl).
Defined.

(** Closing at the start of the sub-path asks for nothing. *)
Lemma close_at_start `{P : Platform} (st : PathState) :
  currentPoint st = pathStartPoint st -> stepAttempts st CLOSE_PATH = [].
Proof.
  intros Heq. unfold stepAttempts. cbn. rewrite Heq.
  now rewrite distance_self.
Qed.

(** Commands that do not move keep the start of the sub-path. *)
Lemma fold_keeps_pathStartPoint {IEdge IWire : Type}
  `{F : IShapeFactory IEdge IWire} `{P : Platform}
  (commands : list SVGCommand) :
  forall l : Loop,
    forallb (fun cmd => negb (isMove cmd)) commands = true ->
    pathStartPoint (state (fold_left step commands l))
    = pathStartPoint (state l).
Proof.
  induction commands as [|cmd rest IH]; intros l Hall; [reflexivity|].
  cbn [forallb] in Hall. apply andb_prop in Hall as (Hcmd & Hrest).
  cbn [fold_left]. rewrite (IH _ Hrest).
  now destruct cmd.
Qed.

(** X5.  The start of the sub-path is the point of the last move, and the
    origin when the path has no move: after a move, any commands without a
    move and a close, the current point is the point of the move and no
    last control point is left; closing again, or closing right after a
    move, asks for nothing. *)
Theorem close_returns_to_the_last_move :
  forall (IEdge IWire : Type) (F : IShapeFactory IEdge IWire) (P : Platform)
         (l : Loop) (x y : Q) (body : list SVGCommand),
    forallb (fun cmd => negb (isMove cmd)) body = true ->
    state (fold_left step (MOVE_TO x y :: body ++ [CLOSE_PATH]) l)
    = {| currentPoint := mapPoint x y; pathStartPoint := mapPoint x y;
         lastControlPoint := None |}
    /\ stepAttempts
         (state (fold_left step (MOVE_TO x y :: body ++ [CLOSE_PATH]) l))
         CLOSE_PATH = []
    /\ stepAttempts (state (step l (MOVE_TO x y))) CLOSE_PATH = []
    /\ pathStartPoint (state (fold_left step body l))
       = pathStartPoint (state l)
    /\ forall logs0,
         pathStartPoint (state (runCommands logs0 body)) = origin.
Proof.
  intros IEdge IWire F P l x y body Hbody.
  assert (Hstate :
    state (fold_left step (MOVE_TO x y :: body ++ [CLOSE_PATH]) l)
    = {| currentPoint := mapPoint x y; pathStartPoint := mapPoint x y;
         lastControlPoint := None |}).
  { cbn [fold_left]. rewrite fold_left_app. cbn [fold_left step state].
    now rewrite (fold_keeps_pathStartPoint body _ Hbody). }
  split; [exact Hstate|]. split; [|split; [|split]].
  - rewrite Hstate. now apply close_at_start.
  - now apply close_at_start.
  - now apply fold_keeps_pathStartPoint.
  - intros logs0. unfold runCommands.
    now rewrite (fold_keeps_pathStartPoint body _ Hbody).
Qed.

(** Witness of X5: a triangle. *)
Lemma close_returns_to_the_last_move_witness :
  currentPoint
    (state (runCommands (F := recorder) (P := Demo.platform []) []
              [MOVE_TO 1 2; LINE_TO 10 0; LINE_TO 10 10; CLOSE_PATH]))
  = mapPoint 1 2.
Proof.
  pose proof (close_returns_to_the_last_move _ _ recorder (Demo.platform [])
                {| state := initialState; edges := []; logs := [] |}
                1 2 [LINE_TO 10 0; LINE_TO 10 10] eq_refl) as (H & _).
  exact (f_equal currentPoint H).
Defined.

(** ** The tokens of a [points] attribute *)

Lemma length_positive (s : string) :
  Nat.ltb 0 (String.length s) = negb (isEmptyString s).
Proof. now destruct s. Qed.

Lemma textOf_app (a b : list string) :
  textOf (a ++ b) = textOf a +++ textOf b.
Proof.
  induction a as [|c a IH]; cbn [app textOf]; [reflexivity|].
  now rewrite IH, append_assoc.
Qed.

Lemma append_not_empty (a b : string) :
  isEmptyString b = false -> isEmptyString (a +++ b) = false.
Proof. intros Hb. now destruct a. Qed.

(** A character is never empty. *)
Lemma readCharacters_not_empty (s : string) :
  forall pending missing,
    Forall (fun c => isEmptyString c = false)
      (readCharacters s pending missing).
Proof.
  induction s as [|c s IH]; intros pending missing; cbn [readCharacters];
    [constructor|].
  destruct missing as [|[|more]].
  - destruct (snd (headCharacter c s)) as [|[|more]];
      try (constructor; [reflexivity|]); apply IH.
  - constructor; [now apply append_not_empty | apply IH].
  - apply IH.
Qed.

Lemma characters_not_empty (s : string) :
  Forall (fun c => isEmptyString c = false) (characters s).
Proof. apply readCharacters_not_empty. Qed.

Lemma textOf_not_empty (t : list string) :
  Forall (fun c => isEmptyString c = false) t ->
  isEmptyText t = false -> isEmptyString (textOf t) = false.
Proof.
  intros Hall Ht. destruct t as [|c t]; [discriminate|].
  inversion Hall as [|? ? Hc _]; subst. cbn [textOf]. now destruct c.
Qed.

Lemma trimStart_incl (text : list string) : incl (trimStart text) text.
Proof.
  induction text as [|c text IH]; cbn [trimStart]; [apply incl_refl|].
  destruct (isWhiteSpace c); [now apply incl_tl | apply incl_refl].
Qed.

Lemma trimEnd_incl (text : list string) : incl (trimEnd text) text.
Proof.
  induction text as [|c text IH]; cbn [trimEnd]; [apply incl_refl|].
  destruct (trimEnd text) as [|k kept].
  - destruct (isWhiteSpace c); [apply incl_nil_l|].
    intros x [<-|[]]. now left.
  - intros x [<-|Hx]; [now left | right; now apply IH].
Qed.

(** The pieces of a split hold characters of the text, and no delimiter. *)
Lemma splitRuns_pieces (text : list string) :
  forall (read : list string) (inRun : bool),
    forallb (fun c => negb (isDelimiter c)) read = true ->
    Forall (fun p =>
              exists t, p = textOf t
                        /\ forallb (fun c => negb (isDelimiter c)) t = true
                        /\ incl t (read ++ text))
      (splitRuns text (textOf read) inRun).
Proof.
  induction text as [|c text IH]; intros read inRun Hread; cbn [splitRuns].
  - constructor; [|constructor]. exists read. rewrite app_nil_r.
    repeat split; [exact Hread | apply incl_refl].
  - destruct (isDelimiter c) eqn:Hc.
    + assert (Hrest :
        Forall (fun p =>
                  exists t, p = textOf t
                            /\ forallb (fun c => negb (isDelimiter c)) t = true
                            /\ incl t (read ++ c :: text))
          (splitRuns text EmptyString true)).
      { specialize (IH [] true eq_refl). cbn [textOf app] in IH.
        eapply Forall_impl; [|exact IH].
        intros p (t & Hp & Ht & Hin). exists t. repeat split; try assumption.
        intros x Hx. apply in_or_app. right. right. now apply Hin. }
      destruct inRun; [exact Hrest|]. constructor; [|exact Hrest].
      exists read. repeat split; [exact Hread|]. now apply incl_appl, incl_refl.
    + specialize (IH (read ++ [c]) false).
      rewrite textOf_app in IH. cbn [textOf] in IH.
      rewrite append_nil_r, <- app_assoc in IH. cbn [app] in IH.
      apply IH. rewrite forallb_app, Hread. cbn. now rewrite Hc.
Qed.

(** X6.  The coordinate tokens that [polylineToPath] reads from a [points]
    attribute are never empty, and each is the text of characters of the
    attribute none of which is white space or a comma, whatever the
    attribute holds. *)
Theorem point_tokens_hold_no_delimiter :
  forall element : Element,
    let points := orElse (getAttribute element "points") EmptyString in
    Forall (fun token =>
              isEmptyString token = false
              /\ exists t : list string,
                   token = textOf t
                   /\ isToken t = true
                   /\ incl t (characters points))
      (pointTokens element).
Proof.
  intros element points. unfold pointTokens, splitDelimiters. fold points.
  apply Forall_forall. intros token Hin.
  apply filter_In in Hin as (Hin & Hlen).
  rewrite length_positive in Hlen. apply negb_true_iff in Hlen.
  split; [exact Hlen|].
  pose proof (splitRuns_pieces (trim (characters points)) [] false eq_refl)
    as Hall.
  rewrite Forall_forall in Hall.
  destruct (Hall token Hin) as (t & Ht & Hnone & Hincl).
  exists t. split; [exact Ht|]. split.
  - unfold isToken. rewrite Hnone, andb_true_r.
    destruct t; [now subst token | reflexivity].
  - cbn [app] in Hincl. intros x Hx.
    now apply trimStart_incl, trimEnd_incl, Hincl.
Qed.

Lemma not_delimiter_not_space (c : string) :
  isDelimiter c = false -> isWhiteSpace c = false.
Proof. unfold isDelimiter. now intros H%orb_false_iff. Qed.

Lemma trimStart_delimiters (lead : list string) (c : string)
  (text : list string) :
  forallb isDelimiter lead = true ->
  isWhiteSpace c = false ->
  exists lead',
    forallb isDelimiter lead' = true
    /\ trimStart (lead ++ c :: text) = lead' ++ c :: text.
Proof.
  intros Hlead Hc. induction lead as [|d lead IH].
  - exists []. split; [reflexivity|]. cbn. now rewrite Hc.
  - cbn in Hlead. apply andb_prop in Hlead as (Hd & Hrest).
    cbn [app trimStart]. destruct (isWhiteSpace d).
    + now apply IH.
    + exists (d :: lead). split; [|reflexivity]. cbn.
      now rewrite Hd, Hrest.
Qed.

Lemma trimEnd_after (u v : list string) :
  isEmptyText (trimEnd v) = false -> trimEnd (u ++ v) = u ++ trimEnd v.
Proof.
  intros Hv. induction u as [|c u IH]; [reflexivity|].
  cbn [app trimEnd]. rewrite IH.
  destruct (u ++ trimEnd v) eqn:E; [|reflexivity].
  destruct u; [|discriminate]. cbn in E. now rewrite E in Hv.
Qed.

Lemma trimEnd_token (t v : list string) :
  isToken t = true ->
  trimEnd (t ++ v) = t ++ trimEnd v
  /\ isEmptyText (t ++ trimEnd v) = false.
Proof.
  unfold isToken. intros H%andb_prop. destruct H as (Hne & Hall).
  destruct t as [|c t]; [discriminate|]. clear Hne.
  split; [|reflexivity].
  revert c Hall. induction t as [|c' t IH]; intros c Hall; cbn in Hall.
  - cbn [app trimEnd]. apply andb_prop in Hall as (Hc & _).
    apply negb_true_iff, not_delimiter_not_space in Hc.
    rewrite Hc. now destruct (trimEnd v).
  - apply andb_prop in Hall as (Hc & Hrest).
    change ((c :: c' :: t) ++ v) with (c :: (c' :: t) ++ v).
    cbn [trimEnd]. rewrite (IH c' Hrest). reflexivity.
Qed.

Lemma trimEnd_delimiters (trail : list string) :
  forallb isDelimiter trail = true ->
  forallb isDelimiter (trimEnd trail) = true.
Proof.
  induction trail as [|c trail IH]; [reflexivity|]. cbn [forallb trimEnd].
  intros H%andb_prop. destruct H as (Hc & Hrest).
  specialize (IH Hrest).
  destruct (trimEnd trail) eqn:E.
  - destruct (isWhiteSpace c); cbn; now rewrite ?Hc.
  - cbn [forallb] in *. now rewrite Hc, IH.
Qed.

Lemma trimStart_all_delimiters (text : list string) :
  forallb isDelimiter text = true ->
  forallb isDelimiter (trimStart text) = true.
Proof.
  induction text as [|c text IH]; [reflexivity|]. cbn [trimStart].
  intros H. destruct (isWhiteSpace c); [|exact H].
  cbn in H. apply andb_prop in H as (_ & H). now apply IH.
Qed.

Lemma trimEnd_joinTokens (rest : list (list string * list string)) :
  forall t0 trail,
    isToken t0 = true -> separated rest ->
    trimEnd (joinTokens t0 rest ++ trail)
    = joinTokens t0 rest ++ trimEnd trail
    /\ isEmptyText (joinTokens t0 rest ++ trimEnd trail) = false.
Proof.
  induction rest as [|[sep t] rest IH]; intros t0 trail Ht0 Hrest;
    cbn [joinTokens].
  - now apply trimEnd_token.
  - inversion Hrest as [|? ? (Hsep & Ht) Hrest']; subst. cbn in Hsep, Ht.
    destruct (IH t trail Ht Hrest') as (IHeq & IHne).
    rewrite <- !app_assoc. split.
    + rewrite trimEnd_after.
      * rewrite trimEnd_after; [now rewrite IHeq|]. now rewrite IHeq.
      * rewrite trimEnd_after; [|now rewrite IHeq]. rewrite IHeq.
        unfold isSeparator in Hsep. apply andb_prop in Hsep as (Hne & _).
        now destruct sep.
    + unfold isToken in Ht0. apply andb_prop in Ht0 as (Hne & _).
      now destruct t0.
Qed.

Lemma splitRuns_token (t : list string) :
  forall z piece inRun,
    isToken t = true ->
    splitRuns (t ++ z) piece inRun = splitRuns z (piece +++ textOf t) false.
Proof.
  unfold isToken. intros z piece inRun H%andb_prop.
  destruct H as (Hne & Hall).
  destruct t as [|c t]; [discriminate|]. clear Hne.
  revert c piece inRun Hall.
  induction t as [|c' t IH]; intros c piece inRun Hall; cbn in Hall.
  - apply andb_prop in Hall as (Hc & _). apply negb_true_iff in Hc.
    cbn [app splitRuns textOf]. now rewrite Hc, append_nil_r.
  - apply andb_prop in Hall as (Hc & Hrest). apply negb_true_iff in Hc.
    change ((c :: c' :: t) ++ z) with (c :: (c' :: t) ++ z).
    cbn [splitRuns]. rewrite Hc, (IH c' _ false Hrest).
    cbn [textOf]. now rewrite append_assoc.
Qed.

Lemma splitRuns_delimiters (d : list string) :
  forall z,
    forallb isDelimiter d = true ->
    splitRuns (d ++ z) EmptyString true = splitRuns z EmptyString true.
Proof.
  induction d as [|c d IH]; intros z Hall; [reflexivity|].
  cbn in Hall. apply andb_prop in Hall as (Hc & Hrest).
  cbn [app splitRuns]. rewrite Hc. now apply IH.
Qed.

Lemma splitRuns_separator (sep z : list string) (piece : string) :
  isSeparator sep = true ->
  splitRuns (sep ++ z) piece false
  = piece :: splitRuns z EmptyString true.
Proof.
  unfold isSeparator. intros H%andb_prop. destruct H as (Hne & Hall).
  destruct sep as [|c sep]; [discriminate|]. cbn in Hall.
  apply andb_prop in Hall as (Hc & Hrest).
  cbn [app splitRuns]. rewrite Hc.
  now rewrite splitRuns_delimiters.
Qed.

Lemma keepTokens_token (t : list string) (pieces : list string) :
  isToken t = true -> solid t ->
  keepTokens (textOf t :: pieces) = textOf t :: keepTokens pieces.
Proof.
  unfold isToken, keepTokens. intros H%andb_prop Hsolid.
  destruct H as (Hne & _). apply negb_true_iff in Hne.
  cbn [filter]. now rewrite length_positive, textOf_not_empty.
Qed.

Lemma splitRuns_joinTokens (rest : list (list string * list string)) :
  forall t0 trail inRun,
    isToken t0 = true -> separated rest ->
    forallb isDelimiter trail = true ->
    solid (joinTokens t0 rest) ->
    keepTokens (splitRuns (joinTokens t0 rest ++ trail) EmptyString inRun)
    = map textOf (t0 :: map snd rest).
Proof.
  induction rest as [|[sep t] rest IH];
    intros t0 trail inRun Ht0 Hrest Htrail Hsolid; cbn [joinTokens map snd].
  - cbn [joinTokens] in Hsolid.
    rewrite (splitRuns_token t0 trail EmptyString inRun Ht0).
    cbn [String.append].
    destruct trail as [|c trail].
    + cbn [splitRuns]. now rewrite keepTokens_token.
    + rewrite <- (app_nil_r (c :: trail)).
      rewrite splitRuns_separator by (unfold isSeparator; now rewrite Htrail).
      now rewrite keepTokens_token.
  - inversion Hrest as [|? ? (Hsep & Ht) Hrest']; subst. cbn in Hsep, Ht.
    cbn [joinTokens] in Hsolid.
    apply Forall_app in Hsolid as (Hs0 & Hsolid).
    apply Forall_app in Hsolid as (_ & Hsolid).
    rewrite <- !app_assoc.
    rewrite (splitRuns_token t0 _ EmptyString inRun Ht0).
    cbn [String.append].
    rewrite (splitRuns_separator sep _ _ Hsep), keepTokens_token
      by assumption.
    now rewrite (IH t trail true Ht Hrest' Htrail Hsolid).
Qed.

Lemma token_starts (t : list string) :
  isToken t = true ->
  exists c s, t = c :: s /\ isWhiteSpace c = false.
Proof.
  unfold isToken. intros H%andb_prop. destruct H as (Hne & Hall).
  destruct t as [|c s]; [discriminate|]. cbn in Hall.
  apply andb_prop in Hall as (Hc & _).
  apply negb_true_iff, not_delimiter_not_space in Hc. eauto.
Qed.

Lemma joinTokens_starts (t0 : list string)
  (rest : list (list string * list string)) :
  isToken t0 = true ->
  exists c s, joinTokens t0 rest = c :: s /\ isWhiteSpace c = false.
Proof.
  intros (c & s & -> & Hc)%token_starts.
  destruct rest as [|[sep t] rest]; cbn [joinTokens app]; eauto.
Qed.

Lemma orElse_some (s : string) : orElse (Some s) EmptyString = s.
Proof. now destruct s. Qed.

(** X7.  Reading a [points] attribute gives back the tokens it was written
    from: when the characters of the attribute are those of tokens
    separated by runs of white space and commas, with any such characters
    before and after, its coordinate tokens are these tokens, in order; an
    attribute of delimiters only has no token. *)
Theorem point_tokens_of_joined_tokens :
  forall (element : Element) (points : string) (lead trail t0 : list string)
         (rest : list (list string * list string)),
    getAttribute element "points" = Some points ->
    forallb isDelimiter lead = true ->
    forallb isDelimiter trail = true ->
    isToken t0 = true ->
    separated rest ->
    (characters points = lead ++ joinTokens t0 rest ++ trail ->
     pointTokens element = map textOf (t0 :: map snd rest))
    /\ (characters points = lead -> pointTokens element = []).
Proof.
  intros element points lead trail t0 rest Hattr Hlead Htrail Ht0 Hrest.
  unfold pointTokens, splitDelimiters. rewrite Hattr, orElse_some.
  split.
  - intros Hchars.
    fold (keepTokens (splitRuns (trim (characters points)) EmptyString false)).
    pose proof (characters_not_empty points) as Hsolid.
    rewrite Hchars in Hsolid |- *.
    apply Forall_app in Hsolid as (_ & Hsolid).
    apply Forall_app in Hsolid as (Hsolid & _).
    destruct (joinTokens_starts t0 rest Ht0) as (c & s & Hjoin & Hc).
    destruct (trimStart_delimiters lead c (s ++ trail) Hlead Hc)
      as (lead' & Hlead' & Hstart).
    destruct (trimEnd_joinTokens rest t0 trail Ht0 Hrest) as (Hend & Hne).
    unfold trim. rewrite Hjoin. cbn [app]. rewrite Hstart.
    change (c :: s ++ trail) with ((c :: s) ++ trail).
    rewrite <- Hjoin, trimEnd_after by now rewrite Hend.
    rewrite Hend.
    pose proof (trimEnd_delimiters trail Htrail) as Htrail'.
    destruct lead' as [|d lead'].
    + cbn [app]. now apply splitRuns_joinTokens.
    + rewrite splitRuns_separator
        by (unfold isSeparator; now rewrite Hlead').
      unfold keepTokens at 1. cbn [filter String.length Nat.ltb Nat.leb].
      now apply splitRuns_joinTokens.
  - intros Hchars. rewrite Hchars. unfold trim.
    pose proof (trimEnd_delimiters _ (trimStart_all_delimiters lead Hlead))
      as Hd.
    destruct (trimEnd (trimStart lead)) as [|d rest'] eqn:E; [reflexivity|].
    rewrite <- (app_nil_r (d :: rest')).
    rewrite splitRuns_separator by (unfold isSeparator; now rewrite Hd).
    reflexivity.
Qed.

(** Witness of X7: the attribute [" 0,0 _ 10,5 "], where [_] is a no-break
    space written in UTF-8. *)
Lemma point_tokens_of_joined_tokens_witness :
  let nbsp :=
    String (ascii_of_nat 194) (String (ascii_of_nat 160) EmptyString) in
  pointTokens
    (Demo.element "polyline" [("points", " 0,0 " +++ nbsp +++ " 10,5 ")])
  = ["0"; "0"; "10"; "5"].
Proof.
  intros nbsp.
  apply (proj1 (point_tokens_of_joined_tokens
                  (Demo.element "polyline"
                     [("points", " 0,0 " +++ nbsp +++ " 10,5 ")])
                  (" 0,0 " +++ nbsp +++ " 10,5 ")
                  [" "] [" "] ["0"]
                  [([","], ["0"]); ([" "; nbsp; " "], ["1"; "0"]);
                   ([","], ["5"])]
                  eq_refl eq_refl eq_refl eq_refl
                  ltac:(repeat constructor))).
  reflexivity.
Defined.

Lemma lineSegments_odd (ts : list string) (t : string) :
  Nat.even (List.length ts) = true ->
  lineSegments (ts ++ [t]) = lineSegments ts.
Proof.
  induction ts as [| a | a b rest IH] using pair_induction; intros Heven;
    try reflexivity; try discriminate.
  cbn [app lineSegments]. now rewrite IH.
Qed.

(** X8.  A coordinate left alone at the end of a [points] attribute is
    ignored: a polyline or polygon with an odd number of coordinate tokens
    reduces to the same path as the one without its last token. *)
Theorem odd_last_token_is_dropped :
  forall (longer shorter : Element) (t : string),
    pointTokens longer = pointTokens shorter ++ [t] ->
    Nat.even (List.length (pointTokens shorter)) = true ->
    polylineToPath longer = polylineToPath shorter
    /\ polygonToPath longer = polygonToPath shorter.
Proof.
  intros longer shorter t Htokens Heven.
  assert (Hpoly : polylineToPath longer = polylineToPath shorter).
  { rewrite !polylineToPath_moveLinePath, Htokens.
    destruct (pointTokens shorter) as [|p0 [|p1 rest]];
      try reflexivity; try discriminate.
    cbn [app moveLinePath]. now rewrite lineSegments_odd. }
  split; [exact Hpoly|]. unfold polygonToPath. now rewrite Hpoly.
Qed.

(** Witness of X8: [0,0 10,5 7] and [0,0 10,5]. *)
Lemma odd_last_token_is_dropped_witness :
  polylineToPath (Demo.element "polyline" [("points", "0,0 10,5 7")])
  = polylineToPath (Demo.element "polyline" [("points", "0,0 10,5")]).
Proof.
  exact (proj1 (odd_last_token_is_dropped
                  (Demo.element "polyline" [("points", "0,0 10,5 7")])
                  (Demo.element "polyline" [("points", "0,0 10,5")])
                  "7" eq_refl eq_refl)).
Defined.

(** With a no-break space between its last two coordinates the attribute
    [0 0 1_2] has four tokens, not three: nothing is dropped. *)
Example no_break_space_ends_a_token :
  let nbsp :=
    String (ascii_of_nat 194) (String (ascii_of_nat 160) EmptyString) in
  polylineToPath
    (Demo.element "polyline" [("points", "0 0 1" +++ nbsp +++ "2")])
  = "M 0,0 L 1,2".
Proof. reflexivity. Qed.

(** ** Which elements are skipped as empty *)

(** X9.  Whether the loop skips an element for empty path data: a path
    when its [d] is missing or blank; a polyline or polygon when it has
    fewer than two coordinate tokens; a rect, circle, ellipse or line
    never, whatever its attributes; an element of any other type always. *)
Theorem elements_skipped_as_empty :
  forall (P : Platform) (element : Element) (type : string),
    isBlank (pathDataOf element type)
    = if String.eqb type "path"
      then match getAttribute element "d" with
           | Some d => isEmptyText (trim (characters d))
           | None => true
           end
      else if existsb (String.eqb type) ["rect"; "circle"; "ellipse"; "line"]
      then false
      else if existsb (String.eqb type) ["polyline"; "polygon"]
      then Nat.ltb (List.length (pointTokens element)) 2
      else true.
Proof.
  intros P element type. unfold pathDataOf.
  destruct (String.eqb type "path") eqn:Hpath.
  { destruct (getAttribute element "d") as [d|]; [|reflexivity].
    cbn [isBlank]. now destruct d. }
  unfold convertBasicShapeToPath. cbn [existsb].
  destruct (String.eqb type "rect") eqn:Hrect.
  { cbn [orb]. unfold rectToPath.
    destruct (jsIsZero _ && jsIsZero _)%bool; apply isBlank_starts_with_M. }
  destruct (String.eqb type "circle") eqn:Hcircle;
    [apply isBlank_starts_with_M|].
  destruct (String.eqb type "ellipse") eqn:Hellipse;
    [apply isBlank_starts_with_M|].
  destruct (String.eqb type "line") eqn:Hline;
    [apply isBlank_starts_with_M|].
  cbn [orb].
  destruct (String.eqb type "polyline") eqn:Hpolyline.
  { cbn [orb]. rewrite polylineToPath_moveLinePath.
    destruct (pointTokens element) as [|p0 [|p1 rest]]; try reflexivity.
    destruct (moveLinePath_starts_with_M p0 p1 rest) as (s & ->).
    apply isBlank_starts_with_M. }
  destruct (String.eqb type "polygon") eqn:Hpolygon; [|reflexivity].
  cbn [orb]. unfold polygonToPath. rewrite polylineToPath_moveLinePath.
  destruct (pointTokens element) as [|p0 [|p1 rest]]; try reflexivity.
  destruct (moveLinePath_starts_with_M p0 p1 rest) as (s & ->).
  cbn [isEmptyString String.append]. apply isBlank_starts_with_M.
Qed.

(** The white space that makes a [d] blank: the characters of [\s], in
    UTF-8 or as single bytes, among them the line separator and the
    byte-order mark; a next-line character is not one of them. *)
Example blank_path_data :
  let bytes (codes : list nat) :=
    fold_right (fun n s => String (ascii_of_nat n) s) EmptyString codes in
  let blank (d : string) :=
    isBlank (pathDataOf (P := Demo.platform [])
               (Demo.element "path" [("d", d)]) "path") in
  blank (bytes [32; 9; 10; 13]%nat) = true
  /\ blank (bytes [194; 160]%nat) = true
  /\ blank (bytes [160]%nat) = true
  /\ blank (bytes [226; 128; 168; 239; 187; 191; 227; 128; 128]%nat) = true
  /\ blank (bytes [194; 133]%nat) = false
  /\ blank (bytes [195; 160]%nat) = false
  /\ blank "M" = false.
Proof. repeat split. Qed.

(** ** Further properties of the document loop *)

Section LoopCounters.
Context {IEdge IWire : Type} `{F : IShapeFactory IEdge IWire} `{P : Platform}.

Lemma outcomesFrom_length (items : list (Element * string)) :
  forall k, List.length (outcomesFrom k items) = List.length items.
Proof.
  induction items as [|item rest IH]; intros k; [reflexivity|].
  cbn [outcomesFrom List.length]. now rewrite IH.
Qed.

Lemma nodes_and_failures (os : list (Outcome (IWire := IWire))) :
  (List.length (nodesOf os) + failuresOf os <= List.length os)%nat.
Proof.
  unfold nodesOf, failuresOf.
  induction os as [|o os IH]; [apply le_n|].
  cbn [flat_map filter]. rewrite length_app.
  destruct o; cbn [nodeOf isFailure List.length]; lia.
Qed.

(** What an imported element leaves in the folder. *)
Lemma outcomeOf_imported (index : nat) (item : Element * string)
  (node : EditableShapeNode) :
  outcomeOf index item = Imported node ->
  nodeName node = elementNameOf (fst item) index
  /\ exists (commands : list SVGCommand) (es : list IEdge),
       svgPathAbs (orElse (pathDataOf (fst item) (snd item)) EmptyString)
       = Ok commands
       /\ es = successes (attempted commands)
       /\ es <> []
       /\ wire es = Ok (shape node).
Proof.
  destruct item as [element type]. unfold outcomeOf. cbn [fst snd].
  destruct (isBlank _); [discriminate|].
  destruct (svgPathAbs _) as [commands|]; [|discriminate].
  destruct (successes (attempted commands)) as [|e es] eqn:Hes;
    [discriminate|].
  destruct (wire (e :: es)) as [value|] eqn:Hw; [|discriminate].
  intros H. injection H as <-. split; [reflexivity|].
  exists commands, (e :: es). cbn [shape].
  repeat split; [now symmetry | discriminate | exact Hw].
Qed.

(** Every node of the outcomes comes from one element. *)
Lemma nodesOf_outcomesFrom (items : list (Element * string)) :
  forall k node,
    In node (nodesOf (outcomesFrom k items)) ->
    exists i item,
      nth_error items i = Some item
      /\ outcomeOf (S (k + i)) item = Imported node.
Proof.
  unfold nodesOf.
  induction items as [|item rest IH]; intros k node Hin; [contradiction|].
  cbn [outcomesFrom flat_map] in Hin. apply in_app_or in Hin as [Hin|Hin].
  - exists 0%nat, item. rewrite Nat.add_0_r. split; [reflexivity|].
    destruct (outcomeOf (S k) item); try contradiction.
    destruct Hin as [->|[]]. reflexivity.
  - destruct (IH (S k) node Hin) as (i & it & Hnth & Ho).
    exists (S i), it. split; [exact Hnth|].
    now replace (k + S i)%nat with (S k + i)%nat by lia.
Qed.

End LoopCounters.

(** X10.  The counters of the loop agree with the folder: the count of
    successes is the number of nodes of the folder, successes and failures
    together do not exceed the number of elements, and the elements are
    numbered from one to their number. *)
Theorem counters_agree_with_the_folder :
  forall (IEdge IWire : Type) (F : IShapeFactory IEdge IWire) (P : Platform)
         (logs0 : list string) (items : list (Element * string)),
    let done := importElements logs0 items in
    successCount done = count (folder done)
    /\ (successCount done + failCount done <= List.length items)%nat
    /\ elementIndex done = List.length items
    /\ (count (folder done) <= List.length items)%nat.
Proof.
  intros IEdge IWire F P logs0 items done.
  destruct (importElements_outcomes logs0 items) as (Hf & Hs & Hfail & Hi).
  fold done in Hf, Hs, Hfail, Hi.
  pose proof (nodes_and_failures (outcomes items)) as Hle.
  unfold outcomes in Hle at 3. rewrite outcomesFrom_length in Hle.
  unfold count. rewrite Hf, Hs, Hfail, Hi. cbn [children].
  repeat split; lia.
Qed.

Lemma orElse_not_empty (a : option string) (b : string) :
  isEmptyString b = false -> isEmptyString (orElse a b) = false.
Proof.
  intros Hb. destruct a as [s|]; [|exact Hb]. cbn [orElse].
  now destruct (isEmptyString s) eqn:E.
Qed.

Lemma elementNameOf_not_empty (element : Element) (index : nat) :
  isEmptyString (elementNameOf element index) = false.
Proof. unfold elementNameOf. now repeat apply orElse_not_empty. Qed.

(** X11.  Every node of the folder carries the name of one element of the
    loop, found at its position: the [id] of the element when it has one
    that is not empty, else its [data-name] when that is not empty, else
    [Element] and its number; the name is never empty. *)
Theorem nodes_are_named_after_their_elements :
  forall (IEdge IWire : Type) (F : IShapeFactory IEdge IWire) (P : Platform)
         (logs0 : list string) (items : list (Element * string)),
    Forall (fun node =>
              isEmptyString (nodeName node) = false
              /\ exists i element type,
                   nth_error items i = Some (element, type)
                   /\ nodeName node
                      = orElse (getAttribute element "id")
                          (orElse (getAttribute element "data-name")
                             ("Element " +++ natToString (S i))))
      (children (folder (importElements logs0 items))).
Proof.
  intros IEdge IWire F P logs0 items.
  destruct (importElements_outcomes logs0 items) as (-> & _).
  cbn [children]. apply Forall_forall. intros node Hin.
  destruct (nodesOf_outcomesFrom items 0 node Hin)
    as (i & [element type] & Hnth & Ho).
  destruct (outcomeOf_imported _ _ _ Ho) as (Hname & _).
  cbn [fst] in Hname. rewrite Hname. split.
  - apply elementNameOf_not_empty.
  - now exists i, element, type.
Qed.

(** X12.  Every node of the folder wraps a wire that the kernel built from
    the edges of the path of one element, the element whose name the node
    carries: the path data of that element, read by the grammar and
    interpreted, gave these edges, and at least one.  So a kernel that
    builds neither line nor curve makes every conversion fail. *)
Theorem nodes_hold_wires_of_edges :
  forall (IEdge IWire : Type) (F : IShapeFactory IEdge IWire) (P : Platform),
    (forall (logs0 : list string) (items : list (Element * string)),
        Forall (fun node =>
                  exists (i : nat) (element : Element) (type : string)
                         (commands : list SVGCommand) (es : list IEdge),
                    nth_error items i = Some (element, type)
                    /\ nodeName node = elementNameOf element (S i)
                    /\ svgPathAbs
                         (orElse (pathDataOf element type) EmptyString)
                       = Ok commands
                    /\ es = successes (Drawing.primitives commands)
                    /\ (forall logs1 : list string,
                           fst (convertPathToEdges logs1
                                  (orElse (pathDataOf element type)
                                     EmptyString))
                           = Ok es)
                    /\ es <> []
                    /\ wire es = Ok (shape node))
          (children (folder (importElements logs0 items))))
    /\ ((forall a b, isOk (line a b) = false) ->
        (forall ps, isOk (bezier ps) = false) ->
        forall svgContent : string,
          isOk (fst (convertFromSVG svgContent)) = false).
Proof.
  intros IEdge IWire F P. split.
  - intros logs0 items.
    destruct (importElements_outcomes logs0 items) as (-> & _).
    cbn [children]. apply Forall_forall. intros node Hin.
    destruct (nodesOf_outcomesFrom items 0 node Hin)
      as (i & [element type] & Hnth & Ho).
    destruct (outcomeOf_imported _ _ _ Ho)
      as (Hname & commands & es & Hcmds & Hes & Hne & Hw).
    cbn [fst snd] in Hname, Hcmds.
    rewrite attempted_primitives in Hes.
    exists i, element, type, commands, es.
    repeat split; try assumption.
    intros logs1. now rewrite convertPathToEdges_primitives, Hcmds, Hes.
  - intros Hline Hbezier svgContent.
    destruct (convertFromSVG_cases svgContent)
      as [(_ & Herr)|((_ & _ & Hnodes) & _)]; [exact Herr|].
    exfalso. apply Hnodes.
    destruct (nodesOf (outcomes (allElements (parseFromString svgContent))))
      as [|node nodes] eqn:Hn; [reflexivity|].
    assert (Hin : In node
              (nodesOf (outcomes (allElements (parseFromString svgContent)))))
      by (rewrite Hn; now left).
    destruct (nodesOf_outcomesFrom _ 0 node Hin) as (i & item & _ & Ho).
    destruct (outcomeOf_imported _ _ _ Ho)
      as (_ & commands & es & _ & Hes & Hne & _).
    exfalso. apply Hne. rewrite Hes.
    assert (Hnone : forall ps, successes ps = []).
    { induction ps as [|p ps IH]; [reflexivity|].
      change (p :: ps) with ([p] ++ ps). rewrite successes_app, IH.
      unfold successes. cbn.
      destruct p as [a b|pts]; cbn.
      - specialize (Hline a b). now destruct (line a b).
      - specialize (Hbezier pts). now destruct (bezier pts). }
    apply Hnone.
Qed.

(** Witness of X12: with the kernel that builds nothing, the conversion of
    a triangle fails. *)
Lemma nodes_hold_wires_of_edges_witness :
  isOk (fst (convertFromSVG (F := Demo.failing)
               (P := Demo.platform
                       [Demo.element "path" [("d", "M0,0 L10,0 L10,10 Z")]])
               EmptyString)) = false.
Proof.
  apply (proj2 (nodes_hold_wires_of_edges _ _ Demo.failing
                  (Demo.platform
                     [Demo.element "path" [("d", "M0,0 L10,0 L10,10 Z")]])));
    reflexivity.
Defined.

(** ** The elements that are processed *)

Lemma filter_disjoint_app {A : Type} (p q : A -> bool) (l : list A) :
  (forall x, p x = true -> q x = false) ->
  Permutation (filter p l ++ filter q l)
    (filter (fun x => (p x || q x)%bool) l).
Proof.
  intros Hdisjoint. induction l as [|x l IH]; [constructor|].
  cbn [filter]. destruct (p x) eqn:Hp.
  - rewrite (Hdisjoint x Hp). cbn. now constructor.
  - destruct (q x); cbn; [|exact IH].
    etransitivity; [symmetry; apply Permutation_middle|]. now constructor.
Qed.

(** The elements of the given tags, tag by tag, are the elements whose tag
    is among them. *)
Lemma elements_by_tag (tags : list string) (svgDoc : list Element) :
  NoDup tags ->
  Permutation
    (flat_map (fun tag => querySelectorAll svgDoc tag) tags)
    (filter (fun e => existsb (String.eqb (tagName e)) tags) svgDoc).
Proof.
  intros Hnodup. induction Hnodup as [|tag tags Hnotin Hnodup IH].
  - cbn. induction svgDoc as [|e l IHl]; [constructor | exact IHl].
  - cbn [flat_map existsb].
    etransitivity; [apply Permutation_app_head, IH|].
    apply (filter_disjoint_app
             (fun e => String.eqb (tagName e) tag)
             (fun e => existsb (String.eqb (tagName e)) tags)).
    intros e He. apply String.eqb_eq in He.
    destruct (existsb (String.eqb (tagName e)) tags) eqn:Hex;
      [|reflexivity].
    apply existsb_exists in Hex as (t & Hin & Ht).
    apply String.eqb_eq in Ht. congruence.
Qed.

(** X13.  The loop processes exactly the elements of the document whose
    tag is one of the seven supported ones, each of them once, and each
    under the type that is its tag. *)
Theorem supported_elements_are_processed_once :
  forall svgDoc : list Element,
    Permutation (map fst (allElements svgDoc)) (filter isSupported svgDoc)
    /\ Forall (fun item =>
                 tagName (fst item) = snd item
                 /\ In (snd item) supportedTypes)
         (allElements svgDoc)
    /\ List.length (allElements svgDoc)
       = List.length (filter isSupported svgDoc).
Proof.
  intros svgDoc.
  assert (Hperm : Permutation (map fst (allElements svgDoc))
                    (filter isSupported svgDoc)).
  { unfold allElements. rewrite !map_app, !map_fst_withType.
    etransitivity; [|apply (elements_by_tag supportedTypes)].
    - cbn [flat_map supportedTypes]. now rewrite app_nil_r.
    - unfold supportedTypes.
      repeat constructor; cbn; intuition discriminate. }
  split; [exact Hperm|]. split.
  - unfold allElements, withType, querySelectorAll.
    repeat (apply Forall_app; split);
      apply Forall_forall; intros item Hin;
      apply in_map_iff in Hin as (e & <- & Hin);
      apply filter_In in Hin as (_ & Htag); apply String.eqb_eq in Htag;
      (split; [exact Htag | cbn; tauto]).
  - rewrite <- (length_map fst). now apply Permutation_length.
Qed.

(** ** The two versions of the converter *)

Section LegacyFacts.
Context {IEdge IWire : Type} `{F : IShapeFactory IEdge IWire} `{P : Platform}.

Lemma legacy_step (ll : Legacy.Loop) (l : Loop) (cmd : SVGCommand) :
  Legacy.state ll = state l -> Legacy.edges ll = edges l ->
  Legacy.state (Legacy.step ll cmd) = state (step l cmd)
  /\ Legacy.edges (Legacy.step ll cmd) = edges (step l cmd).
Proof.
  intros Hs He.
  destruct cmd; cbn -[quadraticToCubic]; rewrite ?Hs, ?He;
    split; reflexivity.
Qed.

Lemma legacy_fold (commands : list SVGCommand) :
  forall (ll : Legacy.Loop) (l : Loop),
    Legacy.state ll = state l -> Legacy.edges ll = edges l ->
    Legacy.edges (fold_left Legacy.step commands ll)
    = edges (fold_left step commands l).
Proof.
  induction commands as [|cmd rest IH]; intros ll l Hs He; [exact He|].
  cbn [fold_left].
  destruct (legacy_step ll l cmd Hs He) as (Hs' & He'). now apply IH.
Qed.

Lemma legacy_convertPathToEdges (console0 : list string)
  (pathData : string) :
  fst (Legacy.convertPathToEdges console0 pathData)
  = match svgPathAbs pathData with
    | Ok commands => Ok (successes (attempted commands))
    | Err error => Err ("Path conversion error: " +++ error)
    end.
Proof.
  unfold Legacy.convertPathToEdges.
  destruct (svgPathAbs pathData) as [commands|error]; [|reflexivity].
  cbn [fst]. f_equal.
  rewrite <- (runCommands_edges [] commands). unfold runCommands.
  now apply legacy_fold.
Qed.

(** One turn of the loop of the first version. *)
Lemma legacy_processPath (acc : Legacy.Import) (pathElement : Element) :
  children (Legacy.folder (Legacy.processPath acc pathElement))
  = children (Legacy.folder acc) ++ legacyNode (Legacy.index acc) pathElement
  /\ groupName (Legacy.folder (Legacy.processPath acc pathElement))
     = groupName (Legacy.folder acc)
  /\ Legacy.index (Legacy.processPath acc pathElement)
     = S (Legacy.index acc).
Proof.
  unfold Legacy.processPath, legacyNode, outcomeOf.
  change (pathDataOf pathElement "path")
    with (getAttribute pathElement "d").
  destruct (isBlank (getAttribute pathElement "d")).
  { cbn. now rewrite app_nil_r. }
  pose proof (legacy_convertPathToEdges (Legacy.warnings acc)
                (orElse (getAttribute pathElement "d") EmptyString)) as Hres.
  destruct (Legacy.convertPathToEdges _ _) as [res w]. cbn [fst] in Hres.
  subst res.
  destruct (svgPathAbs _) as [commands|error];
    [|cbn; now rewrite app_nil_r].
  destruct (successes (attempted commands)) as [|e es];
    [cbn; now rewrite app_nil_r|].
  destruct (wire (e :: es)) as [value|error];
    [|cbn; now rewrite app_nil_r].
  cbn. repeat split.
Qed.

Lemma legacy_fold_processPath (pathElements : list Element) :
  forall acc : Legacy.Import,
    children (Legacy.folder (fold_left Legacy.processPath pathElements acc))
    = children (Legacy.folder acc)
        ++ legacyNodesFrom (Legacy.index acc) pathElements
    /\ groupName
         (Legacy.folder (fold_left Legacy.processPath pathElements acc))
       = groupName (Legacy.folder acc).
Proof.
  induction pathElements as [|e rest IH]; intros acc.
  - cbn. now rewrite app_nil_r.
  - cbn [fold_left legacyNodesFrom].
    destruct (IH (Legacy.processPath acc e)) as (-> & ->).
    destruct (legacy_processPath acc e) as (-> & -> & ->).
    now rewrite app_assoc.
Qed.

(** The nodes of the two versions hold the same wires, and the same names
    when every path has an [id]. *)
Lemma legacy_nodes (pathElements : list Element) :
  forall k,
    map shape (legacyNodesFrom k pathElements)
    = map shape (nodesOf (outcomesFrom k (withType "path" pathElements)))
    /\ (forallb hasId pathElements = true ->
        legacyNodesFrom k pathElements
        = nodesOf (outcomesFrom k (withType "path" pathElements))).
Proof.
  unfold nodesOf.
  induction pathElements as [|e rest IH]; intros k; [now split|].
  destruct (IH (S k)) as (IHshape & IHname).
  cbn [legacyNodesFrom withType map outcomesFrom flat_map].
  fold (withType "path" rest). split.
  - rewrite !map_app, IHshape. f_equal. unfold legacyNode.
    now destruct (outcomeOf (S k) (e, "path")).
  - cbn [forallb]. intros H%andb_prop. destruct H as (Hid & Hrest).
    rewrite (IHname Hrest). f_equal. unfold legacyNode.
    destruct (outcomeOf (S k) (e, "path")) as [node| | | |] eqn:Ho;
      try reflexivity.
    destruct (outcomeOf_imported _ _ _ Ho) as (Hname & _).
    cbn [nodeOf fst] in *. destruct node as [name value].
    cbn [nodeName shape] in *. subst name. f_equal. f_equal.
    unfold elementNameOf, hasId in *.
    destruct (getAttribute e "id") as [s|]; [|discriminate].
    cbn [orElse] in *. now destruct (isEmptyString s).
Qed.

End LegacyFacts.

(** X14.  The two versions of [convertPathToEdges] in the file return the
    same result for every path data: the same edges, or the same error. *)
Theorem both_versions_give_the_same_edges :
  forall (IEdge IWire : Type) (F : IShapeFactory IEdge IWire) (P : Platform)
         (console0 logs0 : list string) (pathData : string),
    fst (Legacy.convertPathToEdges console0 pathData)
    = fst (convertPathToEdges logs0 pathData).
Proof.
  intros. now rewrite legacy_convertPathToEdges, convertPathToEdges_result.
Qed.

(** X15.  On a document whose supported elements are all paths, the two
    versions of [convertFromSVG] succeed together and their folders hold
    the same wires in the same order, under the same folder name; when
    every path has an [id] that is not empty the two folders are equal. *)
Theorem both_versions_agree_on_paths :
  forall (IEdge IWire : Type) (F : IShapeFactory IEdge IWire) (P : Platform)
         (svgContent : string),
    let svgDoc := parseFromString svgContent in
    let pathElements := querySelectorAll svgDoc "path" in
    allElements svgDoc = withType "path" pathElements ->
    isOk (fst (Legacy.convertFromSVG svgContent))
    = isOk (fst (convertFromSVG svgContent))
    /\ forall g g' : GroupNode,
         fst (convertFromSVG svgContent) = Ok g ->
         fst (Legacy.convertFromSVG svgContent) = Ok g' ->
         groupName g' = groupName g
         /\ map shape (children g') = map shape (children g)
         /\ (forallb hasId pathElements = true -> g' = g).
Proof.
  intros IEdge IWire F P svgContent svgDoc pathElements Hall.
  destruct (legacy_nodes pathElements 0) as (Hshape & Hname).
  assert (Hnodes :
    nodesOf (outcomes (allElements svgDoc))
    = nodesOf (outcomesFrom 0 (withType "path" pathElements)))
    by (unfold outcomes; now rewrite Hall).
  assert (Hlen : List.length (allElements svgDoc)
                 = List.length pathElements)
    by (rewrite Hall; unfold withType; apply length_map).
  unfold Legacy.convertFromSVG. fold svgDoc pathElements.
  destruct (legacy_fold_processPath pathElements
              {| Legacy.folder :=
                   {| groupName := "SVG Import"; children := [] |};
                 Legacy.index := 0; Legacy.warnings := [] |})
    as (Hchildren & Hgroup).
  cbn [Legacy.folder Legacy.index children groupName app] in Hchildren, Hgroup.
  destruct (fold_left Legacy.processPath pathElements _) as [[gname kids] i w].
  cbn [Legacy.folder Legacy.warnings children groupName] in *.
  subst gname kids.
  destruct (convertFromSVG_cases svgContent)
    as [(Hdoc & Herr)|((Hnoerr & Hne & Hnn) & Hres)];
    fold svgDoc in Hdoc || fold svgDoc in Hnoerr, Hne, Hnn, Hres.
  - rewrite Herr. split.
    + destruct (querySelector svgDoc "parsererror"); [reflexivity|].
      destruct pathElements as [|e rest] eqn:Hp; [reflexivity|].
      cbn [List.length Nat.eqb].
      destruct Hdoc as [Hdoc|[Hdoc|Hdoc]].
      * now contradiction Hdoc.
      * rewrite Hall in Hdoc. discriminate.
      * rewrite Hnodes in Hdoc.
        assert (Hk : legacyNodesFrom 0 (e :: rest) = []).
        { destruct (legacyNodesFrom 0 (e :: rest)) as [|n ns];
            [reflexivity|].
          rewrite Hdoc in Hshape. discriminate. }
        now rewrite Hk.
    + intros g g' Hg. rewrite Hg in Herr. discriminate.
  - rewrite Hres. rewrite Hnoerr.
    assert (Hp : Nat.eqb (List.length pathElements) 0 = false).
    { apply Nat.eqb_neq. rewrite <- Hlen.
      destruct (allElements svgDoc); [now contradiction Hne | discriminate]. }
    rewrite Hp.
    assert (Hk : Nat.eqb (List.length (legacyNodesFrom 0 pathElements)) 0
                 = false).
    { apply Nat.eqb_neq. rewrite <- (length_map shape), Hshape, length_map.
      rewrite <- Hnodes.
      destruct (nodesOf (outcomes (allElements svgDoc)));
        [now contradiction Hnn | discriminate]. }
    rewrite Hk. split; [reflexivity|].
    intros g g' Hg Hg'. injection Hg as <-. cbn [fst] in Hg'.
    injection Hg' as <-. cbn [groupName children].
    rewrite Hnodes. repeat split; [exact Hshape|].
    intros Hid. now rewrite (Hname Hid).
Qed.

(** Witness of X15: two paths with an [id]. *)
Lemma both_versions_agree_on_paths_witness :
  let svgDoc :=
    [Demo.element "path" [("id", "a"); ("d", "M0,0 L10,0 L10,10 Z")];
     Demo.element "g" [];
     Demo.element "path" [("id", "b"); ("d", "M0,0 Q 5,5 10,0")]] in
  isOk (fst (Legacy.convertFromSVG (F := recorder)
               (P := Demo.platform svgDoc) EmptyString))
  = isOk (fst (convertFromSVG (F := recorder) (P := Demo.platform svgDoc)
                 EmptyString)).
Proof.
  intros svgDoc.
  exact (proj1 (both_versions_agree_on_paths _ _ recorder
                  (Demo.platform svgDoc) EmptyString eq_refl)).
Defined.

(** ** Shifting a path *)

Ltac points :=
  unfold XYZ.eq, Vec.add in *; cbn [XYZ.x XYZ.y XYZ.z] in *;
  repeat match goal with
         | H : _ /\ _ |- _ => destruct H
         end.

(** One command on a state and the shifted command on the moved state. *)
Lemma step_shifted `{P : Platform} (dx dy : Q) (st st' : PathState)
  (cmd : SVGCommand) :
  let v := XYZ.new dx (- dy) 0 in
  let next (s : PathState) (c : SVGCommand) :=
    state (step (F := recorder)
             {| state := s; edges := []; logs := [] |} c) in
  isClose cmd = false ->
  movedState v st st' \/ isMove cmd = true ->
  movedState v (next st cmd) (next st' (shiftCommand dx dy cmd))
  /\ Forall2 samePrimitive
       (stepAttempts st' (shiftCommand dx dy cmd))
       (map (movedPrimitive v) (stepAttempts st cmd)).
Proof.
  cbv zeta. intros Hclose [Hst|Hmove].
  2:{ destruct cmd; try discriminate. split; [|constructor].
      unfold movedState. cbn. points. repeat split; ring. }
  destruct st as [[cx cy cz] [sx sy sz] lcp],
           st' as [[cx' cy' cz'] [sx' sy' sz'] lcp'].
  unfold movedState in Hst. cbn [currentPoint pathStartPoint
    lastControlPoint] in Hst.
  destruct Hst as (Hc & Hs & Hl).
  assert (Hr : XYZ.eq
                 (reflectedControlPoint
                    {| currentPoint := XYZ.new cx' cy' cz';
                       pathStartPoint := XYZ.new sx' sy' sz';
                       lastControlPoint := lcp' |})
                 (Vec.add
                    (reflectedControlPoint
                       {| currentPoint := XYZ.new cx cy cz;
                          pathStartPoint := XYZ.new sx sy sz;
                          lastControlPoint := lcp |})
                    (XYZ.new dx (- dy) 0))).
  { unfold reflectedControlPoint. cbn [lastControlPoint currentPoint].
    destruct lcp as [[lx ly lz]|], lcp' as [[lx' ly' lz']|];
      try contradiction; points; repeat split; try lra. }
  destruct Hr as (Hrx & Hry & Hrz). revert Hrx Hry Hrz.
  destruct cmd; try discriminate; unfold movedState, stepAttempts;
    cbn -[reflectedControlPoint].
  all: generalize (reflectedControlPoint
                     {| currentPoint := XYZ.new cx' cy' cz';
                        pathStartPoint := XYZ.new sx' sy' sz';
                        lastControlPoint := lcp' |})
                  (reflectedControlPoint
                     {| currentPoint := XYZ.new cx cy cz;
                        pathStartPoint := XYZ.new sx sy sz;
                        lastControlPoint := lcp |}).
  all: intros [rx' ry' rz'] [rx ry rz] Hrx Hry Hrz.
  all: split; [|repeat constructor].
  all: try (destruct lcp as [[lx ly lz]|], lcp' as [[lx' ly' lz']|];
            try contradiction).
  all: points; change (2 / 3) with (2 # 3); repeat split; lra.
Qed.

Lemma attemptsFrom_shifted `{P : Platform} (dx dy : Q)
  (commands : list SVGCommand) :
  forall st st',
    forallb (fun cmd => negb (isClose cmd)) commands = true ->
    movedState (XYZ.new dx (- dy) 0) st st'
    \/ match commands with
       | cmd :: _ => isMove cmd = true
       | [] => True
       end ->
    Forall2 samePrimitive
      (attemptsFrom st' (map (shiftCommand dx dy) commands))
      (map (movedPrimitive (XYZ.new dx (- dy) 0)) (attemptsFrom st commands)).
Proof.
  induction commands as [|cmd rest IH]; intros st st' Hall H; [constructor|].
  cbn [forallb] in Hall. apply andb_prop in Hall as (Hcmd & Hrest).
  apply negb_true_iff in Hcmd.
  cbn [map attemptsFrom]. rewrite map_app.
  destruct (step_shifted dx dy st st' cmd Hcmd H) as (Hnext & Hprims).
  apply Forall2_app; [exact Hprims|]. apply IH; [exact Hrest | now left].
Qed.

(** X16.  Shifting a path without [CLOSE_PATH] shifts its primitives: when
    the coordinates of the commands of a path that starts with a move are
    all shifted by [(dx, dy)], the interpreter asks for the same
    primitives, in the same order, moved by [(dx, -dy, 0)], in exact
    arithmetic. *)
Theorem shifted_path_gives_shifted_primitives :
  forall (P : Platform) (dx dy x y : Q) (rest : list SVGCommand),
    forallb (fun cmd => negb (isClose cmd)) rest = true ->
    Forall2 samePrimitive
      (attempted (map (shiftCommand dx dy) (MOVE_TO x y :: rest)))
      (map (movedPrimitive (XYZ.new dx (- dy) 0))
         (attempted (MOVE_TO x y :: rest))).
Proof.
  intros P dx dy x y rest Hrest. rewrite !attempted_from_initial.
  apply attemptsFrom_shifted; [exact Hrest | now right].
Qed.

(** Witness of X16: a line and a smooth curve, shifted by [(1, 2)]. *)
Lemma shifted_path_gives_shifted_primitives_witness :
  Forall2 samePrimitive
    (attempted (P := Demo.platform [])
       [MOVE_TO 1 2; LINE_TO 5 2; SMOOTH_QUAD_TO 9 6])
    (map (movedPrimitive (XYZ.new 1 (- (2)) 0))
       (attempted (P := Demo.platform [])
          [MOVE_TO 0 0; LINE_TO 4 0; SMOOTH_QUAD_TO 8 4])).
Proof.
  exact (shifted_path_gives_shifted_primitives (Demo.platform []) 1 2 0 0
           [LINE_TO 4 0; SMOOTH_QUAD_TO 8 4] eq_refl).
Defined.

(** With a [CLOSE_PATH] the shifted path can draw another number of
    primitives: [M 0,0 L 0.001,0 Z], with the double [0.001], draws one
    line, and the same path shifted by [3/10] to the right draws two. *)
Example shifted_close_path :
  let d := 1152921504606847 # 1152921504606846976 in
  let path := [MOVE_TO 0 0; LINE_TO d 0; CLOSE_PATH] in
  List.length (attempted (P := Demo.platform []) path) = 1%nat
  /\ List.length (attempted (P := Demo.platform [])
                    (map (shiftCommand (3 # 10) 0) path)) = 2%nat.
Proof. split; vm_compute; reflexivity. Qed.

(** ** The debug log *)

Lemma logLines_nth `{P : Platform} (messages : list string) :
  forall n i message,
    nth_error messages i = Some message ->
    nth_error (logLines n messages) i = Some (logLine (n + i) message).
Proof.
  induction messages as [|m ms IH]; intros n [|i] message H;
    try discriminate.
  - injection H as <-. cbn. now rewrite Nat.add_0_r.
  - cbn [logLines nth_error]. rewrite (IH (S n) i message H).
    do 2 f_equal. lia.
Qed.

(** X17.  The log of a conversion is the lines of its messages, each
    between brackets after the time at which it was written: first that
    the import started, then that the content was parsed, then the parser
    error or the count of the elements found, then the messages of the
    elements one after the other and the count of the successes and
    failures.  A conversion that fails returns one of three messages
    followed by the whole log, line by line. *)
Theorem failure_carries_the_log :
  forall (IEdge IWire : Type) (F : IShapeFactory IEdge IWire) (P : Platform)
         (svgContent : string),
    let result := fst (convertFromSVG svgContent) in
    let logs := snd (convertFromSVG svgContent) in
    let svgDoc := parseFromString svgContent in
    let items := allElements svgDoc in
    logs = logLines 0 (documentMessages svgContent)
    /\ (exists more,
          logs = logLine 0 "SVG import started"
                   :: logLine 1 "SVG content parsed by DOMParser"
                   :: logLine 2
                        match querySelector svgDoc "parsererror" with
                        | Some parserError =>
                            "Parser error detected: "
                              +++ textContent parserError
                        | None => foundMessage svgDoc
                        end
                   :: more)
    /\ (forall (i : nat) (line : string),
          nth_error logs i = Some line ->
          exists message, line = "[" +++ clock i +++ "] " +++ message)
    /\ match result with
       | Ok _ => True
       | Err message =>
           exists headline,
             In headline ["Invalid SVG file";
                          "No supported SVG elements found";
                          "No valid paths could be imported"]
             /\ message
                = headline +++ newline +++ newline +++ "--- Debug Log ---"
                    +++ newline +++ String.concat newline logs
       end.
Proof.
  intros IEdge IWire F P svgContent. cbv zeta.
  split; [apply convertFromSVG_logs|]. split; [|split].
  - rewrite convertFromSVG_logs. unfold documentMessages.
    cbn [logLines].
    destruct (querySelector (parseFromString svgContent) "parsererror");
      cbn [logLines]; eexists; reflexivity.
  - rewrite convertFromSVG_logs. intros i line Hline.
    assert (Hlen : (i < List.length (documentMessages svgContent))%nat).
    { rewrite <- (logLines_length _ 0). apply nth_error_Some. congruence. }
    apply nth_error_Some in Hlen.
    destruct (nth_error (documentMessages svgContent) i) as [message|] eqn:E;
      [|congruence].
    rewrite (logLines_nth _ 0 i message E) in Hline. injection Hline as <-.
    now exists message.
  - unfold convertFromSVG.
    destruct (querySelector (parseFromString svgContent) "parsererror").
    { cbn [fst snd]. eexists. split; [left; reflexivity | reflexivity]. }
    destruct (Nat.eqb (totalElementsOf (parseFromString svgContent)) 0).
    { cbn [fst snd].
      eexists. split; [right; left; reflexivity | reflexivity]. }
    destruct (Nat.eqb (count _) 0); cbn [fst snd]; [|exact I].
    eexists. split; [right; right; left; reflexivity | reflexivity].
Qed.

(** The log of the conversion of a document with one triangle. *)
Example log_of_a_triangle :
  let svgDoc :=
    [Demo.element "path" [("id", "tri"); ("d", "M0,0 L10,0 L10,10 Z")]] in
  snd (convertFromSVG (F := recorder) (P := Demo.platform svgDoc)
         EmptyString)
  = ["[00:00:00] SVG import started";
     "[00:00:00] SVG content parsed by DOMParser";
     "[00:00:00] Found 1 SVG elements (1 path, 0 rect, 0 circle, "
       +++ "0 ellipse, 0 line, 0 polyline, 0 polygon)";
     "[00:00:00] Processing path 1: " +++ dquote +++ "tri" +++ dquote;
     "[00:00:00] Parsed 4 path commands";
     "[00:00:00] Total edges generated: 3";
     "[00:00:00] path 1: generated 3 edges";
     "[00:00:00] path 1: successfully created as " +++ dquote +++ "tri"
       +++ dquote;
     "[00:00:00] Import completed: 1 success, 0 failed"].
Proof. vm_compute. reflexivity. Qed.

(** ** Smooth quadratic curves *)

